(** * Participant Reliability Index (PRI): a shallow embedding of
      [tools/scripts/calculate_pri.py]

    The development follows the Python source function by function and keeps
    its names.  Conventions of the embedding:

    - A Python/NumPy float is a [pyfloat]: an exact rational, one of the two
      infinities, or NaN.  The special values follow IEEE 754 (NaN is
      absorbing, [0/0] is NaN, comparisons with NaN are false); finite
      arithmetic is exact, so rounding and signed zeros are not modelled,
      except where a definition takes the rounding as a parameter (the
      judge's mean).  Overflow is modelled where a number becomes a float:
      [float] of a string gives an infinity and [float] of an int raises.
    - A raw signal cell of the signal table is an [option Q]: the calculators
      only produce finite values or NaN ([None]).
    - Python exceptions are values of [exn]; code that can raise returns a
      [pyresult].
    - pandas columns are lists, sets of thought identifiers are [gset]s. *)

From Stdlib Require Import QArith Qminmax Qround Qabs Lqa ZArith List Lia
  Ascii String.
From stdpp Require Import base decidable option list gmap sets strings.
Import ListNotations.

Local Open Scope Q_scope.

(** ** Exceptions *)

Inductive exn : Type :=
  | ValueError
  | TypeError
  | ZeroDivisionError
  | OverflowError
  | KeyError
  | OtherError (msg : string).

Inductive pyresult (A : Type) : Type :=
  | Ok (a : A)
  | Raise (e : exn).
Arguments Ok {A} a.
Arguments Raise {A} e.

Definition pybind {A B} (m : pyresult A) (k : A -> pyresult B) : pyresult B :=
  match m with
  | Ok a => k a
  | Raise e => Raise e
  end.

(** [try: body except (ValueError, TypeError): handler] *)
Definition try_except_ValueError_TypeError {A}
    (body : pyresult A) (handler : pyresult A) : pyresult A :=
  match body with
  | Ok a => Ok a
  | Raise ValueError | Raise TypeError => handler
  | Raise e => Raise e
  end.

(** [try: body except Exception: handler] *)
Definition try_except_Exception {A}
    (body : pyresult A) (handler : exn -> A) : A :=
  match body with
  | Ok a => a
  | Raise e => handler e
  end.

#[global] Instance pyresult_ret : MRet pyresult := fun A a => Ok a.
#[global] Instance pyresult_bind : MBind pyresult :=
  fun A B k m => pybind m k.

(** ** Floats *)

Inductive pyfloat : Type :=
  | Fin (q : Q)
  | PInf
  | NInf
  | NaN.

Module Float.

Definition isnan (x : pyfloat) : bool :=
  match x with NaN => true | _ => false end.

Definition neg (x : pyfloat) : pyfloat :=
  match x with
  | Fin q => Fin (- q)
  | PInf => NInf
  | NInf => PInf
  | NaN => NaN
  end.

Definition add (x y : pyfloat) : pyfloat :=
  match x, y with
  | NaN, _ | _, NaN => NaN
  | Fin a, Fin b => Fin (a + b)
  | PInf, NInf | NInf, PInf => NaN
  | PInf, _ | _, PInf => PInf
  | NInf, _ | _, NInf => NInf
  end.

Definition sub (x y : pyfloat) : pyfloat := add x (neg y).

(** sign of a rational: -1, 0 or 1 *)
Definition sgn (q : Q) : Z := Z.sgn (Qnum q).

Definition signed_inf (s : Z) : pyfloat :=
  match s with
  | Z0 => NaN
  | Zpos _ => PInf
  | Zneg _ => NInf
  end.

Definition mul (x y : pyfloat) : pyfloat :=
  match x, y with
  | NaN, _ | _, NaN => NaN
  | Fin a, Fin b => Fin (a * b)
  | PInf, Fin b | Fin b, PInf => signed_inf (sgn b)
  | NInf, Fin b | Fin b, NInf => signed_inf (- sgn b)
  | PInf, PInf | NInf, NInf => PInf
  | PInf, NInf | NInf, PInf => NInf
  end.

(** NumPy division: a zero divisor gives an infinity or NaN, never an
    exception. *)
Definition div (x y : pyfloat) : pyfloat :=
  match x, y with
  | NaN, _ | _, NaN => NaN
  | Fin a, Fin b =>
      if Qeq_bool b 0 then signed_inf (sgn a) else Fin (a / b)
  | Fin _, (PInf | NInf) => Fin 0
  | PInf, Fin b => if Qle_bool 0 b then PInf else NInf
  | NInf, Fin b => if Qle_bool 0 b then NInf else PInf
  | (PInf | NInf), (PInf | NInf) => NaN
  end.

(** Python's own [/] on floats raises on a zero divisor. *)
Definition py_div (x y : pyfloat) : pyresult pyfloat :=
  match y with
  | Fin b => if Qeq_bool b 0 then Raise ZeroDivisionError else Ok (div x y)
  | _ => Ok (div x y)
  end.

Definition Qlt_bool (a b : Q) : bool := negb (Qle_bool b a).

(** [x < y]; false as soon as one side is NaN *)
Definition lt (x y : pyfloat) : bool :=
  match x, y with
  | NaN, _ | _, NaN => false
  | Fin a, Fin b => Qlt_bool a b
  | NInf, NInf | PInf, _ | _, NInf => false
  | NInf, _ | _, PInf => true
  end.

(** [x <= y] *)
Definition le (x y : pyfloat) : bool :=
  match x, y with
  | NaN, _ | _, NaN => false
  | Fin a, Fin b => Qle_bool a b
  | NInf, _ | _, PInf => true
  | PInf, _ | _, NInf => false
  end.

Definition gt (x y : pyfloat) : bool := lt y x.

(** a float that is a number between 0 and 1 *)
Definition in_unit (x : pyfloat) : Prop :=
  exists q, x = Fin q /\ 0 <= q <= 1.

(** equality of floats up to the representation of the rational *)
Definition eqv (x y : pyfloat) : Prop :=
  match x, y with
  | Fin a, Fin b => a == b
  | PInf, PInf | NInf, NInf | NaN, NaN => True
  | _, _ => False
  end.

Definition of_cell (c : option Q) : pyfloat :=
  match c with Some q => Fin q | None => NaN end.

End Float.

Infix "=f=" := Float.eqv (at level 70, no associativity).


(** ** Python strings *)

Module PyStr.

Definition chars (s : string) : list ascii := list_ascii_of_string s.

(** A string is the sequence of its code points, which are below 256. *)

(** [str.isspace] on a code point below 256: tab, LF, VT, FF, CR, FS, GS,
    RS, US, space, NEL (133) and the no-break space (160) *)
Definition isspace (c : ascii) : bool :=
  let n := nat_of_ascii c in
  ((9 <=? n) && (n <=? 13) || (28 <=? n) && (n <=? 32)
   || (n =? 133) || (n =? 160))%nat.

(** the whitespace [float] skips around a number, that of C's [isspace]:
    tab, LF, VT, FF, CR and space *)
Definition c_isspace (c : ascii) : bool :=
  let n := nat_of_ascii c in
  ((9 <=? n) && (n <=? 13) || (n =? 32))%nat.

Definition is_ascii (s : list ascii) : bool :=
  forallb (fun c => (nat_of_ascii c <? 128)%nat) s.

(** What [float] first makes of a string that is not ASCII: a code point
    below 127 stays, whitespace becomes a space, and at any other code point
    the string ends with a question mark (no code point from 127 to 255 is a
    decimal digit). *)
Fixpoint transform_spaces (s : list ascii) : list ascii :=
  match s with
  | [] => []
  | c :: s' =>
      if (nat_of_ascii c <? 127)%nat then c :: transform_spaces s'
      else if isspace c then " "%char :: transform_spaces s'
      else ["?"%char]
  end.

Fixpoint lstrip_by (p : ascii -> bool) (s : list ascii) : list ascii :=
  match s with
  | c :: s' => if p c then lstrip_by p s' else s
  | [] => []
  end.

Definition rstrip_by (p : ascii -> bool) (s : list ascii) : list ascii :=
  List.rev (lstrip_by p (List.rev s)).

(** [s.strip()] *)
Definition strip (s : list ascii) : list ascii :=
  rstrip_by isspace (lstrip_by isspace s).

Definition is_char (c : ascii) (d : ascii) : bool := Ascii.eqb c d.

(** [s.rstrip('%')] *)
Definition rstrip_percent (s : list ascii) : list ascii :=
  rstrip_by (is_char "%") s.

(** [s.endswith('%')] *)
Definition endswith_percent (s : list ascii) : bool :=
  match List.rev s with
  | c :: _ => is_char "%" c
  | [] => false
  end.

Definition is_digit (c : ascii) : bool :=
  let n := nat_of_ascii c in ((48 <=? n) && (n <=? 57))%nat.

Definition digit_val (c : ascii) : Z := Z.of_nat (nat_of_ascii c) - 48.

Definition lower (c : ascii) : ascii :=
  let n := nat_of_ascii c in
  if ((65 <=? n) && (n <=? 90))%nat then ascii_of_nat (n + 32) else c.

Definition lower_str (s : list ascii) : list ascii := List.map lower s.

Definition eqb_chars (s t : list ascii) : bool :=
  String.eqb (string_of_list_ascii s) (string_of_list_ascii t).

(** The rest of a digit part, [(["_"] digit)*]: the accumulated value, the
    number of digits read and the unread input. *)
Fixpoint digits_tail (acc : Z) (n : nat) (s : list ascii)
    : Z * nat * list ascii :=
  match s with
  | c :: s' =>
      if is_digit c then digits_tail (10 * acc + digit_val c) (S n) s'
      else if is_char "_" c then
        match s' with
        | d :: s'' =>
            if is_digit d
            then digits_tail (10 * acc + digit_val d) (S n) s''
            else (acc, n, s)
        | [] => (acc, n, s)
        end
      else (acc, n, s)
  | [] => (acc, n, s)
  end.

(** [digitpart ::= digit (["_"] digit)*] *)
Definition digitpart (s : list ascii) : option (Z * nat * list ascii) :=
  match s with
  | c :: s' => if is_digit c then Some (digits_tail (digit_val c) 1 s')
               else None
  | [] => None
  end.

(** optional sign: [true] for a minus *)
Definition sign (s : list ascii) : bool * list ascii :=
  match s with
  | c :: s' =>
      if is_char "-" c then (true, s')
      else if is_char "+" c then (false, s')
      else (false, s)
  | [] => (false, s)
  end.

(** [exponent ::= ("e" | "E") [sign] digitpart]; absent exponent is 0 *)
Definition exponent (s : list ascii) : option (Z * list ascii) :=
  match s with
  | c :: s' =>
      if is_char "e" (lower c) then
        let '(minus, s1) := sign s' in
        match digitpart s1 with
        | Some (e, _, rest) => Some (if minus then (- e)%Z else e, rest)
        | None => None
        end
      else Some (0%Z, s)
  | [] => Some (0%Z, s)
  end.

(** [number ::= [digitpart] "." digitpart | digitpart ["."]]: the mantissa
    as an integer together with the number of fractional digits *)
Definition number (s : list ascii) : option (Z * nat * list ascii) :=
  match digitpart s with
  | Some (ip, _, rest) =>
      match rest with
      | c :: rest' =>
          if is_char "." c then
            match digitpart rest' with
            | Some (_, fd, rest'') =>
                let '(m, _, _) := digits_tail ip 0 rest' in
                Some (m, fd, rest'')
            | None => Some (ip, 0%nat, rest')
            end
          else Some (ip, 0%nat, rest)
      | [] => Some (ip, 0%nat, rest)
      end
  | None =>
      match s with
      | c :: rest' =>
          if is_char "." c then
            match digitpart rest' with
            | Some (fp, fd, rest'') => Some (fp, fd, rest'')
            | None => None
            end
          else None
      | [] => None
      end
  end.

(** [m * 10^e] as a rational *)
Definition scale10 (m e : Z) : Q :=
  match e with
  | Zneg p => m # (10 ^ p)
  | _ => inject_Z (m * 10 ^ e)
  end.

(** A number of magnitude [2^1024 - 2^970] or more rounds beyond the
    largest float. *)
Definition float_overflow_bound : Z := (2 ^ 1024 - 2 ^ 970)%Z.

Definition overflows (q : Q) : bool :=
  Qle_bool (inject_Z float_overflow_bound) (Qabs q).

(** the float of the decimal number [q] read from a string: an infinity
    when [q] rounds beyond the largest float *)
Definition float_of_decimal (minus : bool) (q : Q) : pyfloat :=
  if overflows q then (if minus then NInf else PInf)
  else Fin (if minus then - q else q).

(** [float(s)] on a string: [floatvalue ::= [sign] (floatnumber | "inf" |
    "infinity" | "nan")], surrounded by optional whitespace (that of C for
    an ASCII string), letters in any case; anything else raises
    [ValueError]. *)
Definition float_of_chars (s : list ascii) : pyresult pyfloat :=
  let s := if is_ascii s then s else transform_spaces s in
  let '(minus, body) := sign (rstrip_by c_isspace (lstrip_by c_isspace s)) in
  let word := lower_str body in
  if eqb_chars word (chars "inf") || eqb_chars word (chars "infinity")
  then Ok (if minus then NInf else PInf)
  else if eqb_chars word (chars "nan") then Ok NaN
  else
    match number body with
    | Some (m, fd, rest) =>
        match exponent rest with
        | Some (e, []) =>
            Ok (float_of_decimal minus (scale10 m (e - Z.of_nat fd)))
        | _ => Raise ValueError
        end
    | None => Raise ValueError
    end.

End PyStr.

(** ** Data loading *)

(** A cell handed to [parse_percentage] by [read_csv]/[apply]: [None], a
    bool, an int, a float (NaN for an empty CSV field) or a string.  The
    ints of a parsed CSV column are 64-bit; a Python int is unbounded. *)
Inductive cell : Type :=
  | CNone
  | CBool (b : bool)
  | CInt (z : Z)
  | CFloat (f : pyfloat)
  | CStr (s : string).

(** [pd.isna(value)] on a scalar *)
Definition pd_isna (value : cell) : bool :=
  match value with
  | CNone => true
  | CFloat f => Float.isnan f
  | _ => false
  end.

(** [float(value)] on a bool, int or float: an int that rounds beyond the
    largest float is an [OverflowError] *)
Definition float_of_number (value : cell) : pyresult pyfloat :=
  match value with
  | CBool b => Ok (Fin (if b then 1 else 0))
  | CInt z =>
      if (PyStr.float_overflow_bound <=? Z.abs z)%Z then Raise OverflowError
      else Ok (Fin (inject_Z z))
  | CFloat f => Ok f
  | _ => Raise TypeError
  end.

(** [value > 1] on a bool, int or float *)
Definition number_gt_1 (value : cell) : bool :=
  match value with
  | CBool _ => false
  | CInt z => (1 <? z)%Z
  | CFloat f => Float.gt f (Fin 1)
  | _ => false
  end.

(** [value_str in ['-', ' - ']] *)
Definition is_dash (value_str : list ascii) : bool :=
  PyStr.eqb_chars value_str (PyStr.chars "-")
  || PyStr.eqb_chars value_str (PyStr.chars " - ").

Definition parse_percentage (value : cell) : pyresult pyfloat :=
  if pd_isna value then Ok NaN
  else
    try_except_ValueError_TypeError
      (match value with
       | CBool _ | CInt _ | CFloat _ =>
           if number_gt_1 value
           then f ← float_of_number value; Float.py_div f (Fin 100)
           else float_of_number value
       | CStr s =>
           let value_str := PyStr.strip (PyStr.chars s) in
           if PyStr.endswith_percent value_str then
             f ← PyStr.float_of_chars (PyStr.rstrip_percent value_str);
             Float.py_div f (Fin 100)
           else if is_dash value_str then Ok NaN
           else
             val ← PyStr.float_of_chars value_str;
             if Float.gt val (Fin 1) then Float.py_div val (Fin 100)
             else Ok val
       | CNone => Raise TypeError   (* [None] has left through [pd.isna] *)
       end)
      (Ok NaN).

(** *** The binary vote table *)

(** A row of the binary vote CSV as [read_csv] delivers it. *)
Record raw_binary_row : Type := {
  raw_Participant_ID : string;
  raw_Thought_ID : string;
  raw_Vote : cell;
  raw_Timestamp : option Z;   (* seconds; [None] is NaT *)
}.

(** A row of [binary_df] once [load_data] has added [VoteNumeric]. *)
Record binary_row : Type := {
  Participant_ID : string;
  Thought_ID : string;
  Vote : cell;
  VoteNumeric : option Q;      (* [None] is NaN *)
  Timestamp : option Z;
}.

(** The dictionary [{'Agree': 1, 'agree': 1, 'Disagree': 0, 'disagree': 0}] *)
Definition vote_dict : gmap string Q :=
  {[ "Agree"%string := 1; "agree"%string := 1;
     "Disagree"%string := 0; "disagree"%string := 0 ]}.

(** [Series.map(dict)] on one cell, followed by [astype(float)]: a value
    that is not a key of the dictionary becomes NaN. *)
Definition map_vote (v : cell) : option Q :=
  match v with
  | CStr s => vote_dict !! s
  | _ => None
  end.

(** The part of [load_data] that builds [binary_df]. *)
Definition load_binary (rows : list raw_binary_row) : list binary_row :=
  List.map (fun r =>
    {| Participant_ID := raw_Participant_ID r;
       Thought_ID := raw_Thought_ID r;
       Vote := raw_Vote r;
       VoteNumeric := map_vote (raw_Vote r);
       Timestamp := raw_Timestamp r |}) rows.

(** [Series.unique()]: the distinct values in order of first appearance *)
Fixpoint unique (seen : gset string) (l : list string) : list string :=
  match l with
  | [] => []
  | x :: l' =>
      if decide (x ∈ seen) then unique seen l'
      else x :: unique ({[ x ]} ∪ seen) l'
  end.

(** [all_participant_ids = binary_df['Participant ID'].unique()] *)
Definition all_participant_ids (binary_df : list binary_row) : list string :=
  unique ∅ (List.map Participant_ID binary_df).

(** ** Anti-Social Consensus *)

Record consensus_data : Type := {
  strong_agree_thoughts : gset string;
  strong_disagree_thoughts : gset string;
}.

(** One iteration of the vote loop of [calculate_asc_score] on the counters
    [(against_consensus_count, total_consensus_votes)]. *)
Definition asc_vote_step (cd : consensus_data)
    (counts : nat * nat) (vote_row : binary_row) : nat * nat :=
  let '(against_consensus_count, total_consensus_votes) := counts in
  let thought_id := Thought_ID vote_row in
  match VoteNumeric vote_row with
  | None => counts                                   (* continue *)
  | Some vote_value =>
      let total_consensus_votes := S total_consensus_votes in
      if bool_decide (thought_id ∈ strong_agree_thoughts cd)
         && Qeq_bool vote_value 0
      then (S against_consensus_count, total_consensus_votes)
      else if bool_decide (thought_id ∈ strong_disagree_thoughts cd)
              && Qeq_bool vote_value 1
      then (S against_consensus_count, total_consensus_votes)
      else (against_consensus_count, total_consensus_votes)
  end.

Definition Q_of_nat (n : nat) : Q := inject_Z (Z.of_nat n).

(** [calculate_asc_score]; [None] is the NaN it returns for "missing". *)
Definition calculate_asc_score (participant_id : string)
    (binary_df : list binary_row) (cd : consensus_data) : option Q :=
  let all_consensus_thoughts :=
    strong_agree_thoughts cd ∪ strong_disagree_thoughts cd in
  if decide (all_consensus_thoughts = ∅) then None
  else
    let participant_binary_df :=
      filter (fun r => Participant_ID r = participant_id) binary_df in
    let consensus_votes :=
      filter (fun r => Thought_ID r ∈ all_consensus_thoughts)
             participant_binary_df in
    match consensus_votes with
    | [] => None
    | _ =>
        let '(against_consensus_count, total_consensus_votes) :=
          fold_left (asc_vote_step cd) consensus_votes (0%nat, 0%nat) in
        if Nat.eqb total_consensus_votes 0 then None
        else Some (Q_of_nat against_consensus_count
                   / Q_of_nat total_consensus_votes)
    end.

(** ** Configuration *)

Record config : Type := {
  ASC_HIGH_THRESHOLD : Q;
  ASC_LOW_THRESHOLD : Q;
  UNIVERSAL_DISAGREEMENT_THRESHOLD_ALL : Q;
  UNIVERSAL_DISAGREEMENT_THRESHOLD_SEGMENTS : Q;
  MAJOR_SEGMENT_MIN_PARTICIPANTS : Q;
  DURATION_REASONABLE_MAX : Q;
  DURATION_WEIGHT : Q;
  LOW_QUALITY_TAG_WEIGHT : Q;
  UNIVERSAL_DISAGREEMENT_WEIGHT : Q;
  ASC_WEIGHT : Q;
  DURATION_WEIGHT_LLM : Q;
  LOW_QUALITY_TAG_WEIGHT_LLM : Q;
  UNIVERSAL_DISAGREEMENT_WEIGHT_LLM : Q;
  ASC_WEIGHT_LLM : Q;
  LLM_JUDGE_WEIGHT : Q;
}.

(** The PRI parameters of [get_config]. *)
Definition get_config : config := {|
  ASC_HIGH_THRESHOLD := 0.70;
  ASC_LOW_THRESHOLD := 0.30;
  UNIVERSAL_DISAGREEMENT_THRESHOLD_ALL := 0.30;
  UNIVERSAL_DISAGREEMENT_THRESHOLD_SEGMENTS := 0.40;
  MAJOR_SEGMENT_MIN_PARTICIPANTS := 20;
  DURATION_REASONABLE_MAX := 60 * 90;
  DURATION_WEIGHT := 0.30;
  LOW_QUALITY_TAG_WEIGHT := 0.30;
  UNIVERSAL_DISAGREEMENT_WEIGHT := 0.20;
  ASC_WEIGHT := 0.20;
  DURATION_WEIGHT_LLM := 0.20;
  LOW_QUALITY_TAG_WEIGHT_LLM := 0.20;
  UNIVERSAL_DISAGREEMENT_WEIGHT_LLM := 0.15;
  ASC_WEIGHT_LLM := 0.15;
  LLM_JUDGE_WEIGHT := 0.30;
|}.

(** ** Series *)

Module Series.

(** a raw column: [None] is NaN *)
Abbreviation t := (list (option Q)).

Definition isna (c : option Q) : bool :=
  match c with None => true | Some _ => false end.

(** [series.isna().all()] *)
Definition isna_all (series : t) : bool := forallb isna series.

(** [series.dropna()] *)
Definition dropna (series : t) : list Q := omap id series.

Fixpoint insert_sorted (x : Q) (l : list Q) : list Q :=
  match l with
  | [] => [x]
  | y :: l' => if Qle_bool x y then x :: l else y :: insert_sorted x l'
  end.

Definition sort (l : list Q) : list Q := fold_right insert_sorted [] l.

(** median of the sorted values: the middle one, or the mean of the two
    middle ones *)
Definition median_sorted (s : list Q) : Q :=
  let n := length s in
  if Nat.odd n then nth (n / 2) s 0
  else (nth (n / 2 - 1) s 0 + nth (n / 2) s 0) / 2.

(** [series.median()], which skips NaN *)
Definition median (series : t) : Q := median_sorted (sort (dropna series)).

(** [series.fillna(v)] *)
Definition fillna (v : Q) (series : t) : list Q :=
  List.map (fun c => match c with Some q => q | None => v end) series.

Definition Qmin_list (l : list Q) : Q :=
  match l with
  | [] => 0
  | x :: l' => fold_left Qmin l' x
  end.

Definition Qmax_list (l : list Q) : Q :=
  match l with
  | [] => 0
  | x :: l' => fold_left Qmax l' x
  end.

(** [normalized[mask] = v] *)
Definition assign_where (mask : list bool) (v : pyfloat)
    (normalized : list pyfloat) : list pyfloat :=
  zip_with (fun (m : bool) x => if m then v else x) mask normalized.

End Series.

(** ** Normalisation and fusion *)

(** The inner function [min_max_normalize] of
    [normalize_and_calculate_pri]. *)
Definition min_max_normalize (series : Series.t) (invert : bool)
    (reasonable_max : option Q) : list pyfloat :=
  if Series.isna_all series then List.map Float.of_cell series
  else
    let median_val := Series.median series in
    let filled_series := Series.fillna median_val series in
    let min_val := Series.Qmin_list filled_series in
    let max_val := Series.Qmax_list filled_series in
    let normalized :=
      if Qeq_bool min_val max_val
      then List.map (fun _ => Fin 0.5) series
      else
        match reasonable_max with
        | Some rmax =>
            if Float.Qlt_bool rmax max_val then
              let normalized :=
                List.map (fun v => Float.div (Fin (v - min_val))
                                             (Fin (rmax - min_val)))
                         filled_series in
              Series.assign_where
                (List.map (fun v => Float.Qlt_bool rmax v) filled_series)
                (Fin 1) normalized
            else
              List.map (fun v => Float.div (Fin (v - min_val))
                                           (Fin (max_val - min_val)))
                       filled_series
        | None =>
            List.map (fun v => Float.div (Fin (v - min_val))
                                         (Fin (max_val - min_val)))
                     filled_series
        end in
    let normalized :=
      if invert then List.map (fun x => Float.sub (Fin 1) x) normalized
      else normalized in
    Series.assign_where (List.map Series.isna series) NaN normalized.

(** The signal table produced by [calculate_all_pri_signals], column by
    column.  [LLM_Judge_Score] is [None] when the column does not exist. *)
Record signals_df : Type := {
  col_Participant_ID : list string;
  Duration_seconds : Series.t;
  LowQualityTag_Perc : Series.t;
  UniversalDisagreement_Perc : Series.t;
  ASC_Score_Raw : Series.t;
  LLM_Judge_Score : option Series.t;
}.

(** The same table after [normalize_and_calculate_pri] has added its
    columns; a column that the run does not create is [None]. *)
Record pri_df : Type := {
  signals : signals_df;
  Duration_Norm : list pyfloat;
  LowQualityTag_Norm : list pyfloat;
  UniversalDisagreement_Norm : list pyfloat;
  ASC_Norm : option (list pyfloat);
  LLM_Judge_Norm : option (list pyfloat);
  PRI_Score_Heuristic : list pyfloat;
  PRI_Score_Enhanced : option (list pyfloat);
  PRI_Score : list pyfloat;
  PRI_Scale_1_5 : list pyfloat;
}.

(** [column * weight] *)
Definition col_scale (c : list pyfloat) (w : Q) : list pyfloat :=
  List.map (fun x => Float.mul x (Fin w)) c.

(** [column + column] *)
Definition col_add (a b : list pyfloat) : list pyfloat :=
  zip_with Float.add a b.

(** A weight dictionary, in insertion order. *)
Definition weight_dict := list (string * Q).

(** [weights[key]] for a key of the dictionary *)
Fixpoint weight (ws : weight_dict) (key : string) : Q :=
  match ws with
  | [] => 0
  | (k, w) :: ws' => if String.eqb k key then w else weight ws' key
  end.

Definition weight_sum (ws : weight_dict) : Q :=
  fold_right (fun kw acc => snd kw + acc) 0 ws.

(** [asc_available = not pri_signals_df['ASC_Score_Raw'].isna().all()] *)
Definition asc_available (df : signals_df) : bool :=
  negb (Series.isna_all (ASC_Score_Raw df)).

(** ['LLM_Judge_Score' in columns and not ...isna().all()] *)
Definition llm_judge_available (df : signals_df) : bool :=
  match LLM_Judge_Score df with
  | Some s => negb (Series.isna_all s)
  | None => false
  end.

(** The dictionary [heuristic_weights] built in either branch. *)
Definition heuristic_weights (cfg : config) (asc : bool) : weight_dict :=
  if asc then
    [ ("Duration_Norm"%string, DURATION_WEIGHT cfg);
      ("LowQualityTag_Norm"%string, LOW_QUALITY_TAG_WEIGHT cfg);
      ("UniversalDisagreement_Norm"%string,
        UNIVERSAL_DISAGREEMENT_WEIGHT cfg);
      ("ASC_Norm"%string, ASC_WEIGHT cfg) ]
  else
    let asc_redistribution := ASC_WEIGHT cfg / 3 in
    [ ("Duration_Norm"%string, DURATION_WEIGHT cfg + asc_redistribution);
      ("LowQualityTag_Norm"%string,
        LOW_QUALITY_TAG_WEIGHT cfg + asc_redistribution);
      ("UniversalDisagreement_Norm"%string,
        UNIVERSAL_DISAGREEMENT_WEIGHT cfg + asc_redistribution) ].

(** The dictionary [enhanced_weights] built in either branch. *)
Definition enhanced_weights (cfg : config) (asc : bool) : weight_dict :=
  if asc then
    [ ("Duration_Norm"%string, DURATION_WEIGHT_LLM cfg);
      ("LowQualityTag_Norm"%string, LOW_QUALITY_TAG_WEIGHT_LLM cfg);
      ("UniversalDisagreement_Norm"%string,
        UNIVERSAL_DISAGREEMENT_WEIGHT_LLM cfg);
      ("ASC_Norm"%string, ASC_WEIGHT_LLM cfg);
      ("LLM_Judge_Norm"%string, LLM_JUDGE_WEIGHT cfg) ]
  else
    let asc_weight_redistribution := ASC_WEIGHT_LLM cfg / 4 in
    [ ("Duration_Norm"%string,
        DURATION_WEIGHT_LLM cfg + asc_weight_redistribution);
      ("LowQualityTag_Norm"%string,
        LOW_QUALITY_TAG_WEIGHT_LLM cfg + asc_weight_redistribution);
      ("UniversalDisagreement_Norm"%string,
        UNIVERSAL_DISAGREEMENT_WEIGHT_LLM cfg + asc_weight_redistribution);
      ("LLM_Judge_Norm"%string,
        LLM_JUDGE_WEIGHT cfg + asc_weight_redistribution) ].

(** a column that exists in the branch that reads it *)
Definition column (c : option (list pyfloat)) : list pyfloat :=
  match c with Some l => l | None => [] end.

Definition normalize_and_calculate_pri (pri_signals_df : signals_df)
    (cfg : config) : pri_df :=
  let Duration_Norm :=
    min_max_normalize (Duration_seconds pri_signals_df) false
                      (Some (DURATION_REASONABLE_MAX cfg)) in
  let LowQualityTag_Norm :=
    min_max_normalize (LowQualityTag_Perc pri_signals_df) true None in
  let UniversalDisagreement_Norm :=
    min_max_normalize (UniversalDisagreement_Perc pri_signals_df) true None in
  let asc_available := asc_available pri_signals_df in
  let llm_judge_available := llm_judge_available pri_signals_df in
  let ASC_Norm :=
    if asc_available
    then Some (min_max_normalize (ASC_Score_Raw pri_signals_df) true None)
    else None in
  let LLM_Judge_Norm :=
    match LLM_Judge_Score pri_signals_df with
    | Some s =>
        if llm_judge_available
        then Some (min_max_normalize s false None) else None
    | None => None
    end in
  let heuristic_weights := heuristic_weights cfg asc_available in
  let PRI_Score_Heuristic :=
    if asc_available then
      col_add (col_add (col_add
        (col_scale Duration_Norm (weight heuristic_weights "Duration_Norm"))
        (col_scale LowQualityTag_Norm
           (weight heuristic_weights "LowQualityTag_Norm")))
        (col_scale UniversalDisagreement_Norm
           (weight heuristic_weights "UniversalDisagreement_Norm")))
        (col_scale (column ASC_Norm) (weight heuristic_weights "ASC_Norm"))
    else
      col_add (col_add
        (col_scale Duration_Norm (weight heuristic_weights "Duration_Norm"))
        (col_scale LowQualityTag_Norm
           (weight heuristic_weights "LowQualityTag_Norm")))
        (col_scale UniversalDisagreement_Norm
           (weight heuristic_weights "UniversalDisagreement_Norm")) in
  let enhanced_weights := enhanced_weights cfg asc_available in
  let PRI_Score_Enhanced :=
    if llm_judge_available then
      if asc_available then
        Some (col_add (col_add (col_add (col_add
          (col_scale Duration_Norm (weight enhanced_weights "Duration_Norm"))
          (col_scale LowQualityTag_Norm
             (weight enhanced_weights "LowQualityTag_Norm")))
          (col_scale UniversalDisagreement_Norm
             (weight enhanced_weights "UniversalDisagreement_Norm")))
          (col_scale (column ASC_Norm) (weight enhanced_weights "ASC_Norm")))
          (col_scale (column LLM_Judge_Norm)
             (weight enhanced_weights "LLM_Judge_Norm")))
      else
        Some (col_add (col_add (col_add
          (col_scale Duration_Norm (weight enhanced_weights "Duration_Norm"))
          (col_scale LowQualityTag_Norm
             (weight enhanced_weights "LowQualityTag_Norm")))
          (col_scale UniversalDisagreement_Norm
             (weight enhanced_weights "UniversalDisagreement_Norm")))
          (col_scale (column LLM_Judge_Norm)
             (weight enhanced_weights "LLM_Judge_Norm")))
    else None in
  let PRI_Score :=
    match PRI_Score_Enhanced with
    | Some enhanced => enhanced
    | None => PRI_Score_Heuristic
    end in
  let PRI_Scale_1_5 :=
    List.map (fun x => Float.add (Float.mul x (Fin 4)) (Fin 1)) PRI_Score in
  {| signals := pri_signals_df;
     Duration_Norm := Duration_Norm;
     LowQualityTag_Norm := LowQualityTag_Norm;
     UniversalDisagreement_Norm := UniversalDisagreement_Norm;
     ASC_Norm := ASC_Norm;
     LLM_Judge_Norm := LLM_Judge_Norm;
     PRI_Score_Heuristic := PRI_Score_Heuristic;
     PRI_Score_Enhanced := PRI_Score_Enhanced;
     PRI_Score := PRI_Score;
     PRI_Scale_1_5 := PRI_Scale_1_5 |}.

(** The active weight set: the enhanced one when the judge is available,
    else the heuristic one. *)
Definition active_weights (cfg : config) (df : signals_df) : weight_dict :=
  if llm_judge_available df then enhanced_weights cfg (asc_available df)
  else heuristic_weights cfg (asc_available df).

(** ** Unreliable participants *)

(** A function that is handed the DataFrame object returns, next to its own
    result, the table as it leaves it. *)
Definition frame_fun (A : Type) : Type := pri_df -> pri_df * A.

Definition frame_ret {A} (a : A) : frame_fun A := fun df => (df, a).

Definition frame_bind {A B} (m : frame_fun A) (k : A -> frame_fun B)
    : frame_fun B :=
  fun df => let '(df', a) := m df in k a df'.

(** reading from the table leaves it as it is *)
Definition frame_read {A} (f : pri_df -> A) : frame_fun A :=
  fun df => (df, f df).

Module Scores.

(** [column.dropna()] *)
Definition dropna (c : list pyfloat) : list pyfloat :=
  List.filter (fun x => negb (Float.isnan x)) c.

Fixpoint insert_sorted (x : pyfloat) (l : list pyfloat) : list pyfloat :=
  match l with
  | [] => [x]
  | y :: l' => if Float.le x y then x :: l else y :: insert_sorted x l'
  end.

Definition sort (l : list pyfloat) : list pyfloat :=
  fold_right insert_sorted [] l.

(** linear interpolation between two neighbours, as NumPy computes it *)
Definition lerp (a b : pyfloat) (t : Q) : pyfloat :=
  let diff_b_a := Float.sub b a in
  if Qle_bool 0.5 t
  then Float.sub b (Float.mul diff_b_a (Fin (1 - t)))
  else Float.add a (Float.mul diff_b_a (Fin t)).

(** [valid_scores.quantile(q)] with the default linear interpolation;
    a [q] outside [0, 1] is a [ValueError]. *)
Definition quantile (valid_scores : list pyfloat) (q : Q)
    : pyresult pyfloat :=
  if Qle_bool 0 q && Qle_bool q 1 then
    let sorted := sort valid_scores in
    let n := Z.of_nat (length sorted) in
    let virtual_index := inject_Z (n - 1) * q in
    let previous_index := Qfloor virtual_index in
    let next_index := Z.min (previous_index + 1) (n - 1) in
    let gamma := virtual_index - inject_Z previous_index in
    Ok (lerp (nth (Z.to_nat previous_index) sorted NaN)
             (nth (Z.to_nat next_index) sorted NaN) gamma)
  else Raise ValueError.

(** [df[mask]['Participant ID'].tolist()] *)
Fixpoint select (mask : list bool) (ids : list string) : list string :=
  match mask, ids with
  | m :: mask', i :: ids' =>
      if m then i :: select mask' ids' else select mask' ids'
  | _, _ => []
  end.

End Scores.

Definition identify_unreliable_participants
    (method : string) (threshold : option Q)
    : frame_fun (pyresult (list string)) :=
  frame_bind (frame_read (fun df => Scores.dropna (PRI_Scale_1_5 df)))
  (fun valid_scores =>
  if Nat.eqb (length valid_scores) 0 then frame_ret (Ok [])
  else if String.eqb method "outliers" then
    match Scores.quantile valid_scores 0.25,
          Scores.quantile valid_scores 0.75 with
    | Ok q1, Ok q3 =>
        let iqr := Float.sub q3 q1 in
        let lower_bound := Float.sub q1 (Float.mul (Fin 1.5) iqr) in
        frame_bind
          (frame_read (fun df =>
             List.map (fun x => Float.lt x lower_bound) (PRI_Scale_1_5 df)))
        (fun low_outlier_mask =>
        frame_read (fun df =>
          Ok (Scores.select low_outlier_mask
                (col_Participant_ID (signals df)))))
    | Raise e, _ | _, Raise e => frame_ret (Raise e)
    end
  else if String.eqb method "percentile" then
    let threshold := match threshold with Some t => t | None => 10 end in
    match Scores.quantile valid_scores (threshold / 100) with
    | Ok percentile_threshold =>
        frame_bind
          (frame_read (fun df =>
             List.map (fun x => Float.le x percentile_threshold)
                      (PRI_Scale_1_5 df)))
        (fun unreliable_mask =>
        frame_read (fun df =>
          Ok (Scores.select unreliable_mask
                (col_Participant_ID (signals df)))))
    | Raise e => frame_ret (Raise e)
    end
  else if String.eqb method "threshold" then
    let threshold := match threshold with Some t => t | None => 2.5 end in
    frame_bind
      (frame_read (fun df =>
         List.map (fun x => Float.le x (Fin threshold)) (PRI_Scale_1_5 df)))
    (fun unreliable_mask =>
    frame_read (fun df =>
      Ok (Scores.select unreliable_mask (col_Participant_ID (signals df)))))
  else frame_ret (Raise ValueError)).

(** ** The per-participant signal loop *)

(** The four signal calculators as [calculate_all_pri_signals] calls them,
    applied to the loaded tables: each returns its value (the duration in
    seconds, [None] for NaT or NaN) or raises. *)
Record signal_calculators : Type := {
  calculate_duration : string -> pyresult (option Q);
  calculate_low_quality_tag_percentage : string -> pyresult (option Q);
  calculate_universal_disagreement_percentage
    : string -> pyresult (option Q);
  calculate_asc : string -> pyresult (option Q);
}.

(** One dictionary of [results].  [r_LLM_Judge_Score] is [None] when the key
    is absent and [Some None] when its value is NaN. *)
Record result_dict : Type := {
  r_Participant_ID : string;
  r_Duration_seconds : option Q;
  r_LowQualityTag_Perc : option Q;
  r_UniversalDisagreement_Perc : option Q;
  r_ASC_Score_Raw : option Q;
  r_LLM_Judge_Score : option (option Q);
}.

(** [error_dict] of the [except] branch *)
Definition error_dict (participant_id : string) (enable_llm_judge : bool)
    : result_dict :=
  {| r_Participant_ID := participant_id;
     r_Duration_seconds := None;
     r_LowQualityTag_Perc := None;
     r_UniversalDisagreement_Perc := None;
     r_ASC_Score_Raw := None;
     r_LLM_Judge_Score := if enable_llm_judge then Some None else None |}.

(** The body of the loop over participants: the dictionary it appends. *)
Definition process_participant (calc : signal_calculators)
    (enable_llm_judge : bool) (participant_id : string) : result_dict :=
  try_except_Exception
    (duration ← calculate_duration calc participant_id;
     low_quality_perc ←
       calculate_low_quality_tag_percentage calc participant_id;
     universal_disagreement_perc ←
       calculate_universal_disagreement_percentage calc participant_id;
     asc_raw ← calculate_asc calc participant_id;
     Ok {| r_Participant_ID := participant_id;
           r_Duration_seconds := duration;
           r_LowQualityTag_Perc := low_quality_perc;
           r_UniversalDisagreement_Perc := universal_disagreement_perc;
           r_ASC_Score_Raw := asc_raw;
           r_LLM_Judge_Score :=
             if enable_llm_judge then Some None else None |})
    (fun _ => error_dict participant_id enable_llm_judge).

(** [l[:k]] *)
Definition slice_to {A} (l : list A) (k : Z) : list A :=
  if (0 <=? k)%Z then take (Z.to_nat k) l
  else take (Z.to_nat (Z.of_nat (length l) + k)) l.

(** the participants the loop runs over *)
Definition processed_ids (all_participant_ids : list string)
    (participant_limit : option Z) : list string :=
  match participant_limit with
  | Some limit =>
      let participant_limit :=
        Z.min limit (Z.of_nat (length all_participant_ids)) in
      slice_to all_participant_ids participant_limit
  | None => all_participant_ids
  end.

(** [results] when the loop over the participants has ended *)
Definition signal_loop (calc : signal_calculators) (enable_llm_judge : bool)
    (ids : list string) : list result_dict :=
  fold_left
    (fun results participant_id =>
       results ++ [process_participant calc enable_llm_judge participant_id])
    ids [].

(** The update of one dictionary with the outcome of the judge batch. *)
Definition update_llm_score (llm_results : gmap string Q)
    (r : result_dict) : result_dict :=
  {| r_Participant_ID := r_Participant_ID r;
     r_Duration_seconds := r_Duration_seconds r;
     r_LowQualityTag_Perc := r_LowQualityTag_Perc r;
     r_UniversalDisagreement_Perc := r_UniversalDisagreement_Perc r;
     r_ASC_Score_Raw := r_ASC_Score_Raw r;
     r_LLM_Judge_Score :=
       match llm_results !! r_Participant_ID r with
       | Some llm_score => Some (Some llm_score)
       | None => Some (Some 0.5)
       end |}.

(** [calculate_all_pri_signals], up to the construction of the DataFrame.
    [evaluatable_questions] tells whether the discussion guide yielded any
    evaluatable question; [batch_process_llm_judge] stands for the outcome of
    the judge batch on the given participants. *)
Definition calculate_all_pri_signals (calc : signal_calculators)
    (all_participant_ids : list string) (participant_limit : option Z)
    (enable_llm_judge : bool) (evaluatable_questions : bool)
    (batch_process_llm_judge : list string -> gmap string Q)
    : list result_dict :=
  let all_participant_ids :=
    processed_ids all_participant_ids participant_limit in
  let enable_llm_judge := enable_llm_judge && evaluatable_questions in
  let results := signal_loop calc enable_llm_judge all_participant_ids in
  if enable_llm_judge then
    let participant_ids_for_llm := List.map r_Participant_ID results in
    let llm_results := batch_process_llm_judge participant_ids_for_llm in
    List.map (update_llm_score llm_results) results
  else results.

(** ** The judge batch as a transition system

    [batch_process_llm_judge] creates one semaphore for the run and, batch
    after batch, one task per participant; a task enters
    [async with semaphore], and inside it [calculate_llm_judge_score] issues
    one request per configured model and waits for all of them.  The event
    loop interleaves the tasks at their [await]s; the transitions below are
    those interleavings. *)

Module BatchLLM.

Record params : Type := {
  BATCH_SIZE : nat;
  MAX_CONCURRENT_REQUESTS : nat;
  models : nat;      (* [len(config.models)] *)
}.

(** The constants of the source: batches of 100, a semaphore of 200, the
    three models of [LLMJudgeConfig]. *)
Definition source_params : params :=
  {| BATCH_SIZE := 100; MAX_CONCURRENT_REQUESTS := 200; models := 3 |}.

(** A task [process_participant_with_semaphore(participant_id)]. *)
Inductive task : Type :=
  | Waiting (calls : nat)
      (* before [async with semaphore]; it will issue [calls] requests *)
  | Holding (unsent in_flight : nat)
      (* inside [async with semaphore]: requests still to be posted and
         requests posted and not yet resolved *)
  | Done.

Record state : Type := {
  permits : nat;            (* the value of the semaphore *)
  batch : list task;        (* the tasks of the current batch *)
  later : list bool;        (* participants of the batches to come: does
                               the participant have evaluatable responses *)
}.

(** A participant without evaluatable responses gets the neutral score
    without any request; the others fan out to every model. *)
Definition calls_of (p : params) (has_responses : bool) : nat :=
  if has_responses then models p else 0%nat.

Definition init (p : params) (participants : list bool) : state :=
  {| permits := MAX_CONCURRENT_REQUESTS p; batch := []; later := participants |}.

Inductive event : Type :=
  | StartBatch          (* the loop creates the tasks of the next batch *)
  | Acquire (i : nat)   (* task [i] enters [async with semaphore] *)
  | Send (i : nat)      (* task [i] posts one of its requests *)
  | Resolve (i : nat)   (* a request of task [i] ends: reply, error, timeout *)
  | Release (i : nat).  (* task [i] leaves [async with semaphore] *)

Definition is_done (t : task) : bool :=
  match t with Done => true | _ => false end.

Definition step (p : params) (st : state) (ev : event) : option state :=
  match ev with
  | StartBatch =>
      if forallb is_done (batch st) then
        match later st with
        | [] => None
        | _ =>
            Some {| permits := permits st;
                    batch := List.map (fun h => Waiting (calls_of p h))
                               (take (BATCH_SIZE p) (later st));
                    later := drop (BATCH_SIZE p) (later st) |}
        end
      else None
  | Acquire i =>
      match batch st !! i, permits st with
      | Some (Waiting calls), S n =>
          Some {| permits := n;
                  batch := <[ i := Holding calls 0 ]> (batch st);
                  later := later st |}
      | _, _ => None
      end
  | Send i =>
      match batch st !! i with
      | Some (Holding (S unsent) in_flight) =>
          Some {| permits := permits st;
                  batch := <[ i := Holding unsent (S in_flight) ]> (batch st);
                  later := later st |}
      | _ => None
      end
  | Resolve i =>
      match batch st !! i with
      | Some (Holding unsent (S in_flight)) =>
          Some {| permits := permits st;
                  batch := <[ i := Holding unsent in_flight ]> (batch st);
                  later := later st |}
      | _ => None
      end
  | Release i =>
      match batch st !! i with
      | Some (Holding 0 0) =>
          Some {| permits := S (permits st);
                  batch := <[ i := Done ]> (batch st);
                  later := later st |}
      | _ => None
      end
  end.

(** running a schedule of events *)
Fixpoint run (p : params) (st : state) (evs : list event) : option state :=
  match evs with
  | [] => Some st
  | ev :: evs' =>
      match step p st ev with
      | Some st' => run p st' evs'
      | None => None
      end
  end.

Definition reachable (p : params) (participants : list bool) (st : state)
    : Prop :=
  exists evs, run p (init p participants) evs = Some st.

Definition task_in_flight (t : task) : nat :=
  match t with Holding _ f => f | _ => 0%nat end.

(** the number of judge requests in flight *)
Definition in_flight (st : state) : nat :=
  list_sum (List.map task_in_flight (batch st)).

Definition is_holding (t : task) : bool :=
  match t with Holding _ _ => true | _ => false end.

(** the number of tasks inside [async with semaphore] *)
Definition holders (st : state) : nat :=
  length (List.filter is_holding (batch st)).

(** the schedule in which every task of a batch of [n] enters the
    semaphore and posts its [k] requests before any reply arrives *)
Definition fan_out_schedule (n k : nat) : list event :=
  StartBatch
    :: List.map Acquire (seq 0 n)
    ++ List.concat (List.map (fun i => repeat (Send i) k) (seq 0 n)).

Definition holding_weight (t : task) : nat :=
  if is_holding t then 1%nat else 0%nat.

(** A task never has more requests, posted or to be posted, than there
    are models. *)
Definition task_ok (p : params) (t : task) : Prop :=
  match t with
  | Waiting calls => (calls <= models p)%nat
  | Holding unsent in_flight => (unsent + in_flight <= models p)%nat
  | Done => True
  end.

(** The permits left and the tasks inside the semaphore add up to the
    initial value of the semaphore. *)
Definition invariant (p : params) (st : state) : Prop :=
  (permits st + holders st = MAX_CONCURRENT_REQUESTS p)%nat /\
  Forall (task_ok p) (batch st).

End BatchLLM.

(** ** Notions of the specification *)

(** A vote row with a valid (agree or disagree, not missing) vote of the
    participant on an item of either consensus set. *)
Definition spec_valid_consensus_vote (participant_id : string)
    (cd : consensus_data) (r : binary_row) : Prop :=
  Participant_ID r = participant_id /\
  Thought_ID r ∈ strong_agree_thoughts cd ∪ strong_disagree_thoughts cd /\
  is_Some (VoteNumeric r).

(** A vote against consensus: a disagree vote (0) on a strong-agreement
    item, or an agree vote (1) on a strong-disagreement item. *)
Definition spec_against_consensus (cd : consensus_data) (r : binary_row)
    : bool :=
  match VoteNumeric r with
  | Some v =>
      bool_decide (Thought_ID r ∈ strong_agree_thoughts cd) && Qeq_bool v 0
      || bool_decide (Thought_ID r ∈ strong_disagree_thoughts cd)
         && Qeq_bool v 1
  | None => false
  end.

#[global] Instance spec_valid_consensus_vote_dec pid cd r :
  Decision (spec_valid_consensus_vote pid cd r).
Proof. unfold spec_valid_consensus_vote. apply _. Defined.

(** the valid consensus votes the participant cast *)
Definition spec_consensus_votes (participant_id : string)
    (binary_df : list binary_row) (cd : consensus_data) : list binary_row :=
  filter (spec_valid_consensus_vote participant_id cd) binary_df.

(** the against-consensus votes among them *)
Definition spec_against_votes (participant_id : string)
    (binary_df : list binary_row) (cd : consensus_data) : list binary_row :=
  List.filter (spec_against_consensus cd)
    (spec_consensus_votes participant_id binary_df cd).

(** The participant of the specification's example: three votes on
    strong-agreement items, two agreeing and one disagreeing (and, besides,
    a vote on an item outside the consensus sets and another participant's
    vote). *)
Definition example_votes : list raw_binary_row :=
  [ {| raw_Participant_ID := "p1"; raw_Thought_ID := "t1";
       raw_Vote := CStr "Agree"; raw_Timestamp := Some 10%Z |};
    {| raw_Participant_ID := "p1"; raw_Thought_ID := "t2";
       raw_Vote := CStr "agree"; raw_Timestamp := Some 70%Z |};
    {| raw_Participant_ID := "p2"; raw_Thought_ID := "t3";
       raw_Vote := CStr "Disagree"; raw_Timestamp := None |};
    {| raw_Participant_ID := "p1"; raw_Thought_ID := "t3";
       raw_Vote := CStr "Disagree"; raw_Timestamp := Some 130%Z |};
    {| raw_Participant_ID := "p1"; raw_Thought_ID := "t9";
       raw_Vote := CStr "Disagree"; raw_Timestamp := Some 190%Z |} ].

Definition example_consensus : consensus_data :=
  {| strong_agree_thoughts := {[ "t1"%string; "t2"%string; "t3"%string ]};
     strong_disagree_thoughts := {[ "t4"%string ]} |}.

(** What [min_max_normalize] makes of one cell once the minimum and the
    maximum of the filled series are known. *)
Definition normalize_cell (min_val max_val : Q) (invert : bool)
    (reasonable_max : option Q) (c : option Q) : pyfloat :=
  match c with
  | None => NaN
  | Some v =>
      let normalized :=
        if Qeq_bool min_val max_val then Fin 0.5
        else
          match reasonable_max with
          | Some rmax =>
              if Float.Qlt_bool rmax max_val then
                if Float.Qlt_bool rmax v then Fin 1
                else Float.div (Fin (v - min_val)) (Fin (rmax - min_val))
              else Float.div (Fin (v - min_val)) (Fin (max_val - min_val))
          | None => Float.div (Fin (v - min_val)) (Fin (max_val - min_val))
          end in
      if invert then Float.sub (Fin 1) normalized else normalized
  end.

(** the population minimum and maximum: over the raw values present *)
Definition population_min (series : Series.t) : Q :=
  Series.Qmin_list (Series.dropna series).

Definition population_max (series : Series.t) : Q :=
  Series.Qmax_list (Series.dropna series).

(** The value of a column in row [i] is a number between 0 and 1. *)
Definition unit_at (c : list pyfloat) (i : nat) : Prop :=
  exists x, c !! i = Some x /\ Float.in_unit x.

(** The configured weights are non-negative, and each weight set sums
    to 1. *)
Definition weights_ok (cfg : config) : Prop :=
  0 <= DURATION_WEIGHT cfg /\ 0 <= LOW_QUALITY_TAG_WEIGHT cfg /\
  0 <= UNIVERSAL_DISAGREEMENT_WEIGHT cfg /\ 0 <= ASC_WEIGHT cfg /\
  DURATION_WEIGHT cfg + LOW_QUALITY_TAG_WEIGHT cfg
    + UNIVERSAL_DISAGREEMENT_WEIGHT cfg + ASC_WEIGHT cfg == 1 /\
  0 <= DURATION_WEIGHT_LLM cfg /\ 0 <= LOW_QUALITY_TAG_WEIGHT_LLM cfg /\
  0 <= UNIVERSAL_DISAGREEMENT_WEIGHT_LLM cfg /\ 0 <= ASC_WEIGHT_LLM cfg /\
  0 <= LLM_JUDGE_WEIGHT cfg /\
  DURATION_WEIGHT_LLM cfg + LOW_QUALITY_TAG_WEIGHT_LLM cfg
    + UNIVERSAL_DISAGREEMENT_WEIGHT_LLM cfg + ASC_WEIGHT_LLM cfg
    + LLM_JUDGE_WEIGHT cfg == 1.

(** A signal table in which ASC is missing for every participant, without
    and with judge scores. *)
Definition example_signals_no_asc : signals_df :=
  {| col_Participant_ID := ["p1"; "p2"; "p3"]%string;
     Duration_seconds := [Some 60; Some 600; Some 6000];
     LowQualityTag_Perc := [Some 0; Some 0.5; Some 1];
     UniversalDisagreement_Perc := [Some 0.2; Some 0; Some 0.4];
     ASC_Score_Raw := [None; None; None];
     LLM_Judge_Score := None |}.


(** A signal table with every signal measured. *)
Definition example_signals : signals_df :=
  {| col_Participant_ID := ["p1"; "p2"; "p3"]%string;
     Duration_seconds := [Some 60; Some 600; Some 6000];
     LowQualityTag_Perc := [Some 0; Some 0.5; Some 1];
     UniversalDisagreement_Perc := [Some 0.2; Some 0; Some 0.4];
     ASC_Score_Raw := [Some (1 # 3); Some 0; Some 1];
     LLM_Judge_Score := Some [Some 0.9; Some 0.5; Some 0.1] |}.

(** The participants whose 1-5 score is strictly below [lower_bound], in
    table order. *)
Definition spec_below (lower_bound : pyfloat) (df : pri_df) : list string :=
  List.map fst
    (List.filter (fun row : string * pyfloat => Float.lt (snd row) lower_bound)
       (zip (col_Participant_ID (signals df)) (PRI_Scale_1_5 df))).


(** A finished table with the given participants and 1-5 scores; the other
    columns play no part in the classification. *)
Definition scored_table (ids : list string) (scale : list pyfloat) : pri_df :=
  {| signals :=
       {| col_Participant_ID := ids;
          Duration_seconds := []; LowQualityTag_Perc := [];
          UniversalDisagreement_Perc := []; ASC_Score_Raw := [];
          LLM_Judge_Score := None |};
     Duration_Norm := []; LowQualityTag_Norm := [];
     UniversalDisagreement_Norm := []; ASC_Norm := None;
     LLM_Judge_Norm := None; PRI_Score_Heuristic := [];
     PRI_Score_Enhanced := None; PRI_Score := [];
     PRI_Scale_1_5 := scale |}.

(** The scores of the specification's example, [1,2,2,3,3,3,4,4,5,9], and
    a table with a low outlier. *)
Definition example_scored : pri_df :=
  scored_table
    ["a"; "b"; "c"; "d"; "e"; "f"; "g"; "h"; "i"; "j"]%string
    [Fin 1; Fin 2; Fin 2; Fin 3; Fin 3; Fin 3; Fin 4; Fin 4; Fin 5; Fin 9].

Definition example_scored_low : pri_df :=
  scored_table
    ["a"; "b"; "c"; "d"; "e"; "f"]%string
    [Fin 1; Fin 4; NaN; Fin 4.1; Fin 4.2; Fin 4.3].

(** The distinct values of a list in the order of their first appearance. *)
Fixpoint spec_first_appearances (l : list string) : list string :=
  match l with
  | [] => []
  | x :: l' => x :: filter (fun y => y <> x) (spec_first_appearances l')
  end.

(** Computing some signal of the participant raises an exception. *)
Definition raises (calc : signal_calculators) (participant_id : string)
    : Prop :=
  exists e,
    calculate_duration calc participant_id = Raise e \/
    calculate_low_quality_tag_percentage calc participant_id = Raise e \/
    calculate_universal_disagreement_percentage calc participant_id
      = Raise e \/
    calculate_asc calc participant_id = Raise e.

(** every signal value of the row is missing *)
Definition all_signals_missing (r : result_dict) : Prop :=
  r_Duration_seconds r = None /\ r_LowQualityTag_Perc r = None /\
  r_UniversalDisagreement_Perc r = None /\ r_ASC_Score_Raw r = None /\
  (r_LLM_Judge_Score r = None \/ r_LLM_Judge_Score r = Some None).

(** Calculators for the example vote table: the ASC score is the embedded
    [calculate_asc_score]; the duration lookup fails for participant "p2". *)
Definition example_calculators : signal_calculators :=
  {| calculate_duration := fun participant_id =>
       if String.eqb participant_id "p2" then Raise KeyError
       else Ok (Some 180);
     calculate_low_quality_tag_percentage := fun _ => Ok (Some 0);
     calculate_universal_disagreement_percentage := fun _ => Ok (Some 0);
     calculate_asc := fun participant_id =>
       Ok (calculate_asc_score participant_id (load_binary example_votes)
             example_consensus) |}.

(** ** The other signal calculators and the consensus precomputation *)

(** A row of [preference_df]; only the participant and the timestamp are
    read.  A timestamp is a number of seconds (the format of the files has
    minutes); pandas holds it in 64-bit nanoseconds. *)
Record preference_row : Type := {
  pref_Participant_ID : string;
  pref_Timestamp : option Z;     (* seconds; [None] is NaT *)
}.

(** [thought_labels_df]: its column names and its rows; a row holds the
    participant and one cell per column, in column order. *)
Record label_row : Type := {
  label_Participant_ID : string;
  label_values : list cell;
}.

Record labels_df : Type := {
  label_columns : list string;
  label_rows : list label_row;
}.

(** A row of [verbatim_map_df]. *)
Record verbatim_row : Type := {
  vm_Participant_ID : string;
  vm_Thought_ID : string;
  vm_Question_ID : string;
}.

(** A row of [aggregate_std_df] with the columns [load_data] has added:
    [All_Agreement] and one ["<segment>_Agreement"] per major segment. *)
Record aggregate_row : Type := {
  agg_Question_ID : string;
  agg_Participant_ID : string;
  All_Agreement : pyfloat;
  Segment_Agreement : list (string * pyfloat);
}.

Module Signals.

Definition Zmin_list (l : list Z) : Z :=
  match l with
  | [] => 0%Z
  | x :: l' => fold_left Z.min l' x
  end.

Definition Zmax_list (l : list Z) : Z :=
  match l with
  | [] => 0%Z
  | x :: l' => fold_left Z.max l' x
  end.

(** [df[df['Participant ID'] == participant_id]['Timestamp'].dropna()] *)
Definition binary_times (participant_id : string)
    (binary_df : list binary_row) : list Z :=
  omap Timestamp
    (filter (fun r => Participant_ID r = participant_id) binary_df).

Definition preference_times (participant_id : string)
    (preference_df : list preference_row) : list Z :=
  omap pref_Timestamp
    (filter (fun r => pref_Participant_ID r = participant_id) preference_df).

(** The largest [Timedelta] is [2^63 - 1] nanoseconds: in whole seconds,
    9223372036 (some 292 years). *)
Definition max_timedelta_seconds : Z := ((2 ^ 63 - 1) / 10 ^ 9)%Z.

(** [later - earlier] on two timestamps: a difference that no [Timedelta]
    holds raises ([OutOfBoundsDatetime], a [ValueError]). *)
Definition timestamp_sub (later earlier : Z) : pyresult Z :=
  if (max_timedelta_seconds <? later - earlier)%Z then Raise ValueError
  else Ok (later - earlier)%Z.

(** [calculate_duration]: the [Timedelta] it returns, in seconds. *)
Definition calculate_duration (participant_id : string)
    (binary_df : list binary_row) (preference_df : list preference_row)
    : pyresult Z :=
  let participant_binary_times := binary_times participant_id binary_df in
  let participant_pref_times :=
    preference_times participant_id preference_df in
  let all_times := participant_binary_times ++ participant_pref_times in
  if (length all_times <? 2)%nat then Ok 0%Z
  else timestamp_sub (Zmax_list all_times) (Zmin_list all_times).

(** [col.startswith('Tag ')] *)
Definition is_tag_column (col : string) : bool := String.prefix "Tag " col.

(** ['Uninformative answer' == val], for a value that is not NaN *)
Definition is_uninformative (val : cell) : bool :=
  match val with
  | CStr s => String.eqb "Uninformative answer" s
  | _ => false
  end.

(** the values of a row in the tag columns *)
Definition tag_values (columns : list string) (row : label_row) : list cell :=
  List.map snd
    (List.filter (fun cv : string * cell => is_tag_column (fst cv))
       (zip columns (label_values row))).

(** [any('Uninformative answer' == val for val in row.values
         if pd.notna(val))] *)
Definition row_is_low_quality (columns : list string) (row : label_row)
    : bool :=
  existsb (fun val => negb (pd_isna val) && is_uninformative val)
    (tag_values columns row).

(** [thought_labels_df.empty] *)
Definition labels_empty (thought_labels_df : labels_df) : bool :=
  match label_columns thought_labels_df, label_rows thought_labels_df with
  | [], _ | _, [] => true
  | _, _ => false
  end.

Definition calculate_low_quality_tag_percentage (participant_id : string)
    (thought_labels_df : labels_df) : Q :=
  if labels_empty thought_labels_df then 0
  else
    let participant_labels :=
      filter (fun r => label_Participant_ID r = participant_id)
             (label_rows thought_labels_df) in
    match participant_labels with
    | [] => 0
    | _ =>
        let tag_cols :=
          List.filter is_tag_column (label_columns thought_labels_df) in
        match tag_cols with
        | [] => 0
        | _ =>
            let is_low_quality :=
              List.map (row_is_low_quality (label_columns thought_labels_df))
                       participant_labels in
            let num_low_quality :=
              length (List.filter (fun b : bool => b) is_low_quality) in
            let total_responses := length participant_labels in
            if (0 <? total_responses)%nat
            then Q_of_nat num_low_quality / Q_of_nat total_responses
            else 0
        end
    end.

(** Python's [max(a, b)] on floats: [b] when [b > a], else [a]. *)
Definition py_max (a b : pyfloat) : pyfloat :=
  if Float.gt b a then b else a.

(** One row of the first loop of [precompute_consensus_data]. *)
Definition agreement_step (question_agreement_map : gmap string pyfloat)
    (row : aggregate_row) : gmap string pyfloat :=
  if Float.isnan (All_Agreement row) then question_agreement_map
  else
    let question_id := agg_Question_ID row in
    let agreement := All_Agreement row in
    match question_agreement_map !! question_id with
    | Some old => <[ question_id := py_max old agreement ]>
                    question_agreement_map
    | None => <[ question_id := agreement ]> question_agreement_map
    end.

Definition question_agreement_map (aggregate_std_df : list aggregate_row)
    : gmap string pyfloat :=
  fold_left agreement_step aggregate_std_df ∅.

(** [dict(zip(verbatim_map_df['Thought ID'], verbatim_map_df['Question ID']))]:
    a later row overrides an earlier one with the same thought. *)
Definition thought_to_question (verbatim_map_df : list verbatim_row)
    : gmap string string :=
  fold_left (fun m r => <[ vm_Thought_ID r := vm_Question_ID r ]> m)
            verbatim_map_df ∅.

(** One item of the classification loop, on the two sets. *)
Definition classify_step (cfg : config) (qmap : gmap string pyfloat)
    (sets : gset string * gset string) (item : string * string)
    : gset string * gset string :=
  let '(strong_agree_thoughts, strong_disagree_thoughts) := sets in
  let '(thought_id, question_id) := item in
  match qmap !! question_id with
  | Some agreement =>
      if Float.le (Fin (ASC_HIGH_THRESHOLD cfg)) agreement
      then ({[ thought_id ]} ∪ strong_agree_thoughts,
            strong_disagree_thoughts)
      else if Float.le agreement (Fin (ASC_LOW_THRESHOLD cfg))
      then (strong_agree_thoughts,
            {[ thought_id ]} ∪ strong_disagree_thoughts)
      else sets
  | None => sets
  end.

Definition precompute_consensus_data (verbatim_map_df : list verbatim_row)
    (aggregate_std_df : list aggregate_row) (cfg : config) : consensus_data :=
  let question_agreement_map := question_agreement_map aggregate_std_df in
  let thought_to_question := thought_to_question verbatim_map_df in
  let '(strong_agree_thoughts, strong_disagree_thoughts) :=
    fold_left (classify_step cfg question_agreement_map)
              (map_to_list thought_to_question) (∅, ∅) in
  {| strong_agree_thoughts := strong_agree_thoughts;
     strong_disagree_thoughts := strong_disagree_thoughts |}.

End Signals.

(** A timestamp recorded for the participant, in the binary votes or in the
    preference votes. *)
Definition spec_recorded (participant_id : string)
    (binary_df : list binary_row) (preference_df : list preference_row)
    (t : Z) : Prop :=
  (exists r, In r binary_df /\ Participant_ID r = participant_id /\
             Timestamp r = Some t) \/
  (exists r, In r preference_df /\ pref_Participant_ID r = participant_id /\
             pref_Timestamp r = Some t).

Definition example_preferences : list preference_row :=
  [ {| pref_Participant_ID := "p1"; pref_Timestamp := Some 250%Z |};
    {| pref_Participant_ID := "p2"; pref_Timestamp := Some 40%Z |};
    {| pref_Participant_ID := "p1"; pref_Timestamp := None |} ].

(** What the agreement map holds for a question: the largest agreement
    rate among its rows with a rate. *)
Definition max_agreement (rows : list aggregate_row) (q : string)
    (a : pyfloat) : Prop :=
  Float.isnan a = false /\
  (exists row, In row rows /\ agg_Question_ID row = q /\ All_Agreement row = a) /\
  forall row, In row rows -> agg_Question_ID row = q ->
              Float.isnan (All_Agreement row) = false ->
              Float.le (All_Agreement row) a = true.

(** A float that is missing or a number between 0 and 1. *)
Definition nan_or_unit (x : pyfloat) : Prop := x = NaN \/ Float.in_unit x.

(** A float that is missing or a number between 0 and [w]. *)
Definition nan_or_below (w : Q) (x : pyfloat) : Prop :=
  x = NaN \/ exists q, x = Fin q /\ 0 <= q <= w.

(** Every raw column of the signal table has [n] rows. *)
Definition table_rows (df : signals_df) (n : nat) : Prop :=
  length (Duration_seconds df) = n /\
  length (LowQualityTag_Perc df) = n /\
  length (UniversalDisagreement_Perc df) = n /\
  length (ASC_Score_Raw df) = n /\
  match LLM_Judge_Score df with
  | Some s => length s = n
  | None => True
  end.

(** A raw signal that enters the fusion is missing in row [i]. *)
Definition contributing_signal_missing (df : signals_df) (i : nat) : Prop :=
  Duration_seconds df !! i = Some None \/
  LowQualityTag_Perc df !! i = Some None \/
  UniversalDisagreement_Perc df !! i = Some None \/
  (asc_available df = true /\ ASC_Score_Raw df !! i = Some None) \/
  (llm_judge_available df = true /\
   exists s, LLM_Judge_Score df = Some s /\ s !! i = Some None).

(** The value of the column in row [i], when there is one, satisfies
    [P]. *)
Definition col_ok (P : pyfloat -> Prop) (c : list pyfloat) (i : nat) : Prop :=
  forall x, c !! i = Some x -> P x.

(** The participants that have a 1-5 score, in table order. *)
Definition spec_scored (df : pri_df) : list string :=
  List.map fst
    (List.filter (fun row : string * pyfloat => negb (Float.isnan (snd row)))
       (zip (col_Participant_ID (signals df)) (PRI_Scale_1_5 df))).

(** The participants whose 1-5 score is at most [t], in table order. *)
Definition spec_at_most (t : Q) (df : pri_df) : list string :=
  List.map fst
    (List.filter (fun row : string * pyfloat => Float.le (snd row) (Fin t))
       (zip (col_Participant_ID (signals df)) (PRI_Scale_1_5 df))).

(** The method is one of the three the function knows. *)
Definition known_method (method : string) : bool :=
  String.eqb method "outliers" || String.eqb method "percentile"
  || String.eqb method "threshold".

(** A verbatim map and aggregate rows: question "q1" reaches 0.9 in one of
    its rows, question "q2" stays at 0.1, question "q3" has no rate. *)
Definition example_verbatim_map : list verbatim_row :=
  [ {| vm_Participant_ID := "p1"; vm_Thought_ID := "t1";
       vm_Question_ID := "q1" |};
    {| vm_Participant_ID := "p2"; vm_Thought_ID := "t2";
       vm_Question_ID := "q2" |};
    {| vm_Participant_ID := "p3"; vm_Thought_ID := "t3";
       vm_Question_ID := "q3" |} ].

Definition example_aggregate : list aggregate_row :=
  [ {| agg_Question_ID := "q1"; agg_Participant_ID := "p1";
       All_Agreement := Fin 0.4; Segment_Agreement := [] |};
    {| agg_Question_ID := "q1"; agg_Participant_ID := "p4";
       All_Agreement := Fin 0.9; Segment_Agreement := [] |};
    {| agg_Question_ID := "q2"; agg_Participant_ID := "p2";
       All_Agreement := Fin 0.1; Segment_Agreement := [] |};
    {| agg_Question_ID := "q3"; agg_Participant_ID := "p3";
       All_Agreement := NaN; Segment_Agreement := [] |} ].

(** A signal table in which the second participant has no tag
    percentage. *)
Definition example_signals_missing : signals_df :=
  {| col_Participant_ID := ["p1"; "p2"; "p3"]%string;
     Duration_seconds := [Some 60; Some 600; Some 6000];
     LowQualityTag_Perc := [Some 0; None; Some 1];
     UniversalDisagreement_Perc := [Some 0.2; Some 0; Some 0.4];
     ASC_Score_Raw := [Some (1 # 3); Some 0; Some 1];
     LLM_Judge_Score := None |}.

(** ** Universal disagreement *)

Module Disagreement.

(** the larger of two floats, a NaN being skipped *)
Definition nan_max (a b : pyfloat) : pyfloat :=
  if Float.isnan a then b
  else if Float.isnan b then a
  else if Float.lt a b then b else a.

(** [segment_agreements.max(axis=1)] on one row: the largest value that is
    not NaN, NaN when there is none *)
Definition row_max (values : list pyfloat) : pyfloat :=
  fold_left nan_max values NaN.

(** the cell of a row in the column [col] *)
Fixpoint row_get (col : string) (cells : list (string * pyfloat))
    : option pyfloat :=
  match cells with
  | [] => None
  | (c, v) :: cells' => if String.eqb c col then Some v else row_get col cells'
  end.

(** One dictionary of [authored_thoughts_data]. *)
Record thought_data : Type := {
  td_Thought_ID : string;
  td_Question_ID : string;
  td_All_Agreement : pyfloat;
  td_Max_Segment_Agreement : pyfloat;
}.

(** The body of the loop over the authored thoughts: the dictionary it
    appends, [None] when it appends nothing.  The columns of
    [question_data] are those of its first row, every row of a DataFrame
    holding every column. *)
Definition authored_thought (participant_id : string)
    (verbatim_map_df : list verbatim_row)
    (aggregate_std_df : list aggregate_row) (major_segments : list string)
    (thought_id : string) : option thought_data :=
  let question_row :=
    filter (fun r => vm_Thought_ID r = thought_id) verbatim_map_df in
  match question_row with
  | [] => None
  | first_question_row :: _ =>
      let question_id := vm_Question_ID first_question_row in
      let question_data :=
        filter (fun r => agg_Question_ID r = question_id /\
                         agg_Participant_ID r = participant_id)
               aggregate_std_df in
      match question_data with
      | [] => None
      | first_row :: _ =>
          let columns := List.map fst (Segment_Agreement first_row) in
          let segment_agreement_cols :=
            filter (fun c => c ∈ columns)
              (List.map (fun col => (col ++ "_Agreement")%string)
                        major_segments) in
          let max_segment_agreement_value :=
            match segment_agreement_cols with
            | [] => NaN
            | _ =>
                row_max
                  (omap (fun c => row_get c (Segment_Agreement first_row))
                        segment_agreement_cols)
            end in
          let agreement_value := All_Agreement first_row in
          if Float.isnan agreement_value then None
          else Some {| td_Thought_ID := thought_id;
                       td_Question_ID := question_id;
                       td_All_Agreement := agreement_value;
                       td_Max_Segment_Agreement :=
                         max_segment_agreement_value |}
      end
  end.

(** [(All_Agreement < threshold_all) | (Max_Segment_Agreement <
    threshold_segments)] on one row *)
Definition is_universally_disagreed (cfg : config) (d : thought_data)
    : bool :=
  Float.lt (td_All_Agreement d)
           (Fin (UNIVERSAL_DISAGREEMENT_THRESHOLD_ALL cfg))
  || Float.lt (td_Max_Segment_Agreement d)
              (Fin (UNIVERSAL_DISAGREEMENT_THRESHOLD_SEGMENTS cfg)).

Definition authored_thought_ids (participant_id : string)
    (verbatim_map_df : list verbatim_row) : list string :=
  unique ∅
    (List.map vm_Thought_ID
       (filter (fun r => vm_Participant_ID r = participant_id)
               verbatim_map_df)).

Definition authored_thoughts_data (participant_id : string)
    (verbatim_map_df : list verbatim_row)
    (aggregate_std_df : list aggregate_row) (major_segments : list string)
    : list thought_data :=
  omap (authored_thought participant_id verbatim_map_df aggregate_std_df
          major_segments)
       (authored_thought_ids participant_id verbatim_map_df).

Definition calculate_universal_disagreement_percentage
    (participant_id : string) (verbatim_map_df : list verbatim_row)
    (aggregate_std_df : list aggregate_row) (major_segments : list string)
    (cfg : config) : Q :=
  match authored_thought_ids participant_id verbatim_map_df with
  | [] => 0
  | _ =>
      let authored_thoughts_data :=
        authored_thoughts_data participant_id verbatim_map_df
          aggregate_std_df major_segments in
      match authored_thoughts_data with
      | [] => 0
      | _ =>
          let num_universally_disagreed :=
            length (List.filter (is_universally_disagreed cfg)
                                authored_thoughts_data) in
          let total_evaluated := length authored_thoughts_data in
          if (0 <? total_evaluated)%nat
          then Q_of_nat num_universally_disagreed / Q_of_nat total_evaluated
          else 0
      end
  end.

End Disagreement.

(** ** The judge's score and the batch results *)

Module LLMJudge.

(** What [asyncio.gather(..., return_exceptions=True)] holds for one model:
    an exception, or the tuple [call_llm_judge] returned, whose score is
    [None] when the call failed. *)
Inductive judge_result : Type :=
  | JException (e : exn)
  | JReturn (model_name : string) (confidence_score : option Q)
            (reasoning : string).

Definition valid_score (result : judge_result) : option Q :=
  match result with
  | JReturn _ (Some confidence_score) _ => Some confidence_score
  | _ => None
  end.

Definition store_individual
    (individual_scores : gmap string (option Q * string))
    (result : judge_result) : gmap string (option Q * string) :=
  match result with
  | JException _ => individual_scores
  | JReturn model_name confidence_score reasoning =>
      <[ model_name := (confidence_score, reasoning) ]> individual_scores
  end.

(** The built-in [sum] on floats as CPython computes it up to version 3.11:
    the additions from left to right, each rounded; [fl] rounds an exact
    result to the nearest float.  From version 3.12 on the built-in keeps a
    compensation term besides. *)
Definition float_sum (fl : Q -> Q) (l : list Q) : Q :=
  fold_left (fun acc x => fl (acc + x)) l 0.

(** [calculate_llm_judge_score], given the participant's evaluatable
    responses and, when there are some, what the calls to the models
    gave.  The mean is computed in floats: [builtin_sum] is the
    interpreter's [sum] on floats, and the division rounds by [fl]. *)
Definition calculate_llm_judge_score {R} (builtin_sum : list Q -> Q)
    (fl : Q -> Q) (responses : list R)
    (results : list judge_result) : Q * gmap string (option Q * string) :=
  match responses with
  | [] => (0.5, ∅)
  | _ =>
      let valid_scores := omap valid_score results in
      let individual_scores := fold_left store_individual results ∅ in
      match valid_scores with
      | [] => (0.5, individual_scores)
      | _ =>
          (fl (builtin_sum valid_scores / Q_of_nat (length valid_scores)),
           individual_scores)
      end
  end.

(** [process_participant_with_semaphore]: the score it returns, [judge]
    being the outcome of [calculate_llm_judge_score] for a participant. *)
Definition process_participant_with_semaphore
    (judge : string -> pyresult Q) (participant_id : string) : Q :=
  try_except_Exception (judge participant_id) (fun _ => 0.5).

Definition total_batches (BATCH_SIZE : nat) (participant_ids : list string)
    : nat :=
  ((length participant_ids + BATCH_SIZE - 1) / BATCH_SIZE)%nat.

(** [participant_ids[start_idx:end_idx]] of batch [batch_idx] *)
Definition batch_participants (BATCH_SIZE : nat)
    (participant_ids : list string) (batch_idx : nat) : list string :=
  let start_idx := (batch_idx * BATCH_SIZE)%nat in
  let end_idx :=
    Nat.min (start_idx + BATCH_SIZE) (length participant_ids) in
  drop start_idx (take end_idx participant_ids).

(** the results stored after one batch *)
Definition store_batch (judge : string -> pyresult Q)
    (results : gmap string Q) (batch_participants : list string)
    : gmap string Q :=
  fold_left
    (fun results participant_id =>
       <[ participant_id :=
            process_participant_with_semaphore judge participant_id ]>
         results)
    batch_participants results.

(** [batch_process_llm_judge]: the score stored for each participant. *)
Definition batch_process_llm_judge (BATCH_SIZE : nat)
    (judge : string -> pyresult Q) (participant_ids : list string)
    : gmap string Q :=
  fold_left
    (fun results batch_idx =>
       store_batch judge results
         (batch_participants BATCH_SIZE participant_ids batch_idx))
    (seq 0 (total_batches BATCH_SIZE participant_ids)) ∅.

End LLMJudge.

(** ** The calculators of the source *)

(** The four calculators as [calculate_all_pri_signals] applies them to the
    loaded tables, which have the columns the calculators read; the
    consensus sets are computed once.  [calculate_duration] raises when the
    participant's timestamps lie too far apart for a [Timedelta]. *)
Definition source_calculators (binary_df : list binary_row)
    (preference_df : list preference_row) (thought_labels_df : labels_df)
    (verbatim_map_df : list verbatim_row)
    (aggregate_std_df : list aggregate_row) (major_segments : list string)
    (cfg : config) : signal_calculators :=
  let consensus_data :=
    Signals.precompute_consensus_data verbatim_map_df aggregate_std_df cfg in
  {| calculate_duration := fun participant_id =>
       duration ← Signals.calculate_duration participant_id binary_df
                    preference_df;
       Ok (Some (inject_Z duration));
     calculate_low_quality_tag_percentage := fun participant_id =>
       Ok (Some (Signals.calculate_low_quality_tag_percentage participant_id
                   thought_labels_df));
     calculate_universal_disagreement_percentage := fun participant_id =>
       Ok (Some (Disagreement.calculate_universal_disagreement_percentage
                   participant_id verbatim_map_df aggregate_std_df
                   major_segments cfg));
     calculate_asc := fun participant_id =>
       Ok (calculate_asc_score participant_id binary_df consensus_data) |}.

(** ** Quantiles of finite scores *)

(** A list in ascending order. *)
Fixpoint ascending (l : list Q) : Prop :=
  match l with
  | [] => True
  | x :: l' => (forall y, In y l' -> x <= y) /\ ascending l'
  end.

(** The numbers among the scores. *)
Definition fin_values (c : list pyfloat) : list Q :=
  omap (fun y => match y with Fin v => Some v | _ => None end) c.

(** Every score is missing or a number. *)
Definition scores_finite (c : list pyfloat) : Prop :=
  forall y, In y c -> y = NaN \/ exists v, y = Fin v.

(** The quantile by linear interpolation between the two neighbours in the
    sorted values. *)
Definition spec_quantile (values : list Q) (q : Q) : Q :=
  let sorted := Series.sort values in
  let n := Z.of_nat (length sorted) in
  let virtual_index := inject_Z (n - 1) * q in
  let previous_index := Qfloor virtual_index in
  let next_index := Z.min (previous_index + 1) (n - 1) in
  let a := nth (Z.to_nat previous_index) sorted 0 in
  let b := nth (Z.to_nat next_index) sorted 0 in
  a + (b - a) * (virtual_index - inject_Z previous_index).
(** ** The work left in a judge run *)

(** The events a task still has to go through: entering the semaphore,
    posting each request, the end of each request, leaving the semaphore. *)
Definition task_work (t : BatchLLM.task) : nat :=
  match t with
  | BatchLLM.Waiting calls => 2 + 2 * calls
  | BatchLLM.Holding unsent in_flight => 1 + 2 * unsent + in_flight
  | BatchLLM.Done => 0
  end.

(** An upper bound on the events left: the work of the tasks of the batch,
    and for each participant to come the start of a batch and the work of
    its task. *)
Definition remaining_work (p : BatchLLM.params) (st : BatchLLM.state)
    : nat :=
  list_sum (List.map task_work (BatchLLM.batch st))
  + length (BatchLLM.later st) * (3 + 2 * BatchLLM.models p).

(** ** Notions for the fusion, the quartiles and the rounded mean *)








(** A rounding to the nearest multiple of [2^-52], halves upwards: monotone
    and exact on the integers, as the rounding of floats is on the integers
    below [2^53]. *)
Definition example_rounding (q : Q) : Q :=
  inject_Z (Qfloor (q * 4503599627370496 + (1 # 2))) / 4503599627370496.

(** A schedule of a judge run of 150 participants and the state it leads
    to: of the first batch, task 0 has posted two requests, one of which is
    resolved, task 1 has posted one request and the other tasks wait. *)
Definition example_schedule : list BatchLLM.event :=
  [ BatchLLM.StartBatch; BatchLLM.Acquire 0; BatchLLM.Send 0;
    BatchLLM.Send 0; BatchLLM.Acquire 1; BatchLLM.Send 1;
    BatchLLM.Resolve 0 ].

Definition example_mid_run : BatchLLM.state :=
  match BatchLLM.run BatchLLM.source_params
          (BatchLLM.init BatchLLM.source_params (repeat true 150))
          example_schedule with
  | Some st => st
  | None => BatchLLM.init BatchLLM.source_params (repeat true 150)
  end.

(** * Properties *)

(** ** Comparisons on rationals *)

Lemma Qlt_bool_true (a b : Q) : Float.Qlt_bool a b = true <-> a < b.
Proof.
  unfold Float.Qlt_bool. rewrite negb_true_iff.
  split; intros H.
  - apply Qnot_le_lt. intros Hle. apply Qle_bool_iff in Hle. congruence.
  - destruct (Qle_bool b a) eqn:E; [|reflexivity].
    apply Qle_bool_iff in E. exfalso. apply (Qlt_not_le _ _ H E).
Qed.

Lemma Qlt_bool_false (a b : Q) : Float.Qlt_bool a b = false <-> b <= a.
Proof.
  unfold Float.Qlt_bool. rewrite negb_false_iff. apply Qle_bool_iff.
Qed.

Lemma Qeq_bool_false (a b : Q) : Qeq_bool a b = false <-> ~ a == b.
Proof.
  split; intros H.
  - intros E. apply Qeq_bool_iff in E. congruence.
  - destruct (Qeq_bool a b) eqn:E; [|reflexivity].
    apply Qeq_bool_iff in E. contradiction.
Qed.

(** ** Percentage parsing *)

Lemma float_of_chars_raises (s : list ascii) (e : exn) :
  PyStr.float_of_chars s = Raise e -> e = ValueError.
Proof.
  unfold PyStr.float_of_chars. cbv zeta.
  destruct (PyStr.sign _) as [minus body].
  destruct (_ || _); [discriminate|].
  destruct (PyStr.eqb_chars _ _); [discriminate|].
  destruct (PyStr.number body) as [[[m fd] rest]|]; [|congruence].
  destruct (PyStr.exponent rest) as [[ex [|c r]]|]; congruence.
Qed.

Lemma py_div_100 (f : pyfloat) :
  Float.py_div f (Fin 100) = Ok (Float.div f (Fin 100)).
Proof. reflexivity. Qed.

Lemma parse_percentage_string (s : string) :
  parse_percentage (CStr s) =
    let value_str := PyStr.strip (PyStr.chars s) in
    if PyStr.endswith_percent value_str then
      match PyStr.float_of_chars (PyStr.rstrip_percent value_str) with
      | Ok f => Ok (Float.div f (Fin 100))
      | Raise _ => Ok NaN
      end
    else if is_dash value_str then Ok NaN
    else
      match PyStr.float_of_chars value_str with
      | Ok val => Ok (if Float.gt val (Fin 1) then Float.div val (Fin 100)
                      else val)
      | Raise _ => Ok NaN
      end.
Proof.
  unfold parse_percentage. cbn [pd_isna].
  cbv zeta.
  unfold mbind, pyresult_bind, pybind.
  destruct (PyStr.endswith_percent _).
  - destruct (PyStr.float_of_chars _) as [f|e] eqn:E.
    + reflexivity.
    + apply float_of_chars_raises in E. subst e. reflexivity.
  - destruct (is_dash _); [reflexivity|].
    destruct (PyStr.float_of_chars _) as [f|e] eqn:E.
    + destruct (Float.gt f (Fin 1)); reflexivity.
    + apply float_of_chars_raises in E. subst e. reflexivity.
Qed.






(** ** Vote normalisation *)

(** "every casing of w": the strings that lower-case to [w] *)
Lemma casing_AGREE :
  PyStr.lower_str (PyStr.chars "AGREE") = PyStr.chars "agree".
Proof. reflexivity. Qed.

(** C7, as stated, fails: the upper-case spelling of "agree" is a
    casing of it and is mapped to missing, not to 1. *)
Lemma vote_case_insensitive_counterexample :
  ~ (forall s : string,
       PyStr.lower_str (PyStr.chars s) = PyStr.chars "agree" ->
       map_vote (CStr s) = Some 1).
Proof.
  intros H. specialize (H "AGREE"%string casing_AGREE). discriminate H.
Qed.

(** C7, amended.  While the binary vote table is loaded, exactly
    the spellings "Agree" and "agree" become 1 and exactly "Disagree" and
    "disagree" become 0; every other vote value, other casings included,
    becomes missing. *)
Theorem vote_normalization_exact_spellings (v : cell) :
  (map_vote v = Some 1 <-> v = CStr "Agree" \/ v = CStr "agree") /\
  (map_vote v = Some 0 <-> v = CStr "Disagree" \/ v = CStr "disagree") /\
  (v <> CStr "Agree" -> v <> CStr "agree" ->
   v <> CStr "Disagree" -> v <> CStr "disagree" -> map_vote v = None) /\
  (forall r : raw_binary_row,
     List.map VoteNumeric (load_binary [r]) = [map_vote (raw_Vote r)]).
Proof.
  assert (Hcases : forall s : string,
            (s = "Agree" /\ vote_dict !! s = Some 1)%string \/
            (s = "agree" /\ vote_dict !! s = Some 1)%string \/
            (s = "Disagree" /\ vote_dict !! s = Some 0)%string \/
            (s = "disagree" /\ vote_dict !! s = Some 0)%string \/
            (s <> "Agree" /\ s <> "agree" /\ s <> "Disagree" /\
             s <> "disagree" /\ vote_dict !! s = None)%string).
  { intros s.
    destruct (decide (s = "Agree"%string)) as [->|n1]; [left; done|].
    destruct (decide (s = "agree"%string)) as [->|n2]; [right; left; done|].
    destruct (decide (s = "Disagree"%string)) as [->|n3];
      [right; right; left; done|].
    destruct (decide (s = "disagree"%string)) as [->|n4];
      [right; right; right; left; done|].
    right; right; right; right. repeat split; try assumption.
    unfold vote_dict. simplify_map_eq. reflexivity. }
  split; [|split; [|split]].
  - destruct v as [|b|z|f|s]; cbn; try (split; [discriminate|intros [?|?]; discriminate]).
    destruct (Hcases s) as [[-> E]|[[-> E]|[[-> E]|[[-> E]|(n1 & n2 & n3 & n4 & E)]]]];
      rewrite E; split; try discriminate; try (intros _; auto; fail);
      intros [?|?]; congruence.
  - destruct v as [|b|z|f|s]; cbn; try (split; [discriminate|intros [?|?]; discriminate]).
    destruct (Hcases s) as [[-> E]|[[-> E]|[[-> E]|[[-> E]|(n1 & n2 & n3 & n4 & E)]]]];
      rewrite E; split; try discriminate; try (intros _; auto; fail);
      intros [?|?]; congruence.
  - intros n1 n2 n3 n4. destruct v as [|b|z|f|s]; cbn; try reflexivity.
    destruct (Hcases s) as [[-> E]|[[-> E]|[[-> E]|[[-> E]|(_ & _ & _ & _ & E)]]]];
      congruence.
  - intros r. reflexivity.
Qed.

Lemma vote_normalization_exact_spellings_witness :
  map_vote (CStr "AGREE") = None /\ map_vote (CStr "agree") = Some 1.
Proof.
  destruct (vote_normalization_exact_spellings (CStr "AGREE"))
    as (_ & _ & Hnone & _).
  destruct (vote_normalization_exact_spellings (CStr "agree"))
    as (Hone & _).
  split.
  - apply Hnone; discriminate.
  - apply Hone. right. reflexivity.
Defined.

(** ** Anti-Social Consensus *)

Lemma filter_none {A} (P : A -> Prop) `{forall x, Decision (P x)}
    (l : list A) :
  (forall x, ~ P x) -> filter P l = [].
Proof.
  intros HP. induction l as [|x l IH]; [reflexivity|].
  rewrite filter_cons. destruct (decide (P x)) as [p|_]; [|exact IH].
  destruct (HP x p).
Qed.

(** The vote loop counts, on top of its counters, the valid votes and the
    votes against consensus among them. *)
Lemma asc_fold (cd : consensus_data) (l : list binary_row) (a t : nat) :
  fold_left (asc_vote_step cd) l (a, t) =
    ((a + length (List.filter (spec_against_consensus cd)
                    (filter (fun r => is_Some (VoteNumeric r)) l)))%nat,
     (t + length (filter (fun r => is_Some (VoteNumeric r)) l))%nat).
Proof.
  revert a t. induction l as [|r l IH]; intros a t.
  - cbn. f_equal; lia.
  - cbn [fold_left]. rewrite filter_cons.
    destruct (decide (is_Some (VoteNumeric r))) as [[v Ev]|n].
    + cbn [List.filter length].
      unfold asc_vote_step at 2, spec_against_consensus at 1. rewrite Ev.
      destruct (bool_decide (Thought_ID r ∈ strong_agree_thoughts cd)
                && Qeq_bool v 0) eqn:E1;
        [|destruct (bool_decide (Thought_ID r ∈ strong_disagree_thoughts cd)
                    && Qeq_bool v 1) eqn:E2];
        cbn [orb length]; rewrite IH; f_equal; lia.
    + unfold asc_vote_step at 2.
      destruct (VoteNumeric r) as [v|] eqn:Ev; [exfalso; apply n; eauto|].
      apply IH.
Qed.

(** The claim's valid consensus votes are the rows the code keeps after its
    two filters and its NaN test. *)
Lemma spec_consensus_votes_filters (participant_id : string)
    (binary_df : list binary_row) (cd : consensus_data) :
  spec_consensus_votes participant_id binary_df cd =
    filter (fun r => is_Some (VoteNumeric r))
      (filter (fun r => Thought_ID r ∈
                 strong_agree_thoughts cd ∪ strong_disagree_thoughts cd)
         (filter (fun r => Participant_ID r = participant_id) binary_df)).
Proof.
  unfold spec_consensus_votes. rewrite !list_filter_filter.
  apply list_filter_iff. intros r. unfold spec_valid_consensus_vote. tauto.
Qed.

(** C3.  [calculate_asc_score] is missing exactly when the
    participant cast no valid vote on an item of the consensus sets (in
    particular when the sets are empty); otherwise it is the number of votes
    against consensus divided by the number of valid consensus votes.  The
    participant with two agreeing and one disagreeing vote on
    strong-agreement items scores 1/3. *)
Theorem calculate_asc_score_spec (participant_id : string)
    (binary_df : list binary_row) (cd : consensus_data) :
  (calculate_asc_score participant_id binary_df cd = None <->
   spec_consensus_votes participant_id binary_df cd = []) /\
  (spec_consensus_votes participant_id binary_df cd <> [] ->
   calculate_asc_score participant_id binary_df cd =
     Some (Q_of_nat (length (spec_against_votes participant_id binary_df cd))
           / Q_of_nat
               (length (spec_consensus_votes participant_id binary_df cd)))) /\
  (strong_agree_thoughts cd ∪ strong_disagree_thoughts cd = ∅ ->
   calculate_asc_score participant_id binary_df cd = None) /\
  (exists q, calculate_asc_score "p1" (load_binary example_votes)
               example_consensus = Some q /\ q == 1 # 3).
Proof.
  unfold spec_against_votes.
  rewrite spec_consensus_votes_filters.
  unfold calculate_asc_score.
  set (all := strong_agree_thoughts cd ∪ strong_disagree_thoughts cd).
  set (mine := filter (fun r => Participant_ID r = participant_id) binary_df).
  destruct (decide (all = ∅)) as [Hall|Hall].
  - assert (Hnil : filter (fun r => Thought_ID r ∈ all) mine = []).
    { apply filter_none. intros r. rewrite Hall. apply not_elem_of_empty. }
    rewrite Hnil. cbn.
    split; [tauto|]. split; [congruence|]. split; [reflexivity|].
    eexists; split; [vm_compute; reflexivity | reflexivity].
  - set (cv := filter (fun r => Thought_ID r ∈ all) mine).
    assert (Hex : exists q, calculate_asc_score "p1" (load_binary example_votes)
                    example_consensus = Some q /\ q == 1 # 3)
      by (eexists; split; [vm_compute; reflexivity | reflexivity]).
    destruct cv as [|r cv'] eqn:Ecv.
    + cbn. split; [tauto|]. split; [congruence|]. split; [tauto|exact Hex].
    + rewrite asc_fold. cbn [Nat.add].
      set (valid := filter (fun r => is_Some (VoteNumeric r)) (r :: cv')).
      destruct valid as [|v valid'] eqn:Ev.
      * cbn. split; [tauto|]. split; [congruence|]. split; [tauto|exact Hex].
      * cbn [length Nat.eqb].
        split; [split; discriminate|]. split; [reflexivity|].
        split; [tauto|exact Hex].
Qed.

Lemma calculate_asc_score_spec_witness :
  calculate_asc_score "p1" (load_binary example_votes) example_consensus =
    Some (Q_of_nat 1 / Q_of_nat 3) /\
  calculate_asc_score "p1" (load_binary example_votes)
    {| strong_agree_thoughts := ∅; strong_disagree_thoughts := ∅ |} = None.
Proof.
  split.
  - apply (calculate_asc_score_spec "p1" (load_binary example_votes)
             example_consensus).
    vm_compute. discriminate.
  - apply (calculate_asc_score_spec "p1" (load_binary example_votes)
             {| strong_agree_thoughts := ∅; strong_disagree_thoughts := ∅ |}).
    vm_compute. reflexivity.
Defined.

(** ** Min-max normalisation *)

Lemma map_fmap {A B} (f : A -> B) (l : list A) : List.map f l = f <$> l.
Proof. reflexivity. Qed.

Lemma fold_Qmin_le (l : list Q) (a : Q) :
  fold_left Qmin l a <= a /\ forall x, In x l -> fold_left Qmin l a <= x.
Proof.
  revert a. induction l as [|y l IH]; intros a; cbn.
  - split; [lra | tauto].
  - destruct (IH (Qmin a y)) as [H1 H2]. split.
    + pose proof (Q.le_min_l a y). lra.
    + intros x [->|Hx]; [|auto].
      pose proof (Q.le_min_r a x). lra.
Qed.

Lemma fold_Qmin_in (l : list Q) (a : Q) :
  exists x, In x (a :: l) /\ fold_left Qmin l a == x.
Proof.
  revert a. induction l as [|y l IH]; intros a; cbn.
  - exists a. split; [auto | reflexivity].
  - destruct (IH (Qmin a y)) as (x & [<-|Hx] & E).
    + destruct (Q.min_spec a y) as [[_ E']|[_ E']].
      * exists a. split; [auto|]. rewrite E. exact E'.
      * exists y. split; [auto|]. rewrite E. exact E'.
    + exists x. auto.
Qed.

Lemma fold_Qmax_ge (l : list Q) (a : Q) :
  a <= fold_left Qmax l a /\ forall x, In x l -> x <= fold_left Qmax l a.
Proof.
  revert a. induction l as [|y l IH]; intros a; cbn.
  - split; [lra | tauto].
  - destruct (IH (Qmax a y)) as [H1 H2]. split.
    + pose proof (Q.le_max_l a y). lra.
    + intros x [->|Hx]; [|auto].
      pose proof (Q.le_max_r a x). lra.
Qed.

Lemma fold_Qmax_in (l : list Q) (a : Q) :
  exists x, In x (a :: l) /\ fold_left Qmax l a == x.
Proof.
  revert a. induction l as [|y l IH]; intros a; cbn.
  - exists a. split; [auto | reflexivity].
  - destruct (IH (Qmax a y)) as (x & [<-|Hx] & E).
    + destruct (Q.max_spec a y) as [[_ E']|[_ E']].
      * exists y. split; [auto|]. rewrite E. exact E'.
      * exists a. split; [auto|]. rewrite E. exact E'.
    + exists x. auto.
Qed.

Lemma Qmin_list_le (l : list Q) (x : Q) : In x l -> Series.Qmin_list l <= x.
Proof.
  destruct l as [|a l]; [intros []|]. cbn [Series.Qmin_list].
  destruct (fold_Qmin_le l a) as [H1 H2]. intros [<-|Hx]; auto.
Qed.

Lemma Qmin_list_in (l : list Q) :
  l <> [] -> exists x, In x l /\ Series.Qmin_list l == x.
Proof.
  destruct l as [|a l]; [congruence|]. intros _. apply fold_Qmin_in.
Qed.

Lemma Qmax_list_ge (l : list Q) (x : Q) : In x l -> x <= Series.Qmax_list l.
Proof.
  destruct l as [|a l]; [intros []|]. cbn [Series.Qmax_list].
  destruct (fold_Qmax_ge l a) as [H1 H2]. intros [<-|Hx]; auto.
Qed.

Lemma Qmax_list_in (l : list Q) :
  l <> [] -> exists x, In x l /\ Series.Qmax_list l == x.
Proof.
  destruct l as [|a l]; [congruence|]. intros _. apply fold_Qmax_in.
Qed.

Lemma In_insert_sorted (x y : Q) (l : list Q) :
  In x (Series.insert_sorted y l) -> x = y \/ In x l.
Proof.
  induction l as [|z l IH]; cbn.
  - intros [->|[]]. now left.
  - destruct (Qle_bool y z); cbn.
    + intros [->|H]; [now left | now right].
    + intros [->|H]; [right; now left|].
      destruct (IH H); [now left | right; now right].
Qed.

Lemma In_sort (x : Q) (l : list Q) : In x (Series.sort l) -> In x l.
Proof.
  induction l as [|y l IH]; cbn; [tauto|].
  intros H. apply In_insert_sorted in H. destruct H; [auto|auto].
Qed.

Lemma length_insert_sorted (y : Q) (l : list Q) :
  length (Series.insert_sorted y l) = S (length l).
Proof.
  induction l as [|z l IH]; cbn; [reflexivity|].
  destruct (Qle_bool y z); cbn; [reflexivity|]. now rewrite IH.
Qed.

Lemma length_sort (l : list Q) : length (Series.sort l) = length l.
Proof.
  induction l as [|y l IH]; [reflexivity|].
  change (Series.sort (y :: l)) with (Series.insert_sorted y (Series.sort l)).
  now rewrite length_insert_sorted, IH.
Qed.

Lemma median_sorted_between (s : list Q) (lo hi : Q) :
  s <> [] -> (forall x, In x s -> lo <= x <= hi) ->
  lo <= Series.median_sorted s <= hi.
Proof.
  intros Hne Hall. unfold Series.median_sorted.
  assert (Hlen : (0 < length s)%nat) by (destruct s; [congruence|cbn; lia]).
  assert (Hhalf : (length s / 2 < length s)%nat)
    by (apply Nat.div_lt; lia).
  destruct (Nat.odd (length s)).
  - apply Hall. apply nth_In. exact Hhalf.
  - assert (H1 : lo <= nth (length s / 2 - 1) s 0 <= hi)
      by (apply Hall, nth_In; lia).
    assert (H2 : lo <= nth (length s / 2) s 0 <= hi)
      by (apply Hall, nth_In; lia).
    split.
    + apply Qle_shift_div_l; [reflexivity|]. lra.
    + apply Qle_shift_div_r; [reflexivity|]. lra.
Qed.

Lemma dropna_nonempty (series : Series.t) :
  Series.isna_all series = false -> Series.dropna series <> [].
Proof.
  induction series as [|[v|] series IH]; cbn; [discriminate|discriminate|].
  exact IH.
Qed.

Lemma In_dropna (v : Q) (series : Series.t) :
  In v (Series.dropna series) <-> In (Some v) series.
Proof.
  induction series as [|[w|] series IH]; cbn; [tauto| |].
  - rewrite IH. split; intros [H|H]; auto; left; congruence.
  - rewrite IH. split; [auto|]. intros [H|H]; [discriminate|auto].
Qed.

Lemma In_fillna (m x : Q) (series : Series.t) :
  In x (Series.fillna m series) -> In x (Series.dropna series) \/ x = m.
Proof.
  induction series as [|[w|] series IH]; cbn; [tauto| |].
  - intros [H|H]; [left; now left|]. destruct (IH H); [left; now right|now right].
  - intros [H|H]; [now right|auto].
Qed.

Lemma In_dropna_fillna (m x : Q) (series : Series.t) :
  In x (Series.dropna series) -> In x (Series.fillna m series).
Proof.
  induction series as [|[w|] series IH]; cbn; [tauto| |].
  - intros [H|H]; [now left|right; auto].
  - intros H. right; auto.
Qed.

Lemma median_between (series : Series.t) :
  Series.isna_all series = false ->
  population_min series <= Series.median series <= population_max series.
Proof.
  intros Hna. unfold Series.median.
  apply median_sorted_between.
  - intros E. apply (dropna_nonempty series Hna).
    apply length_zero_iff_nil. rewrite <- length_sort, E. reflexivity.
  - intros x Hx. apply In_sort in Hx. split.
    + now apply Qmin_list_le.
    + now apply Qmax_list_ge.
Qed.

Lemma filled_min (series : Series.t) :
  Series.isna_all series = false ->
  Series.Qmin_list (Series.fillna (Series.median series) series)
    == population_min series.
Proof.
  intros Hna. pose proof (median_between series Hna) as Hmed.
  pose proof (dropna_nonempty series Hna) as Hne.
  set (filled := Series.fillna (Series.median series) series).
  assert (Hfne : filled <> []).
  { destruct (Series.dropna series) as [|x l] eqn:E; [congruence|].
    assert (Hx : In x filled) by (apply In_dropna_fillna; rewrite E; now left).
    intros E'. rewrite E' in Hx. destruct Hx. }
  destruct (Qmin_list_in filled Hfne) as (x & Hx & Ex).
  destruct (Qmin_list_in _ Hne) as (y & Hy & Ey).
  apply Qle_antisym.
  - unfold population_min. rewrite Ey.
    apply Qmin_list_le. now apply In_dropna_fillna.
  - rewrite Ex. apply In_fillna in Hx. destruct Hx as [Hx| ->].
    + now apply Qmin_list_le.
    + apply Hmed.
Qed.

Lemma filled_max (series : Series.t) :
  Series.isna_all series = false ->
  Series.Qmax_list (Series.fillna (Series.median series) series)
    == population_max series.
Proof.
  intros Hna. pose proof (median_between series Hna) as Hmed.
  pose proof (dropna_nonempty series Hna) as Hne.
  set (filled := Series.fillna (Series.median series) series).
  assert (Hfne : filled <> []).
  { destruct (Series.dropna series) as [|x l] eqn:E; [congruence|].
    assert (Hx : In x filled) by (apply In_dropna_fillna; rewrite E; now left).
    intros E'. rewrite E' in Hx. destruct Hx. }
  destruct (Qmax_list_in filled Hfne) as (x & Hx & Ex).
  destruct (Qmax_list_in _ Hne) as (y & Hy & Ey).
  apply Qle_antisym.
  - rewrite Ex. apply In_fillna in Hx. destruct Hx as [Hx| ->].
    + now apply Qmax_list_ge.
    + apply Hmed.
  - unfold population_max. rewrite Ey.
    apply Qmax_list_ge. now apply In_dropna_fillna.
Qed.

Lemma assign_where_map {A} (m : A -> bool) (g : A -> pyfloat) (v : pyfloat)
    (l : list A) :
  Series.assign_where (List.map m l) v (List.map g l) =
    List.map (fun x => if m x then v else g x) l.
Proof.
  unfold Series.assign_where.
  induction l as [|x l IH]; cbn; [reflexivity|]. now rewrite IH.
Qed.

Lemma min_max_normalize_cells (series : Series.t) (invert : bool)
    (reasonable_max : option Q) :
  Series.isna_all series = false ->
  min_max_normalize series invert reasonable_max =
    List.map
      (normalize_cell
         (Series.Qmin_list (Series.fillna (Series.median series) series))
         (Series.Qmax_list (Series.fillna (Series.median series) series))
         invert reasonable_max)
      series.
Proof.
  intros Hna. unfold min_max_normalize. rewrite Hna. cbv zeta.
  set (med := Series.median series).
  set (mn := Series.Qmin_list _). set (mx := Series.Qmax_list _).
  unfold Series.fillna.
  assert (Hcore :
    (if Qeq_bool mn mx then List.map (fun _ => Fin 0.5) series
     else match reasonable_max with
          | Some rmax =>
              if Float.Qlt_bool rmax mx
              then Series.assign_where
                     (List.map (fun v => Float.Qlt_bool rmax v)
                        (List.map (fun c => match c with Some q => q | None => med end) series))
                     (Fin 1)
                     (List.map (fun v => Float.div (Fin (v - mn)) (Fin (rmax - mn)))
                        (List.map (fun c => match c with Some q => q | None => med end) series))
              else List.map (fun v => Float.div (Fin (v - mn)) (Fin (mx - mn)))
                     (List.map (fun c => match c with Some q => q | None => med end) series)
          | None => List.map (fun v => Float.div (Fin (v - mn)) (Fin (mx - mn)))
                     (List.map (fun c => match c with Some q => q | None => med end) series)
          end) =
    List.map (fun c =>
      let v := match c with Some q => q | None => med end in
      if Qeq_bool mn mx then Fin 0.5
      else match reasonable_max with
           | Some rmax =>
               if Float.Qlt_bool rmax mx then
                 if Float.Qlt_bool rmax v then Fin 1
                 else Float.div (Fin (v - mn)) (Fin (rmax - mn))
               else Float.div (Fin (v - mn)) (Fin (mx - mn))
           | None => Float.div (Fin (v - mn)) (Fin (mx - mn))
           end) series).
  { destruct (Qeq_bool mn mx); [reflexivity|].
    destruct reasonable_max as [rmax|].
    - destruct (Float.Qlt_bool rmax mx).
      + rewrite assign_where_map, List.map_map. reflexivity.
      + rewrite List.map_map. reflexivity.
    - rewrite List.map_map. reflexivity. }
  rewrite Hcore. clear Hcore.
  destruct invert.
  - rewrite List.map_map, assign_where_map.
    apply List.map_ext. intros [v|]; reflexivity.
  - rewrite assign_where_map.
    apply List.map_ext. intros [v|]; reflexivity.
Qed.

Lemma min_max_normalize_lookup (series : Series.t) (invert : bool)
    (reasonable_max : option Q) (i : nat) (c : option Q) :
  Series.isna_all series = false ->
  series !! i = Some c ->
  min_max_normalize series invert reasonable_max !! i =
    Some (normalize_cell
            (Series.Qmin_list (Series.fillna (Series.median series) series))
            (Series.Qmax_list (Series.fillna (Series.median series) series))
            invert reasonable_max c).
Proof.
  intros Hna Hi. rewrite min_max_normalize_cells by exact Hna.
  rewrite map_fmap, list_lookup_fmap, Hi. reflexivity.
Qed.

Lemma div_Fin (a b : Q) : ~ b == 0 -> Float.div (Fin a) (Fin b) = Fin (a / b).
Proof.
  intros Hb. cbn. apply Qeq_bool_false in Hb. rewrite Hb. reflexivity.
Qed.

Section MinMaxNormalize.

Variable series : Series.t.
Hypothesis not_all_missing : Series.isna_all series = false.
Hypothesis not_all_equal : ~ population_min series == population_max series.

Let fmin := Series.Qmin_list (Series.fillna (Series.median series) series).
Let fmax := Series.Qmax_list (Series.fillna (Series.median series) series).

Lemma fmin_eq : fmin == population_min series.
Proof. apply filled_min, not_all_missing. Qed.

Lemma fmax_eq : fmax == population_max series.
Proof. apply filled_max, not_all_missing. Qed.

Lemma frange_nonzero : Qeq_bool fmin fmax = false.
Proof.
  apply Qeq_bool_false. rewrite fmin_eq, fmax_eq. exact not_all_equal.
Qed.

Lemma present_ge_min (i : nat) (v : Q) :
  series !! i = Some (Some v) -> population_min series <= v.
Proof.
  intros Hi. apply Qmin_list_le, In_dropna.
  apply list_elem_of_In. eapply list_elem_of_lookup_2; eauto.
Qed.

Lemma present_le_max (i : nat) (v : Q) :
  series !! i = Some (Some v) -> v <= population_max series.
Proof.
  intros Hi. apply Qmax_list_ge, In_dropna.
  apply list_elem_of_In. eapply list_elem_of_lookup_2; eauto.
Qed.

Lemma normalize_above_cap (cap v : Q) (i : nat) :
  series !! i = Some (Some v) ->
  cap < population_max series -> cap < v ->
  min_max_normalize series false (Some cap) !! i = Some (Fin 1).
Proof.
  intros Hi Hmax Hv.
  rewrite (min_max_normalize_lookup _ _ _ _ _ not_all_missing Hi).
  unfold normalize_cell. fold fmin fmax. rewrite frange_nonzero.
  rewrite <- fmax_eq in Hmax.
  apply Qlt_bool_true in Hmax, Hv. rewrite Hmax, Hv. reflexivity.
Qed.

Lemma normalize_below_cap (cap v : Q) (i : nat) :
  series !! i = Some (Some v) ->
  cap < population_max series -> v <= cap -> population_min series < cap ->
  exists x, min_max_normalize series false (Some cap) !! i = Some x /\
            x =f= Fin ((v - population_min series)
                       / (cap - population_min series)).
Proof.
  intros Hi Hmax Hv Hmin.
  rewrite (min_max_normalize_lookup _ _ _ _ _ not_all_missing Hi).
  unfold normalize_cell. fold fmin fmax. rewrite frange_nonzero.
  rewrite <- fmax_eq in Hmax. rewrite <- fmin_eq in Hmin.
  apply Qlt_bool_true in Hmax. apply Qlt_bool_false in Hv.
  rewrite Hmax, Hv.
  rewrite div_Fin by lra.
  eexists; split; [reflexivity|]. cbn. rewrite fmin_eq. reflexivity.
Qed.

Lemma normalize_linear (cap : option Q) (invert : bool) (v : Q) (i : nat) :
  series !! i = Some (Some v) ->
  match cap with Some c => population_max series <= c | None => True end ->
  exists x, min_max_normalize series invert cap !! i = Some x /\
            x =f= Fin (let y := (v - population_min series)
                                / (population_max series
                                   - population_min series) in
                       if invert then 1 - y else y).
Proof.
  intros Hi Hcap.
  rewrite (min_max_normalize_lookup _ _ _ _ _ not_all_missing Hi).
  unfold normalize_cell. fold fmin fmax. rewrite frange_nonzero.
  assert (Hne : ~ fmax - fmin == 0).
  { pose proof frange_nonzero as H. apply Qeq_bool_false in H.
    intros E. apply H. lra. }
  assert (Hdiv : (v - fmin) / (fmax - fmin) ==
                 (v - population_min series)
                 / (population_max series - population_min series))
    by (rewrite fmin_eq, fmax_eq; reflexivity).
  assert (Hcell :
    match cap with
    | Some rmax =>
        if Float.Qlt_bool rmax fmax
        then if Float.Qlt_bool rmax v then Fin 1
             else Float.div (Fin (v - fmin)) (Fin (rmax - fmin))
        else Float.div (Fin (v - fmin)) (Fin (fmax - fmin))
    | None => Float.div (Fin (v - fmin)) (Fin (fmax - fmin))
    end = Fin ((v - fmin) / (fmax - fmin))).
  { destruct cap as [c|]; [|now apply div_Fin].
    rewrite <- fmax_eq in Hcap. apply Qlt_bool_false in Hcap.
    rewrite Hcap. now apply div_Fin. }
  rewrite Hcell. eexists; split; [reflexivity|].
  destruct invert; cbn; rewrite Hdiv; lra.
Qed.

End MinMaxNormalize.

(** Values at or below the cap are not always scaled between the minimum
    and the cap: with the default cap of 5400 s and the durations 60 s and
    600 s, the value 600 lies below the cap and is normalised to 1, not to
    (600 - 60) / (5400 - 60). *)
Lemma capped_normalization_counterexample :
  ~ (forall (series : Series.t) (cap v : Q) (i : nat),
       Series.isna_all series = false ->
       ~ population_min series == population_max series ->
       series !! i = Some (Some v) ->
       v <= cap ->
       exists x,
         min_max_normalize series false (Some cap) !! i = Some x /\
         x =f= Fin ((v - population_min series)
                    / (cap - population_min series))).
Proof.
  intros H.
  destruct (H [Some 60; Some 600] (DURATION_REASONABLE_MAX get_config)
              600 1%nat) as (x & Hx & E).
  - reflexivity.
  - intros E. vm_compute in E. discriminate E.
  - reflexivity.
  - intros E. vm_compute in E. discriminate E.
  - vm_compute in Hx. injection Hx as <-. vm_compute in E. discriminate E.
Qed.

(** What the code computes.  For a population of raw values that is not
    entirely missing and not all equal, and a signal normalised with a cap
    (Duration): when the population maximum exceeds the cap, every raw value
    strictly above the cap normalises to exactly 1, and, the population
    minimum lying below the cap, every raw value at or below the cap
    normalises to (value - min) / (cap - min); when the population maximum
    does not exceed the cap, and for signals without a cap, a raw value
    normalises to (value - min) / (max - min), or to one minus that for an
    inverted signal. *)
Theorem min_max_normalize_capped_linear
    (series : Series.t) (cap v : Q) (i : nat) :
  Series.isna_all series = false ->
  ~ population_min series == population_max series ->
  series !! i = Some (Some v) ->
  (cap < population_max series -> cap < v ->
   min_max_normalize series false (Some cap) !! i = Some (Fin 1)) /\
  (cap < population_max series -> v <= cap ->
   population_min series < cap ->
   exists x,
     min_max_normalize series false (Some cap) !! i = Some x /\
     x =f= Fin ((v - population_min series)
                / (cap - population_min series))) /\
  (population_max series <= cap ->
   exists x,
     min_max_normalize series false (Some cap) !! i = Some x /\
     x =f= Fin ((v - population_min series)
                / (population_max series - population_min series))) /\
  (forall invert : bool,
   exists x,
     min_max_normalize series invert None !! i = Some x /\
     x =f= Fin (let y := (v - population_min series)
                         / (population_max series - population_min series) in
                if invert then 1 - y else y)).
Proof.
  intros Hna Hne Hi. repeat apply conj.
  - intros Hmax Hv. exact (normalize_above_cap series Hna Hne cap v i Hi Hmax Hv).
  - intros Hmax Hv Hmin.
    exact (normalize_below_cap series Hna Hne cap v i Hi Hmax Hv Hmin).
  - intros Hmax.
    exact (normalize_linear series Hna Hne (Some cap) false v i Hi Hmax).
  - intros invert.
    exact (normalize_linear series Hna Hne None invert v i Hi I).
Qed.

Lemma min_max_normalize_capped_linear_witness :
  min_max_normalize [Some 60; Some 600; None; Some 6000] false (Some 5400)
    !! 3%nat = Some (Fin 1) /\
  (exists x,
     min_max_normalize [Some 60; Some 600; None; Some 6000] false (Some 5400)
       !! 1%nat = Some x /\
     x =f= Fin ((600 - 60) / (5400 - 60))) /\
  (exists x,
     min_max_normalize [Some 60; Some 600] false (Some 5400) !! 1%nat
       = Some x /\
     x =f= Fin ((600 - 60) / (600 - 60))).
Proof.
  repeat apply conj.
  - apply (min_max_normalize_capped_linear
             [Some 60; Some 600; None; Some 6000] 5400 6000 3%nat);
      try reflexivity; intros E; vm_compute in E; discriminate E.
  - apply (min_max_normalize_capped_linear
             [Some 60; Some 600; None; Some 6000] 5400 600 1%nat);
      try reflexivity; intros E; vm_compute in E; discriminate E.
  - apply (min_max_normalize_capped_linear
             [Some 60; Some 600] 5400 600 1%nat);
      try reflexivity; intros E; vm_compute in E; discriminate E.
Defined.

(** C5.  The cap of min_max_normalize is not applied when no value of the
    population exceeds it, although the function's docstring promises that
    values below the cap are scaled between the minimum and the cap: with
    the default cap of 5400 s and the durations 60 s and 600 s, the value
    600 lies below the cap and is normalised to 1, not to
    (600 - 60) / (5400 - 60); in general, when the population maximum lies
    below the cap, the participant with the maximal value is normalised to
    1, which differs from (value - min) / (cap - min). *)
Theorem min_max_normalize_cap_not_applied :
  DURATION_REASONABLE_MAX get_config == 5400 /\
  (exists x0 x1,
     min_max_normalize [Some 60; Some 600] false
       (Some (DURATION_REASONABLE_MAX get_config)) = [x0; x1] /\
     x0 =f= Fin 0 /\ x1 =f= Fin 1 /\
     ~ x1 =f= Fin ((600 - 60) / (5400 - 60))) /\
  (forall (series : Series.t) (cap v : Q) (i : nat),
     Series.isna_all series = false ->
     ~ population_min series == population_max series ->
     series !! i = Some (Some v) ->
     v == population_max series ->
     population_max series < cap ->
     exists x,
       min_max_normalize series false (Some cap) !! i = Some x /\
       x =f= Fin 1 /\
       ~ x =f= Fin ((v - population_min series)
                    / (cap - population_min series))) /\
  ~ (forall (series : Series.t) (cap v : Q) (i : nat),
       Series.isna_all series = false ->
       ~ population_min series == population_max series ->
       series !! i = Some (Some v) ->
       v <= cap ->
       exists x,
         min_max_normalize series false (Some cap) !! i = Some x /\
         x =f= Fin ((v - population_min series)
                    / (cap - population_min series))).
Proof.
  split; [reflexivity|]. split.
  { eexists _, _. split; [vm_compute; reflexivity|].
    split; [reflexivity|]. split; [reflexivity|].
    intros E; vm_compute in E; discriminate E. }
  split.
  - intros series cap v i Hna Hne Hi Hv Hcap.
    destruct (normalize_linear series Hna Hne (Some cap) false v i Hi)
      as (x & Hx & E); [cbn; lra|].
    exists x. split; [exact Hx|].
    destruct x as [q| | |]; cbn in E |- *; try contradiction.
    assert (E1 : q == 1).
    { rewrite E, Hv. cbv zeta. field. intros Z. apply Hne. lra. }
    split; [exact E1|].
    intros E2. rewrite E1 in E2.
    destruct (Qeq_dec (cap - population_min series) 0) as [Z|NZ].
    + rewrite Z in E2. unfold Qdiv in E2.
      change (/ 0) with 0 in E2. lra.
    + assert (E3 : v - population_min series
                   == 1 * (cap - population_min series)).
      { rewrite E2. field. exact NZ. }
      lra.
  - intros H.
    destruct (H [Some 60; Some 600] (DURATION_REASONABLE_MAX get_config)
                600 1%nat) as (x & Hx & E).
    + reflexivity.
    + intros E. vm_compute in E. discriminate E.
    + reflexivity.
    + intros E. vm_compute in E. discriminate E.
    + vm_compute in Hx. injection Hx as <-. vm_compute in E. discriminate E.
Qed.


(** A missing raw value is missing again after normalisation. *)
Lemma min_max_normalize_missing (series : Series.t) (invert : bool)
    (reasonable_max : option Q) (i : nat) :
  series !! i = Some None ->
  min_max_normalize series invert reasonable_max !! i = Some NaN.
Proof.
  intros Hi. destruct (Series.isna_all series) eqn:Hna.
  - unfold min_max_normalize. rewrite Hna.
    rewrite map_fmap, list_lookup_fmap, Hi. reflexivity.
  - rewrite (min_max_normalize_lookup _ _ _ _ _ Hna Hi). reflexivity.
Qed.

(** The range is the range of the values present: filling the holes with
    the median moves neither the minimum nor the maximum. *)
Lemma min_max_normalize_range (series : Series.t) :
  Series.isna_all series = false ->
  let filled_series := Series.fillna (Series.median series) series in
  Series.Qmin_list filled_series == population_min series /\
  Series.Qmax_list filled_series == population_max series /\
  population_min series <= Series.median series <= population_max series.
Proof.
  intros Hna. cbv zeta. split; [|split].
  - now apply filled_min.
  - now apply filled_max.
  - now apply median_between.
Qed.

(** A raw value that is present is normalised to a number, unless the cap
    applies and coincides with the population minimum. *)
Lemma min_max_normalize_present (series : Series.t) (invert : bool)
    (reasonable_max : option Q) (i : nat) (v : Q) :
  Series.isna_all series = false ->
  series !! i = Some (Some v) ->
  match reasonable_max with
  | Some rmax =>
      rmax < population_max series -> ~ rmax == population_min series
  | None => True
  end ->
  exists q, min_max_normalize series invert reasonable_max !! i
            = Some (Fin q).
Proof.
  intros Hna Hi Hcap.
  rewrite (min_max_normalize_lookup _ _ _ _ _ Hna Hi).
  unfold normalize_cell.
  set (fmin := Series.Qmin_list _). set (fmax := Series.Qmax_list _).
  assert (Emin : fmin == population_min series) by now apply filled_min.
  assert (Emax : fmax == population_max series) by now apply filled_max.
  assert (Hfin : forall x : pyfloat,
            (exists q, x = Fin q) ->
            exists q, Some (if invert then Float.sub (Fin 1) x else x)
                      = Some (Fin q)).
  { intros x [q ->]. destruct invert; eexists; reflexivity. }
  apply Hfin.
  destruct (Qeq_bool fmin fmax) eqn:Erange; [eexists; reflexivity|].
  apply Qeq_bool_false in Erange.
  assert (Hlin : exists q,
            Float.div (Fin (v - fmin)) (Fin (fmax - fmin)) = Fin q).
  { eexists. apply div_Fin. intros E. apply Erange. lra. }
  destruct reasonable_max as [rmax|]; [|exact Hlin].
  destruct (Float.Qlt_bool rmax fmax) eqn:Ecap; [|exact Hlin].
  destruct (Float.Qlt_bool rmax v); [eexists; reflexivity|].
  eexists. apply div_Fin.
  apply Qlt_bool_true in Ecap. rewrite Emax in Ecap.
  specialize (Hcap Ecap). rewrite Emin. intros E. apply Hcap. lra.
Qed.

(** C6: the code at the failing input.  Two participants with
    durations of 5400 s and 6000 s and the default cap of 5400 s: the raw
    value of the first participant is present, the series is not entirely
    missing, and yet the normalised value is NaN, because the capped branch
    divides [5400 - 5400] by [cap - min = 0].  The second participant, above
    the cap, gets 1. *)
Theorem min_max_normalize_present_value_lost :
  let series := [Some 5400; Some 6000] in
  let cap := DURATION_REASONABLE_MAX get_config in
  Series.isna_all series = false /\
  series !! 0%nat = Some (Some 5400) /\
  min_max_normalize series false (Some cap) !! 0%nat = Some NaN /\
  min_max_normalize series false (Some cap) !! 1%nat = Some (Fin 1).
Proof.
  cbv zeta. repeat apply conj; reflexivity.
Qed.

(** ** Score fusion *)

Lemma Qdiv_3 (a : Q) : a / 3 == a * (1 # 3).
Proof. reflexivity. Qed.
Lemma Qdiv_4 (a : Q) : a / 4 == a * (1 # 4).
Proof. reflexivity. Qed.

Lemma scaled_unit (q w : Q) : 0 <= q <= 1 -> 0 <= w -> 0 <= q * w <= w.
Proof. intros [H0 H1] Hw. split; nra. Qed.

Lemma col_scale_lookup (c : list pyfloat) (w : Q) (i : nat) (x : pyfloat) :
  c !! i = Some x -> col_scale c w !! i = Some (Float.mul x (Fin w)).
Proof.
  intros Hi. unfold col_scale. rewrite map_fmap, list_lookup_fmap, Hi.
  reflexivity.
Qed.

Lemma col_add_lookup (a b : list pyfloat) (i : nat) (x y : pyfloat) :
  a !! i = Some x -> b !! i = Some y ->
  col_add a b !! i = Some (Float.add x y).
Proof.
  intros Ha Hb. unfold col_add. rewrite lookup_zip_with, Ha, Hb. reflexivity.
Qed.

(** a weighted term of the fusion *)
Lemma term_unit (c : list pyfloat) (w : Q) (i : nat) :
  unit_at c i -> 0 <= w ->
  exists q, col_scale c w !! i = Some (Fin q) /\ 0 <= q <= w.
Proof.
  intros (x & Hx & q & -> & Hq) Hw. exists (q * w). split.
  - rewrite (col_scale_lookup _ _ _ _ Hx). reflexivity.
  - now apply scaled_unit.
Qed.

Lemma sum_terms (a b : list pyfloat) (i : nat) (wa wb : Q) :
  (exists q, a !! i = Some (Fin q) /\ 0 <= q <= wa) ->
  (exists q, b !! i = Some (Fin q) /\ 0 <= q <= wb) ->
  exists q, col_add a b !! i = Some (Fin q) /\ 0 <= q <= wa + wb.
Proof.
  intros (qa & Ha & Hqa) (qb & Hb & Hqb). exists (qa + qb). split.
  - rewrite (col_add_lookup _ _ _ _ _ Ha Hb). reflexivity.
  - lra.
Qed.

Lemma bound_unit (c : list pyfloat) (i : nat) (w : Q) :
  (exists q, c !! i = Some (Fin q) /\ 0 <= q <= w) -> w == 1 -> unit_at c i.
Proof.
  intros (q & Hq & Hb) Hw. exists (Fin q). split; [exact Hq|].
  exists q. split; [reflexivity|]. lra.
Qed.

(** C1.  With non-negative weights that sum to 1 in each weight set,
    a participant row whose normalised signals contributing to the fusion
    (ASC only when it is available, the judge only when it is available) lie
    in [0, 1] has its PRI_Score in [0, 1]; so have the heuristic score and
    the enhanced score when it exists, with or without the redistribution of
    the ASC weight, the active weights being non-negative and summing
    to 1. *)
Theorem pri_score_in_unit_interval (cfg : config) (df : signals_df) (i : nat) :
  weights_ok cfg ->
  let out := normalize_and_calculate_pri df cfg in
  unit_at (Duration_Norm out) i ->
  unit_at (LowQualityTag_Norm out) i ->
  unit_at (UniversalDisagreement_Norm out) i ->
  (asc_available df = true -> unit_at (column (ASC_Norm out)) i) ->
  (llm_judge_available df = true ->
   unit_at (column (LLM_Judge_Norm out)) i) ->
  unit_at (PRI_Score out) i /\
  unit_at (PRI_Score_Heuristic out) i /\
  (forall enhanced,
     PRI_Score_Enhanced out = Some enhanced -> unit_at enhanced i) /\
  weight_sum (active_weights cfg df) == 1 /\
  Forall (fun kw => 0 <= snd kw) (active_weights cfg df).
Proof.
  intros (Hd & Hl & Hu & Ha & Hsum & Hd' & Hl' & Hu' & Ha' & Hj' & Hsum').
  cbv zeta. unfold normalize_and_calculate_pri, active_weights.
  cbn [Duration_Norm LowQualityTag_Norm UniversalDisagreement_Norm ASC_Norm
       LLM_Judge_Norm PRI_Score PRI_Score_Heuristic PRI_Score_Enhanced].
  set (DN := min_max_normalize (Duration_seconds df) _ _).
  set (LN := min_max_normalize (LowQualityTag_Perc df) _ _).
  set (UN := min_max_normalize (UniversalDisagreement_Perc df) _ _).
  intros HD HL HU HA HJ.
  pose proof (Qdiv_3 (ASC_WEIGHT cfg)) as E3.
  pose proof (Qdiv_4 (ASC_WEIGHT_LLM cfg)) as E4.
  destruct (asc_available df) eqn:Easc;
    destruct (llm_judge_available df) eqn:Ellm;
    try specialize (HA eq_refl); try specialize (HJ eq_refl);
    cbn [weight weight_sum heuristic_weights enhanced_weights String.eqb
         Ascii.eqb Bool.eqb fold_right snd fst];
    (split; [|split; [|split; [|split]]]);
    try (intros enhanced [= <-]); try discriminate;
    try (eapply bound_unit;
         [ repeat apply sum_terms; apply term_unit; try assumption; lra
         | lra ]);
    try lra;
    repeat constructor; cbn [snd]; lra.
Qed.

Lemma weights_ok_get_config : weights_ok get_config.
Proof.
  unfold weights_ok.
  repeat apply conj; try reflexivity; apply Qle_bool_iff; reflexivity.
Qed.

Lemma pri_score_in_unit_interval_witness :
  unit_at (PRI_Score (normalize_and_calculate_pri example_signals get_config))
          1 /\
  unit_at (PRI_Score
             (normalize_and_calculate_pri example_signals_no_asc get_config))
          1.
Proof.
  split.
  - refine (proj1 (pri_score_in_unit_interval get_config example_signals 1
                     weights_ok_get_config _ _ _ _ _));
      try intros _;
      (eexists; split; [vm_compute; reflexivity|];
       eexists; split; [reflexivity|];
       split; apply Qle_bool_iff; reflexivity).
  - refine (proj1 (pri_score_in_unit_interval get_config
                     example_signals_no_asc 1 weights_ok_get_config
                     _ _ _ _ _));
      try (intros E; vm_compute in E; discriminate E);
      (eexists; split; [vm_compute; reflexivity|];
       eexists; split; [reflexivity|];
       split; apply Qle_bool_iff; reflexivity).
Defined.


(** ** Unreliable participants *)


Lemma quantile_quartiles (valid_scores : list pyfloat) :
  (exists q1, Scores.quantile valid_scores 0.25 = Ok q1) /\
  (exists q3, Scores.quantile valid_scores 0.75 = Ok q3).
Proof. split; eexists; reflexivity. Qed.


Lemma select_none (scale : list pyfloat) (ids : list string) :
  Scores.select (List.map (fun _ => false) scale) ids = [].
Proof.
  revert ids. induction scale as [|x scale IH]; intros [|p ids]; cbn; auto.
Qed.


(** ** The per-participant signal loop *)

Lemma unique_filter (seen : gset string) (l : list string) :
  unique seen l = filter (fun y => y ∉ seen) (spec_first_appearances l).
Proof.
  revert seen. induction l as [|x l IH]; intros seen; [reflexivity|].
  cbn [unique spec_first_appearances]. rewrite filter_cons.
  destruct (decide (x ∈ seen)) as [Hx|Hx].
  - destruct (decide (x ∉ seen)) as [n|_]; [contradiction|].
    rewrite IH, list_filter_filter. apply list_filter_iff.
    intros y. split; [|tauto]. intros Hy. split; [exact Hy|congruence].
  - destruct (decide (x ∉ seen)) as [_|n]; [|contradiction].
    f_equal. rewrite IH, list_filter_filter. apply list_filter_iff.
    intros y. rewrite not_elem_of_union, not_elem_of_singleton. tauto.
Qed.

Lemma all_participant_ids_first_appearances (binary_df : list binary_row) :
  all_participant_ids binary_df =
    spec_first_appearances (List.map Participant_ID binary_df).
Proof.
  unfold all_participant_ids. rewrite unique_filter.
  induction (spec_first_appearances _) as [|x l IH]; [reflexivity|].
  rewrite filter_cons. destruct (decide (x ∉ ∅)) as [_|n].
  - now rewrite IH.
  - exfalso. apply n. apply not_elem_of_empty.
Qed.

Lemma unique_NoDup (seen : gset string) (l : list string) :
  NoDup (unique seen l) /\ forall x, x ∈ unique seen l -> x ∉ seen.
Proof.
  revert seen. induction l as [|x l IH]; intros seen; cbn [unique].
  - split; [constructor | intros x Hx; inversion Hx].
  - destruct (decide (x ∈ seen)) as [Hx|Hx]; [apply IH|].
    destruct (IH ({[x]} ∪ seen)) as [Hnd Hnot]. split.
    + constructor; [|exact Hnd]. intros Hin. apply Hnot in Hin.
      apply Hin, elem_of_union_l, elem_of_singleton. reflexivity.
    + intros y Hy. apply elem_of_cons in Hy. destruct Hy as [->|Hy]; [exact Hx|].
      apply Hnot in Hy. intros H. apply Hy, elem_of_union_r, H.
Qed.

Lemma processed_ids_prefix (ids : list string) (participant_limit : option Z) :
  processed_ids ids participant_limit `prefix_of` ids.
Proof.
  unfold processed_ids, slice_to.
  destruct participant_limit as [limit|]; [|reflexivity].
  destruct (0 <=? _)%Z; apply prefix_take.
Qed.

Lemma processed_ids_NoDup (binary_df : list binary_row)
    (participant_limit : option Z) :
  NoDup (processed_ids (all_participant_ids binary_df) participant_limit).
Proof.
  pose proof (proj1 (unique_NoDup ∅ (List.map Participant_ID binary_df)))
    as Hnd.
  destruct (processed_ids_prefix (all_participant_ids binary_df)
              participant_limit) as [rest E].
  unfold all_participant_ids in *. rewrite E in Hnd.
  now apply NoDup_app in Hnd.
Qed.

Lemma signal_loop_map (calc : signal_calculators) (enable_llm_judge : bool)
    (ids : list string) :
  signal_loop calc enable_llm_judge ids =
    List.map (process_participant calc enable_llm_judge) ids.
Proof.
  unfold signal_loop.
  assert (H : forall acc,
            fold_left
              (fun results participant_id =>
                 results ++ [process_participant calc enable_llm_judge
                               participant_id]) ids acc =
            acc ++ List.map (process_participant calc enable_llm_judge) ids).
  { induction ids as [|p ids IH]; intros acc; cbn.
    - now rewrite app_nil_r.
    - rewrite IH, <- app_assoc. reflexivity. }
  apply (H []).
Qed.

Lemma process_participant_id (calc : signal_calculators) (en : bool)
    (participant_id : string) :
  r_Participant_ID (process_participant calc en participant_id)
    = participant_id.
Proof.
  unfold process_participant, try_except_Exception, mbind, pyresult_bind,
    pybind.
  destruct (calculate_duration calc participant_id); [|reflexivity].
  destruct (calculate_low_quality_tag_percentage calc participant_id);
    [|reflexivity].
  destruct (calculate_universal_disagreement_percentage calc participant_id);
    [|reflexivity].
  destruct (calculate_asc calc participant_id); reflexivity.
Qed.

Lemma process_participant_raises (calc : signal_calculators) (en : bool)
    (participant_id : string) :
  raises calc participant_id ->
  process_participant calc en participant_id = error_dict participant_id en.
Proof.
  intros (e & H).
  unfold process_participant, try_except_Exception, mbind, pyresult_bind,
    pybind.
  destruct (calculate_duration calc participant_id); [|reflexivity].
  destruct (calculate_low_quality_tag_percentage calc participant_id);
    [|reflexivity].
  destruct (calculate_universal_disagreement_percentage calc participant_id);
    [|reflexivity].
  destruct (calculate_asc calc participant_id); [|reflexivity].
  destruct H as [H|[H|[H|H]]]; discriminate H.
Qed.

(** C10.  [calculate_all_pri_signals] emits exactly one row per
    processed participant, in the order of first appearance in the vote log
    (the processed participants are a prefix of that order, all of it without
    a limit), and no participant twice.  When computing a signal raises for
    a participant, the row appended for that participant is [error_dict]:
    every signal value is missing.  The row stays in place, with its four
    raw signals missing; only when the judge is enabled does the later batch
    update write the judge's score into it. *)
Theorem calculate_all_pri_signals_rows (calc : signal_calculators)
    (binary_df : list binary_row) (participant_limit : option Z)
    (enable_llm_judge evaluatable_questions : bool)
    (batch_process_llm_judge : list string -> gmap string Q) :
  let first_seen :=
    spec_first_appearances (List.map Participant_ID binary_df) in
  let ids := processed_ids (all_participant_ids binary_df) participant_limit in
  let enabled := enable_llm_judge && evaluatable_questions in
  let results :=
    calculate_all_pri_signals calc (all_participant_ids binary_df)
      participant_limit enable_llm_judge evaluatable_questions
      batch_process_llm_judge in
  all_participant_ids binary_df = first_seen /\
  ids `prefix_of` first_seen /\
  (participant_limit = None -> ids = first_seen) /\
  List.map r_Participant_ID results = ids /\
  NoDup (List.map r_Participant_ID results) /\
  (forall (i : nat) (participant_id : string),
     ids !! i = Some participant_id ->
     raises calc participant_id ->
     signal_loop calc enabled ids !! i
       = Some (error_dict participant_id enabled) /\
     all_signals_missing (error_dict participant_id enabled) /\
     exists r,
       results !! i = Some r /\
       r_Participant_ID r = participant_id /\
       r_Duration_seconds r = None /\ r_LowQualityTag_Perc r = None /\
       r_UniversalDisagreement_Perc r = None /\ r_ASC_Score_Raw r = None /\
       (enabled = false -> r = error_dict participant_id false)).
Proof.
  cbv zeta.
  set (ids := processed_ids (all_participant_ids binary_df) participant_limit).
  set (enabled := enable_llm_judge && evaluatable_questions).
  assert (Hids : List.map r_Participant_ID
                   (calculate_all_pri_signals calc
                      (all_participant_ids binary_df) participant_limit
                      enable_llm_judge evaluatable_questions
                      batch_process_llm_judge) = ids).
  { unfold calculate_all_pri_signals. fold ids enabled.
    rewrite signal_loop_map.
    destruct enabled; rewrite ?List.map_map; cbn [update_llm_score r_Participant_ID];
      (rewrite <- (List.map_id ids) at 2 || rewrite <- (List.map_id ids) at 3);
      apply List.map_ext; intros p; apply process_participant_id. }
  split; [apply all_participant_ids_first_appearances|].
  split.
  { rewrite <- all_participant_ids_first_appearances.
    apply processed_ids_prefix. }
  split.
  { intros ->. apply all_participant_ids_first_appearances. }
  split; [exact Hids|].
  split; [rewrite Hids; apply processed_ids_NoDup|].
  intros i participant_id Hi Hraise.
  assert (Hloop : signal_loop calc enabled ids !! i
                  = Some (error_dict participant_id enabled)).
  { rewrite signal_loop_map, map_fmap, list_lookup_fmap, Hi. cbn.
    f_equal. now apply process_participant_raises. }
  split; [exact Hloop|].
  split.
  { unfold all_signals_missing, error_dict. cbn.
    repeat split. destruct enabled; [now right|now left]. }
  unfold calculate_all_pri_signals. fold ids enabled.
  destruct enabled eqn:Een.
  - rewrite map_fmap, list_lookup_fmap, Hloop. cbn.
    eexists. split; [reflexivity|]. cbn. repeat split. discriminate.
  - rewrite Hloop. eexists. split; [reflexivity|]. cbn. repeat split.
Qed.

Lemma calculate_all_pri_signals_rows_witness :
  signal_loop example_calculators false ["p1"; "p2"]%string !! 1%nat
    = Some (error_dict "p2" false) /\
  List.map r_Participant_ID
    (calculate_all_pri_signals example_calculators
       (all_participant_ids (load_binary example_votes)) None false false
       (fun _ => ∅))
    = ["p1"; "p2"]%string.
Proof.
  destruct (calculate_all_pri_signals_rows example_calculators
              (load_binary example_votes) None false false (fun _ => ∅))
    as (_ & _ & _ & Hids & _ & Hrow).
  split.
  - apply (Hrow 1%nat "p2"%string).
    + reflexivity.
    + exists KeyError. left. reflexivity.
  - exact Hids.
Defined.

(** ** The judge batch *)

Section JudgeBatch.

Import BatchLLM.

Lemma holders_sum (l : list task) :
length (List.filter is_holding l) = list_sum (List.map holding_weight l).
Proof.
induction l as [|t l IH]; [reflexivity|]. cbn. unfold holding_weight at 1.
destruct (is_holding t); cbn; now rewrite IH.
Qed.

Lemma list_sum_insert {A} (f : A -> nat) (l : list A) (i : nat) (t t' : A) :
l !! i = Some t ->
(list_sum (List.map f (<[i := t']> l)) + f t
 = list_sum (List.map f l) + f t')%nat.
Proof.
revert i. induction l as [|x l IH]; intros [|i] Hi; try discriminate.
- cbn in Hi. injection Hi as ->.
  change (list_sum (List.map f (<[0%nat := t']> (t :: l))))
    with (f t' + list_sum (List.map f l))%nat.
  change (list_sum (List.map f (t :: l)))
    with (f t + list_sum (List.map f l))%nat.
  lia.
- cbn in Hi. specialize (IH i Hi).
  change (list_sum (List.map f (<[S i := t']> (x :: l))))
    with (f x + list_sum (List.map f (<[i := t']> l)))%nat.
  change (list_sum (List.map f (x :: l)))
    with (f x + list_sum (List.map f l))%nat.
  lia.
Qed.

Lemma Forall_insert_ok (p : params) (l : list task) (i : nat) (t : task) :
Forall (task_ok p) l -> task_ok p t -> Forall (task_ok p) (<[i := t]> l).
Proof. intros Hl Ht. now apply Forall_insert. Qed.

Lemma invariant_init (p : params) (participants : list bool) :
invariant p (init p participants).
Proof. split; [cbn; lia | constructor]. Qed.

Lemma invariant_step (p : params) (st st' : state) (ev : event) :
invariant p st -> step p st ev = Some st' -> invariant p st'.
Proof.
intros [Hperm Hok] Hstep. unfold holders in *.
rewrite holders_sum in Hperm.
destruct ev as [|i|i|i|i]; cbn in Hstep.
- destruct (forallb is_done (batch st)) eqn:Hdone; [|discriminate].
  destruct (later st) as [|h hs] eqn:Hl; [discriminate|].
  injection Hstep as <-. unfold invariant, holders. cbn [permits batch].
  assert (H0 : list_sum (List.map holding_weight (batch st)) = 0%nat).
  { clear -Hdone. induction (batch st) as [|t l IH]; [reflexivity|].
    cbn in Hdone. apply andb_true_iff in Hdone as [Ht Hl].
    destruct t; try discriminate. cbn. now apply IH. }
  split.
  + rewrite holders_sum.
    assert (H1 : forall l : list bool,
              list_sum (List.map holding_weight
                (List.map (fun h => Waiting (calls_of p h)) l)) = 0%nat)
      by (induction l as [|x l IH]; [reflexivity | cbn; exact IH]).
    rewrite H1. lia.
  + apply Forall_forall. intros t Ht. apply list_elem_of_In in Ht.
    apply in_map_iff in Ht.
    destruct Ht as (h' & <- & _). cbn. unfold calls_of.
    destruct h'; lia.
- destruct (batch st !! i) as [[calls|u f|]|] eqn:Hi; try discriminate.
  destruct (permits st) as [|n] eqn:Hp; [discriminate|].
  injection Hstep as <-. unfold invariant, holders. cbn [permits batch].
  pose proof (list_sum_insert holding_weight _ _ _ (Holding calls 0) Hi) as Hs.
  cbn in Hs. rewrite holders_sum. split; [lia|].
  apply Forall_insert_ok; [exact Hok|].
  eapply Forall_lookup_1 in Hok; [|exact Hi]. cbn in Hok |- *. lia.
- destruct (batch st !! i) as [[calls|[|u] f|]|] eqn:Hi; try discriminate.
  injection Hstep as <-. unfold invariant, holders. cbn [permits batch].
  pose proof (list_sum_insert holding_weight _ _ _ (Holding u (S f)) Hi) as Hs.
  cbn in Hs. rewrite holders_sum. split; [lia|].
  apply Forall_insert_ok; [exact Hok|].
  eapply Forall_lookup_1 in Hok; [|exact Hi]. cbn in Hok |- *. lia.
- destruct (batch st !! i) as [[calls|u [|f]|]|] eqn:Hi; try discriminate.
  injection Hstep as <-. unfold invariant, holders. cbn [permits batch].
  pose proof (list_sum_insert holding_weight _ _ _ (Holding u f) Hi) as Hs.
  cbn in Hs. rewrite holders_sum. split; [lia|].
  apply Forall_insert_ok; [exact Hok|].
  eapply Forall_lookup_1 in Hok; [|exact Hi]. cbn in Hok |- *. lia.
- destruct (batch st !! i) as [[calls|[|u] [|f]|]|] eqn:Hi; try discriminate.
  injection Hstep as <-. unfold invariant, holders. cbn [permits batch].
  pose proof (list_sum_insert holding_weight _ _ _ Done Hi) as Hs.
  cbn in Hs. rewrite holders_sum. split; [lia|].
  apply Forall_insert_ok; [exact Hok|exact I].
Qed.

Lemma invariant_run (p : params) (evs : list event) (st st' : state) :
invariant p st -> run p st evs = Some st' -> invariant p st'.
Proof.
revert st. induction evs as [|ev evs IH]; intros st Hinv Hrun; cbn in Hrun.
- now injection Hrun as <-.
- destruct (step p st ev) as [st1|] eqn:Hstep; [|discriminate].
  eapply IH; [|exact Hrun]. eapply invariant_step; eauto.
Qed.

Lemma in_flight_le_holders (p : params) (l : list task) :
Forall (task_ok p) l ->
(list_sum (List.map task_in_flight l)
 <= list_sum (List.map holding_weight l) * models p)%nat.
Proof.
induction 1 as [|t l Ht Hl IH]; [cbn; lia|].
change (list_sum (List.map task_in_flight (t :: l)))
  with (task_in_flight t + list_sum (List.map task_in_flight l))%nat.
change (list_sum (List.map holding_weight (t :: l)))
  with (holding_weight t + list_sum (List.map holding_weight l))%nat.
destruct t as [c|u f|];
  cbn [task_in_flight holding_weight is_holding task_ok] in *; lia.
Qed.

(** In every reachable state at most [MAX_CONCURRENT_REQUESTS] tasks are
  inside the semaphore, and the requests in flight are at most that many
  times the number of models. *)
Lemma semaphore_bounds (p : params) (participants : list bool) (st : state) :
reachable p participants st ->
(holders st <= MAX_CONCURRENT_REQUESTS p)%nat /\
(in_flight st <= holders st * models p)%nat /\
(in_flight st <= MAX_CONCURRENT_REQUESTS p * models p)%nat.
Proof.
intros [evs Hrun].
destruct (invariant_run p evs _ _ (invariant_init p participants) Hrun)
  as [Hperm Hok].
pose proof (in_flight_le_holders p _ Hok) as Hf.
unfold in_flight, holders in *. rewrite holders_sum in *.
split; [lia|]. split; [exact Hf|]. nia.
Qed.

(** C9: the code at the failing input.  One batch of 100 participants
  with evaluatable responses, the semaphore of 200 and the three models of
  the source: every task enters the semaphore, which counts participants,
  and posts its three requests before any of them is resolved, so that 300
  requests are in flight, more than the cap of 200. *)
Theorem judge_requests_exceed_cap :
exists st,
  reachable source_params (repeat true 100) st /\
  holders st = 100%nat /\
  in_flight st = 300%nat /\
  (MAX_CONCURRENT_REQUESTS source_params < in_flight st)%nat.
Proof.
eexists. split.
- exists (fan_out_schedule 100 3). vm_compute. reflexivity.
- split; [vm_compute; reflexivity|].
  split; [vm_compute; reflexivity|].
  apply Nat.ltb_lt. vm_compute. reflexivity.
Qed.

(** With a single model per participant the requests in flight do stay
  within the cap: the specification's example with a cap of 2. *)
Lemma single_model_within_cap (participants : list bool) (st : state) :
reachable {| BATCH_SIZE := 100; MAX_CONCURRENT_REQUESTS := 2; models := 1 |}
          participants st ->
(in_flight st <= 2)%nat.
Proof.
intros H. apply semaphore_bounds in H. cbn in H. lia.
Qed.

End JudgeBatch.

(** ** Duration *)

Lemma fold_Zmin_spec (l : list Z) (a : Z) :
  (forall x, In x (a :: l) -> (fold_left Z.min l a <= x)%Z) /\
  In (fold_left Z.min l a) (a :: l).
Proof.
  revert a. induction l as [|y l IH]; intros a; cbn [fold_left].
  - split; [intros x [<-|[]]; lia | now left].
  - destruct (IH (Z.min a y)) as [Hle Hin]. split.
    + intros x [<-|[<-|Hx]].
      * specialize (Hle (Z.min a y) (or_introl eq_refl)). lia.
      * specialize (Hle (Z.min a y) (or_introl eq_refl)). lia.
      * apply Hle. now right.
    + destruct Hin as [E|Hin]; [|right; now right].
      rewrite <- E. destruct (Z.min_spec a y) as [[_ ->]|[_ ->]];
        [now left | right; now left].
Qed.

Lemma fold_Zmax_spec (l : list Z) (a : Z) :
  (forall x, In x (a :: l) -> (x <= fold_left Z.max l a)%Z) /\
  In (fold_left Z.max l a) (a :: l).
Proof.
  revert a. induction l as [|y l IH]; intros a; cbn [fold_left].
  - split; [intros x [<-|[]]; lia | now left].
  - destruct (IH (Z.max a y)) as [Hle Hin]. split.
    + intros x [<-|[<-|Hx]].
      * specialize (Hle (Z.max a y) (or_introl eq_refl)). lia.
      * specialize (Hle (Z.max a y) (or_introl eq_refl)). lia.
      * apply Hle. now right.
    + destruct Hin as [E|Hin]; [|right; now right].
      rewrite <- E. destruct (Z.max_spec a y) as [[_ ->]|[_ ->]];
        [right; now left | now left].
Qed.

Lemma In_binary_times (participant_id : string) (binary_df : list binary_row)
    (t : Z) :
  In t (Signals.binary_times participant_id binary_df) <->
  exists r, In r binary_df /\ Participant_ID r = participant_id /\
            Timestamp r = Some t.
Proof.
  unfold Signals.binary_times. rewrite <- list_elem_of_In, list_elem_of_omap.
  split.
  - intros (r & Hr & Ht). apply list_elem_of_filter in Hr as [Hp Hr].
    exists r. rewrite <- list_elem_of_In. auto.
  - intros (r & Hr & Hp & Ht). exists r. split; [|exact Ht].
    apply list_elem_of_filter. rewrite list_elem_of_In. auto.
Qed.

Lemma In_preference_times (participant_id : string)
    (preference_df : list preference_row) (t : Z) :
  In t (Signals.preference_times participant_id preference_df) <->
  exists r, In r preference_df /\ pref_Participant_ID r = participant_id /\
            pref_Timestamp r = Some t.
Proof.
  unfold Signals.preference_times.
  rewrite <- list_elem_of_In, list_elem_of_omap.
  split.
  - intros (r & Hr & Ht). apply list_elem_of_filter in Hr as [Hp Hr].
    exists r. rewrite <- list_elem_of_In. auto.
  - intros (r & Hr & Hp & Ht). exists r. split; [|exact Ht].
    apply list_elem_of_filter. rewrite list_elem_of_In. auto.
Qed.

Lemma In_all_times (participant_id : string) (binary_df : list binary_row)
    (preference_df : list preference_row) (t : Z) :
  In t (Signals.binary_times participant_id binary_df
        ++ Signals.preference_times participant_id preference_df) <->
  spec_recorded participant_id binary_df preference_df t.
Proof.
  rewrite in_app_iff, In_binary_times, In_preference_times. reflexivity.
Qed.

(** X1.  As long as no two timestamps recorded for the participant, in the
    binary and the preference votes, lie more than the largest [Timedelta]
    (9223372036 seconds) apart, [calculate_duration] returns their span: it
    is never negative, no two recorded timestamps lie further apart, and it
    is the distance of two recorded timestamps, or zero when nothing is
    recorded.  When two recorded timestamps lie further apart than a
    [Timedelta] holds, it raises.  Rows of other participants and
    unparseable timestamps play no part. *)
Theorem calculate_duration_span (participant_id : string)
    (binary_df : list binary_row) (preference_df : list preference_row) :
  let duration :=
    Signals.calculate_duration participant_id binary_df preference_df in
  let recorded := spec_recorded participant_id binary_df preference_df in
  ((forall t1 t2, recorded t1 -> recorded t2 ->
      (t2 - t1 <= Signals.max_timedelta_seconds)%Z) ->
   exists d,
     duration = Ok d /\ (0 <= d)%Z /\
     (forall t1 t2, recorded t1 -> recorded t2 -> (t2 - t1 <= d)%Z) /\
     ((d = 0%Z /\ forall t, ~ recorded t) \/
      exists t1 t2, recorded t1 /\ recorded t2 /\ d = (t2 - t1)%Z)) /\
  ((exists t1 t2, recorded t1 /\ recorded t2 /\
      (Signals.max_timedelta_seconds < t2 - t1)%Z) ->
   exists e, duration = Raise e).
Proof.
  cbv zeta. unfold Signals.calculate_duration.
  set (all_times := Signals.binary_times participant_id binary_df
                    ++ Signals.preference_times participant_id preference_df).
  assert (Hrec : forall t, In t all_times <->
            spec_recorded participant_id binary_df preference_df t)
    by (intros t; apply In_all_times).
  destruct all_times as [|a [|b l]] eqn:E.
  - cbn. split.
    + intros _. exists 0%Z. split; [reflexivity|]. split; [lia|]. split.
      * intros t1 t2 H1 _. apply Hrec in H1. destruct H1.
      * left. split; [reflexivity|]. intros t Ht. apply Hrec in Ht.
        destruct Ht.
    + intros (t1 & _ & H1 & _). apply Hrec in H1. destruct H1.
  - cbn. split.
    + intros _. exists 0%Z. split; [reflexivity|]. split; [lia|]. split.
      * intros t1 t2 H1 H2. apply Hrec in H1, H2.
        destruct H1 as [<-|[]]. destruct H2 as [<-|[]]. lia.
      * right. exists a, a. rewrite <- !Hrec. cbn. repeat split; auto. lia.
    + intros (t1 & t2 & H1 & H2 & Hfar). apply Hrec in H1, H2.
      destruct H1 as [<-|[]]. destruct H2 as [<-|[]].
      assert (0 <= Signals.max_timedelta_seconds)%Z
        by (vm_compute; discriminate).
      lia.
  - cbn [length Nat.ltb Nat.leb Signals.Zmax_list Signals.Zmin_list].
    destruct (fold_Zmin_spec (b :: l) a) as [Hmin Hmin_in].
    destruct (fold_Zmax_spec (b :: l) a) as [Hmax Hmax_in].
    unfold Signals.timestamp_sub.
    set (lo := fold_left Z.min (b :: l) a) in *.
    set (hi := fold_left Z.max (b :: l) a) in *.
    split.
    + intros Hnear.
      assert (Hfit : (hi - lo <= Signals.max_timedelta_seconds)%Z)
        by (apply Hnear; apply Hrec; assumption).
      rewrite (proj2 (Z.ltb_ge _ _) Hfit).
      exists (hi - lo)%Z. split; [reflexivity|]. split; [|split].
      * specialize (Hmin a (or_introl eq_refl)).
        specialize (Hmax a (or_introl eq_refl)). lia.
      * intros t1 t2 H1 H2. apply Hrec in H1, H2.
        specialize (Hmin t1 H1). specialize (Hmax t2 H2). lia.
      * right. exists lo, hi. rewrite <- !Hrec.
        split; [exact Hmin_in|]. split; [exact Hmax_in | reflexivity].
    + intros (t1 & t2 & H1 & H2 & Hfar). apply Hrec in H1, H2.
      specialize (Hmin t1 H1). specialize (Hmax t2 H2).
      rewrite (proj2 (Z.ltb_lt _ _)) by lia. eauto.
Qed.

Lemma calculate_duration_span_witness :
  (exists d,
     Signals.calculate_duration "p1" (load_binary example_votes)
       example_preferences = Ok d /\ (0 <= d)%Z) /\
  (exists e,
     Signals.calculate_duration "p1" (load_binary example_votes)
       [ {| pref_Participant_ID := "p1";
            pref_Timestamp := Some 9300000000%Z |} ] = Raise e).
Proof.
  split.
  - destruct (proj1 (calculate_duration_span "p1" (load_binary example_votes)
                       example_preferences)) as (d & Hd & Hpos & _).
    + intros t1 t2
        [(r1 & Hr1 & _ & Ht1)|(r1 & Hr1 & _ & Ht1)]
        [(r2 & Hr2 & _ & Ht2)|(r2 & Hr2 & _ & Ht2)];
        cbn in Hr1, Hr2;
        repeat (destruct Hr1 as [<-|Hr1]; [|]); try destruct Hr1;
        repeat (destruct Hr2 as [<-|Hr2]; [|]); try destruct Hr2;
        cbn in Ht1, Ht2; try discriminate;
        injection Ht1 as <-; injection Ht2 as <-;
        vm_compute; discriminate.
    + exists d. auto.
  - apply (calculate_duration_span "p1" (load_binary example_votes)
             [ {| pref_Participant_ID := "p1";
                  pref_Timestamp := Some 9300000000%Z |} ]).
    exists 10%Z, 9300000000%Z. split; [|split].
    + left. eexists. split; [left; reflexivity|]. split; reflexivity.
    + right. eexists. split; [left; reflexivity|]. split; reflexivity.
    + vm_compute. reflexivity.
Defined.

(** ** Ratios of counts *)

Lemma ratio_spec (n t : nat) :
  (0 < t)%nat -> (n <= t)%nat ->
  0 <= Q_of_nat n / Q_of_nat t <= 1 /\
  (Q_of_nat n / Q_of_nat t == 0 <-> n = 0%nat) /\
  (Q_of_nat n / Q_of_nat t == 1 <-> n = t).
Proof.
  intros Ht Hn. unfold Q_of_nat.
  assert (Hpos : 0 < inject_Z (Z.of_nat t))
    by (unfold Qlt; cbn; lia).
  assert (Hnz : ~ inject_Z (Z.of_nat t) == 0) by lra.
  assert (Hn0 : 0 <= inject_Z (Z.of_nat n)) by (unfold Qle; cbn; lia).
  assert (Hnt : inject_Z (Z.of_nat n) <= inject_Z (Z.of_nat t))
    by (unfold Qle; cbn; lia).
  split; [split|split].
  - apply Qle_shift_div_l; [exact Hpos|]. lra.
  - apply Qle_shift_div_r; [exact Hpos|]. lra.
  - split.
    + intros E.
      assert (E' : inject_Z (Z.of_nat n) == 0).
      { rewrite <- (Qmult_div_r (inject_Z (Z.of_nat n)) (inject_Z (Z.of_nat t)))
          by exact Hnz.
        rewrite E. lra. }
      unfold Qeq in E'. cbn in E'. lia.
    + intros ->. reflexivity.
  - split.
    + intros E.
      assert (E' : inject_Z (Z.of_nat n) == inject_Z (Z.of_nat t)).
      { rewrite <- (Qmult_div_r (inject_Z (Z.of_nat n)) (inject_Z (Z.of_nat t)))
          by exact Hnz.
        rewrite E. lra. }
      unfold Qeq in E'. cbn in E'. lia.
    + intros ->. field. exact Hnz.
Qed.

Lemma count_true_map {A} (f : A -> bool) (l : list A) :
  length (List.filter (fun b : bool => b) (List.map f l))
    = length (List.filter f l).
Proof.
  induction l as [|x l IH]; [reflexivity|]. cbn.
  destruct (f x); cbn; now rewrite IH.
Qed.

Lemma filter_length_le {A} (f : A -> bool) (l : list A) :
  (length (List.filter f l) <= length l)%nat.
Proof.
  induction l as [|x l IH]; [cbn; lia|]. cbn. destruct (f x); cbn; lia.
Qed.

Lemma filter_length_zero {A} (f : A -> bool) (l : list A) :
  length (List.filter f l) = 0%nat <-> forall x, In x l -> f x = false.
Proof.
  induction l as [|x l IH]; cbn; [tauto|].
  destruct (f x) eqn:E; cbn.
  - split; [discriminate|]. intros H. specialize (H x (or_introl eq_refl)).
    congruence.
  - rewrite IH. split; [intros H y [<-|Hy]; auto | intros H y Hy; auto].
Qed.

Lemma filter_length_all {A} (f : A -> bool) (l : list A) :
  length (List.filter f l) = length l <-> forall x, In x l -> f x = true.
Proof.
  induction l as [|x l IH]; cbn; [tauto|].
  pose proof (filter_length_le f l) as Hle.
  destruct (f x) eqn:E; cbn.
  - split.
    + intros H y [<-|Hy]; [exact E|]. apply IH; [lia|exact Hy].
    + intros H. f_equal. apply IH. auto.
  - split; [lia|]. intros H. specialize (H x (or_introl eq_refl)).
    congruence.
Qed.

(** ** Low-quality tags *)

Lemma tag_values_no_tag_columns (columns : list string) (row : label_row) :
  List.filter Signals.is_tag_column columns = [] ->
  Signals.tag_values columns row = [].
Proof.
  unfold Signals.tag_values. generalize (label_values row) as vals.
  induction columns as [|c columns IH]; intros vals Hc; [reflexivity|].
  destruct vals as [|v vals]; [reflexivity|].
  cbn [List.filter] in Hc.
  change (zip (c :: columns) (v :: vals)) with ((c, v) :: zip columns vals).
  cbn [List.filter fst].
  destruct (Signals.is_tag_column c); [discriminate|]. now apply IH.
Qed.

(** X2.  The low-quality tag percentage of a participant is a fraction
    between 0 and 1 of the participant's labelled responses: it is 0 exactly
    when none of them is flagged (in particular when the participant has no
    labelled response, or the table has no tag column), and 1 exactly when
    the participant has a labelled response and all of them are flagged.  A
    response is flagged when one of its tag cells is the string
    "Uninformative answer", spelled exactly so. *)
Theorem low_quality_tag_percentage_range (participant_id : string)
    (thought_labels_df : labels_df) :
  let r := Signals.calculate_low_quality_tag_percentage participant_id
             thought_labels_df in
  let mine row := In row (label_rows thought_labels_df) /\
                  label_Participant_ID row = participant_id in
  let flagged row :=
    Signals.row_is_low_quality (label_columns thought_labels_df) row in
  0 <= r <= 1 /\
  (r == 0 <-> forall row, mine row -> flagged row = false) /\
  (r == 1 <-> (exists row, mine row) /\
              forall row, mine row -> flagged row = true).
Proof.
  cbv zeta. unfold Signals.calculate_low_quality_tag_percentage.
  set (columns := label_columns thought_labels_df).
  set (rows := label_rows thought_labels_df).
  set (pl := filter (fun r => label_Participant_ID r = participant_id) rows).
  assert (Hpl : forall row, In row pl <->
            In row rows /\ label_Participant_ID row = participant_id).
  { intros row. unfold pl. rewrite <- !list_elem_of_In, list_elem_of_filter.
    tauto. }
  assert (Hzero : (0:Q) <= 0 <= 1) by (split; [apply Qle_refl | discriminate]).
  assert (Hne1 : ~ (0:Q) == 1) by discriminate.
  assert (Hnotags : List.filter Signals.is_tag_column columns = [] ->
            forall row, Signals.row_is_low_quality columns row = false).
  { intros H row. unfold Signals.row_is_low_quality.
    now rewrite tag_values_no_tag_columns. }
  assert (Htrivial :
    (forall row, In row pl -> Signals.row_is_low_quality columns row = false) ->
    (pl = [] \/ List.filter Signals.is_tag_column columns = []) ->
    0 <= 0 <= 1 /\
    (0 == 0 <-> forall row, In row rows /\
                  label_Participant_ID row = participant_id ->
                Signals.row_is_low_quality columns row = false) /\
    (0 == 1 <-> (exists row, In row rows /\
                   label_Participant_ID row = participant_id) /\
                forall row, In row rows /\
                  label_Participant_ID row = participant_id ->
                Signals.row_is_low_quality columns row = true)).
  { intros Hunflagged Hcase. split; [exact Hzero|]. split.
    - split; [|reflexivity]. intros _ row Hrow. apply Hunflagged, Hpl, Hrow.
    - split; [intros E; destruct (Hne1 E)|].
      intros [[row Hrow] Hall]. specialize (Hall row Hrow).
      apply Hpl in Hrow. rewrite (Hunflagged row Hrow) in Hall. discriminate. }
  destruct (Signals.labels_empty thought_labels_df) eqn:Eempty.
  - apply Htrivial.
    + intros row Hrow. unfold Signals.labels_empty in Eempty.
      fold columns rows in Eempty.
      destruct columns as [|c cs] eqn:Ec.
      * reflexivity.
      * destruct rows as [|r0 rs] eqn:Er; [|discriminate].
        apply Hpl in Hrow. destruct Hrow as [[] _].
    + unfold Signals.labels_empty in Eempty. fold columns rows in Eempty.
      destruct columns as [|c cs]; [right; reflexivity|].
      destruct rows as [|r0 rs]; [left; reflexivity | discriminate].
  - destruct pl as [|p0 pl'] eqn:Epl.
    + apply Htrivial; [intros row []|left; reflexivity].
    + destruct (List.filter Signals.is_tag_column columns) as [|t0 ts] eqn:Et.
      * apply Htrivial; [|right; reflexivity].
        intros row _. now apply Hnotags.
      * rewrite count_true_map.
        set (f := Signals.row_is_low_quality columns).
        cbn [length Nat.ltb Nat.leb].
        pose proof (filter_length_le f (p0 :: pl')) as Hle.
        destruct (ratio_spec (length (List.filter f (p0 :: pl')))
                    (length (p0 :: pl'))) as (Hr & H0 & H1);
          [cbn; lia | exact Hle |].
        change (S (length pl')) with (length (p0 :: pl')).
        split; [exact Hr|]. split.
        -- rewrite H0, filter_length_zero. split.
           ++ intros H row Hrow. apply H, Hpl, Hrow.
           ++ intros H row Hrow. apply H, Hpl, Hrow.
        -- rewrite H1, filter_length_all. split.
           ++ intros H. split.
              ** exists p0. apply Hpl. now left.
              ** intros row Hrow. apply H, Hpl, Hrow.
           ++ intros [_ H] row Hrow. apply H, Hpl, Hrow.
Qed.

(** ** The order of floats *)

Lemma Float_le_refl (a : pyfloat) : Float.isnan a = false -> Float.le a a = true.
Proof.
  destruct a as [q| | |]; cbn; try reflexivity; try discriminate.
  intros _. apply Qle_bool_iff, Qle_refl.
Qed.

Lemma Float_le_trans (a b c : pyfloat) :
  Float.le a b = true -> Float.le b c = true -> Float.le a c = true.
Proof.
  destruct a as [x| | |], b as [y| | |], c as [z| | |]; cbn;
    try reflexivity; try discriminate.
  rewrite !Qle_bool_iff. apply Qle_trans.
Qed.

Lemma Float_le_nan (a b : pyfloat) :
  Float.le a b = true -> Float.isnan a = false /\ Float.isnan b = false.
Proof. destruct a, b; cbn; try discriminate; auto. Qed.

Lemma Float_gt_le (a b : pyfloat) :
  Float.gt b a = true -> Float.le a b = true.
Proof.
  unfold Float.gt. destruct a as [x| | |], b as [y| | |]; cbn;
    try reflexivity; try discriminate.
  intros H. apply Qlt_bool_true in H. apply Qle_bool_iff. lra.
Qed.

Lemma Float_not_gt_le (a b : pyfloat) :
  Float.isnan a = false -> Float.isnan b = false ->
  Float.gt b a = false -> Float.le b a = true.
Proof.
  unfold Float.gt. destruct a as [x| | |], b as [y| | |]; cbn;
    try reflexivity; try discriminate.
  intros _ _ H. apply Qlt_bool_false in H. now apply Qle_bool_iff.
Qed.

Lemma py_max_spec (a b : pyfloat) :
  Float.isnan a = false -> Float.isnan b = false ->
  (Signals.py_max a b = a \/ Signals.py_max a b = b) /\
  Float.le a (Signals.py_max a b) = true /\
  Float.le b (Signals.py_max a b) = true.
Proof.
  intros Ha Hb. unfold Signals.py_max.
  destruct (Float.gt b a) eqn:E.
  - split; [now right|]. split; [now apply Float_gt_le|now apply Float_le_refl].
  - split; [now left|]. split; [now apply Float_le_refl|].
    now apply Float_not_gt_le.
Qed.

(** ** The consensus precomputation *)

Lemma question_agreement_map_spec (rows : list aggregate_row) (q : string) :
  match Signals.question_agreement_map rows !! q with
  | Some a => max_agreement rows q a
  | None => forall row, In row rows -> agg_Question_ID row = q ->
                        Float.isnan (All_Agreement row) = true
  end.
Proof.
  unfold Signals.question_agreement_map.
  induction rows as [|row rows IH] using rev_ind.
  - cbn. rewrite lookup_empty. intros row [].
  - rewrite fold_left_app. cbn [fold_left].
    set (m := fold_left Signals.agreement_step rows ∅) in *.
    unfold Signals.agreement_step.
    destruct (Float.isnan (All_Agreement row)) eqn:Enan.
    + destruct (m !! q) as [a|].
      * destruct IH as (Ha & (r & Hr & Hq & Hv) & Hmax). split; [exact Ha|].
        split.
        -- exists r. rewrite in_app_iff. auto.
        -- intros r' Hr' Hq' Hn'. apply in_app_iff in Hr'.
           destruct Hr' as [Hr'|[<-|[]]]; [now apply Hmax | congruence].
      * intros r' Hr' Hq'. apply in_app_iff in Hr'.
        destruct Hr' as [Hr'|[<-|[]]]; [now apply IH | exact Enan].
    + destruct (decide (agg_Question_ID row = q)) as [Eq|Nq].
      * subst q. destruct (m !! agg_Question_ID row) as [old|] eqn:Eold.
        -- rewrite lookup_insert_eq.
           destruct IH as (Ha & (r & Hr & Hq & Hv) & Hmax).
           destruct (py_max_spec old (All_Agreement row) Ha Enan)
             as (Hcase & Hle1 & Hle2).
           split; [destruct Hcase as [->| ->]; assumption|]. split.
           ++ destruct Hcase as [->| ->].
              ** exists r. rewrite in_app_iff. auto.
              ** exists row. rewrite in_app_iff. cbn. auto.
           ++ intros r' Hr' Hq' Hn'. apply in_app_iff in Hr'.
              destruct Hr' as [Hr'|[<-|[]]]; [|exact Hle2].
              eapply Float_le_trans; [|exact Hle1]. now apply Hmax.
        -- rewrite lookup_insert_eq. split; [exact Enan|]. split.
           ++ exists row. rewrite in_app_iff. cbn. auto.
           ++ intros r' Hr' Hq' Hn'. apply in_app_iff in Hr'.
              destruct Hr' as [Hr'|[<-|[]]]; [|now apply Float_le_refl].
              rewrite (IH r' Hr' Hq') in Hn'. discriminate.
      * assert (Hsame : forall v : pyfloat,
                  <[agg_Question_ID row := v]> m !! q = m !! q)
          by (intros v; now rewrite lookup_insert_ne).
        destruct (m !! agg_Question_ID row) as [old|]; rewrite Hsame;
          (destruct (m !! q) as [a|];
           [ destruct IH as (Ha & (r & Hr & Hq & Hv) & Hmax);
             split; [exact Ha|]; split;
             [ exists r; rewrite in_app_iff; auto
             | intros r' Hr' Hq' Hn'; apply in_app_iff in Hr';
               destruct Hr' as [Hr'|[<-|[]]]; [now apply Hmax | congruence] ]
           | intros r' Hr' Hq'; apply in_app_iff in Hr';
             destruct Hr' as [Hr'|[<-|[]]]; [now apply IH | congruence] ]).
Qed.

Lemma thought_to_question_row (verbatim_map_df : list verbatim_row)
    (t q : string) :
  Signals.thought_to_question verbatim_map_df !! t = Some q ->
  exists r, In r verbatim_map_df /\ vm_Thought_ID r = t /\
            vm_Question_ID r = q.
Proof.
  unfold Signals.thought_to_question.
  induction verbatim_map_df as [|r rows IH] using rev_ind.
  - cbn. rewrite lookup_empty. discriminate.
  - rewrite fold_left_app. cbn [fold_left].
    destruct (decide (vm_Thought_ID r = t)) as [E|N].
    + rewrite E, lookup_insert_eq. intros [= <-].
      exists r. rewrite in_app_iff. cbn. auto.
    + rewrite lookup_insert_ne by exact N. intros H.
      destruct (IH H) as (r' & Hr' & Ht & Hq).
      exists r'. rewrite in_app_iff. auto.
Qed.

Lemma thought_to_question_known (verbatim_map_df : list verbatim_row)
    (r : verbatim_row) :
  In r verbatim_map_df ->
  is_Some (Signals.thought_to_question verbatim_map_df
             !! vm_Thought_ID r).
Proof.
  unfold Signals.thought_to_question.
  induction verbatim_map_df as [|r' rows IH] using rev_ind; [intros []|].
  rewrite fold_left_app. cbn [fold_left]. intros Hr.
  destruct (decide (vm_Thought_ID r' = vm_Thought_ID r)) as [E|N].
  - rewrite E, lookup_insert_eq. eauto.
  - rewrite lookup_insert_ne by exact N. apply IH.
    apply in_app_iff in Hr. destruct Hr as [Hr|[->|[]]]; [exact Hr|congruence].
Qed.

(** The classification loop adds to the first set the items whose question
    has a maximal agreement at or above the high threshold and to the second
    set those, among the others, at or below the low threshold. *)
Lemma classify_fold (cfg : config) (qmap : gmap string pyfloat)
    (items : list (string * string)) (A0 D0 : gset string) (t : string) :
  let sets := fold_left (Signals.classify_step cfg qmap) items (A0, D0) in
  (t ∈ fst sets <->
   t ∈ A0 \/
   exists q a, In (t, q) items /\ qmap !! q = Some a /\
               Float.le (Fin (ASC_HIGH_THRESHOLD cfg)) a = true) /\
  (t ∈ snd sets <->
   t ∈ D0 \/
   exists q a, In (t, q) items /\ qmap !! q = Some a /\
               Float.le (Fin (ASC_HIGH_THRESHOLD cfg)) a = false /\
               Float.le a (Fin (ASC_LOW_THRESHOLD cfg)) = true).
Proof.
  cbv zeta. revert A0 D0.
  induction items as [|[t' q'] items IH]; intros A0 D0.
  - cbn. split; (split; [auto | intros [H|(q & a & [] & _)]; exact H]).
  - cbn [fold_left]. unfold Signals.classify_step at 2 4.
    destruct (qmap !! q') as [a'|] eqn:Eq.
    + destruct (Float.le (Fin (ASC_HIGH_THRESHOLD cfg)) a') eqn:Eh;
        [|destruct (Float.le a' (Fin (ASC_LOW_THRESHOLD cfg))) eqn:El].
      * destruct (IH ({[t']} ∪ A0) D0) as [HA HD]. rewrite HA, HD. split.
        -- rewrite elem_of_union, elem_of_singleton. split.
           ++ intros [[->|H]|(q & a & Hin & Hq & Hle)]; [|auto|].
              ** right. exists q', a'. cbn. auto.
              ** right. exists q, a. cbn. auto.
           ++ intros [H|(q & a & [[= <- <-]|Hin] & Hq & Hle)]; [auto|auto|].
              right. exists q, a. auto.
        -- split.
           ++ intros [H|(q & a & Hin & Hq & Hh & Hl)]; [auto|].
              right. exists q, a. cbn. auto.
           ++ intros [H|(q & a & [[= <- <-]|Hin] & Hq & Hh & Hl)]; [auto| |].
              ** congruence.
              ** right. exists q, a. auto.
      * destruct (IH A0 ({[t']} ∪ D0)) as [HA HD]. rewrite HA, HD. split.
        -- split.
           ++ intros [H|(q & a & Hin & Hq & Hle)]; [auto|].
              right. exists q, a. cbn. auto.
           ++ intros [H|(q & a & [[= <- <-]|Hin] & Hq & Hle)]; [auto| |].
              ** congruence.
              ** right. exists q, a. auto.
        -- rewrite elem_of_union, elem_of_singleton. split.
           ++ intros [[->|H]|(q & a & Hin & Hq & Hh & Hl)]; [|auto|].
              ** right. exists q', a'. cbn. auto.
              ** right. exists q, a. cbn. auto.
           ++ intros [H|(q & a & [[= <- <-]|Hin] & Hq & Hh & Hl)]; [auto|auto|].
              right. exists q, a. auto.
      * destruct (IH A0 D0) as [HA HD]. rewrite HA, HD. split.
        -- split.
           ++ intros [H|(q & a & Hin & Hq & Hle)]; [auto|].
              right. exists q, a. cbn. auto.
           ++ intros [H|(q & a & [[= <- <-]|Hin] & Hq & Hle)]; [auto| |].
              ** congruence.
              ** right. exists q, a. auto.
        -- split.
           ++ intros [H|(q & a & Hin & Hq & Hh & Hl)]; [auto|].
              right. exists q, a. cbn. auto.
           ++ intros [H|(q & a & [[= <- <-]|Hin] & Hq & Hh & Hl)]; [auto| |].
              ** congruence.
              ** right. exists q, a. auto.
    + destruct (IH A0 D0) as [HA HD]. rewrite HA, HD. split.
      * split.
        -- intros [H|(q & a & Hin & Hq & Hle)]; [auto|].
           right. exists q, a. cbn. auto.
        -- intros [H|(q & a & [[= <- <-]|Hin] & Hq & Hle)]; [auto| |].
           ++ congruence.
           ++ right. exists q, a. auto.
      * split.
        -- intros [H|(q & a & Hin & Hq & Hh & Hl)]; [auto|].
           right. exists q, a. cbn. auto.
        -- intros [H|(q & a & [[= <- <-]|Hin] & Hq & Hh & Hl)]; [auto| |].
           ++ congruence.
           ++ right. exists q, a. auto.
Qed.

(** X3.  The consensus sets of [precompute_consensus_data]: no thought is
    in both sets; a thought is a strong-agreement item exactly when a row of
    its question has an agreement rate of at least the high threshold; it is
    a strong-disagreement item exactly when its question has a rate and all
    its rates are at most the low threshold and below the high one; and
    every consensus item is a thought of the verbatim map.  The question of
    a thought is the one of its last row in the verbatim map. *)
Theorem precompute_consensus_data_sets (verbatim_map_df : list verbatim_row)
    (aggregate_std_df : list aggregate_row) (cfg : config) (t : string) :
  let cd :=
    Signals.precompute_consensus_data verbatim_map_df aggregate_std_df cfg in
  let question := Signals.thought_to_question verbatim_map_df !! t in
  let rated q row :=
    In row aggregate_std_df /\ agg_Question_ID row = q /\
    Float.isnan (All_Agreement row) = false in
  (t ∈ strong_agree_thoughts cd -> t ∉ strong_disagree_thoughts cd) /\
  (t ∈ strong_agree_thoughts cd <->
   exists q row,
     question = Some q /\ rated q row /\
     Float.le (Fin (ASC_HIGH_THRESHOLD cfg)) (All_Agreement row) = true) /\
  (t ∈ strong_disagree_thoughts cd <->
   exists q,
     question = Some q /\ (exists row, rated q row) /\
     forall row, rated q row ->
       Float.le (All_Agreement row) (Fin (ASC_LOW_THRESHOLD cfg)) = true /\
       Float.le (Fin (ASC_HIGH_THRESHOLD cfg)) (All_Agreement row) = false) /\
  (t ∈ strong_agree_thoughts cd ∪ strong_disagree_thoughts cd ->
   exists r, In r verbatim_map_df /\ vm_Thought_ID r = t).
Proof.
  cbv zeta. unfold Signals.precompute_consensus_data.
  set (qmap := Signals.question_agreement_map aggregate_std_df).
  set (t2q := Signals.thought_to_question verbatim_map_df).
  destruct (classify_fold cfg qmap (map_to_list t2q) ∅ ∅ t) as [HA HD].
  cbv zeta in HA, HD.
  destruct (fold_left (Signals.classify_step cfg qmap) (map_to_list t2q)
              (∅, ∅)) as [A D].
  cbn [fst snd] in HA, HD. cbn [strong_agree_thoughts strong_disagree_thoughts].
  assert (Hitem : forall q, In (t, q) (map_to_list t2q) <-> t2q !! t = Some q).
  { intros q. rewrite <- list_elem_of_In. apply elem_of_map_to_list. }
  assert (HA' : t ∈ A <-> exists q a, t2q !! t = Some q /\ qmap !! q = Some a /\
                  Float.le (Fin (ASC_HIGH_THRESHOLD cfg)) a = true).
  { rewrite HA. split.
    - intros [H|(q & a & Hin & H)]; [now apply not_elem_of_empty in H|].
      exists q, a. now rewrite <- Hitem.
    - intros (q & a & Hin & H). right. exists q, a. now rewrite Hitem. }
  assert (HD' : t ∈ D <-> exists q a, t2q !! t = Some q /\ qmap !! q = Some a /\
                  Float.le (Fin (ASC_HIGH_THRESHOLD cfg)) a = false /\
                  Float.le a (Fin (ASC_LOW_THRESHOLD cfg)) = true).
  { rewrite HD. split.
    - intros [H|(q & a & Hin & H)]; [now apply not_elem_of_empty in H|].
      exists q, a. now rewrite <- Hitem.
    - intros (q & a & Hin & H). right. exists q, a. now rewrite Hitem. }
  clear HA HD.
  assert (Hq : forall q a, qmap !! q = Some a ->
                 max_agreement aggregate_std_df q a).
  { intros q a E. pose proof (question_agreement_map_spec aggregate_std_df q)
      as H. fold qmap in H. now rewrite E in H. }
  split; [|split; [|split]].
  - rewrite HA', HD'. intros (q & a & Hq1 & Ha1 & Hh) (q' & a' & Hq2 & Ha2 & Hh' & _).
    congruence.
  - rewrite HA'. split.
    + intros (q & a & Hq1 & Ha1 & Hh).
      destruct (Hq q a Ha1) as (Hnan & (row & Hrow & Hrq & Hra) & _).
      exists q, row. rewrite Hra. auto.
    + intros (q & row & Hq1 & (Hrow & Hrq & Hnan) & Hh).
      pose proof (question_agreement_map_spec aggregate_std_df q) as H.
      fold qmap in H. destruct (qmap !! q) as [a|] eqn:Ea.
      * exists q, a. split; [exact Hq1|]. split; [exact Ea|].
        destruct H as (_ & _ & Hmax).
        eapply Float_le_trans; [exact Hh|]. now apply Hmax.
      * rewrite (H row Hrow Hrq) in Hnan. discriminate.
  - rewrite HD'. split.
    + intros (q & a & Hq1 & Ha1 & Hh & Hl).
      destruct (Hq q a Ha1) as (Hnan & (row & Hrow & Hrq & Hra) & Hmax).
      exists q. split; [exact Hq1|]. split.
      * exists row. rewrite Hra. auto.
      * intros r (Hr & Hrq' & Hrn). specialize (Hmax r Hr Hrq' Hrn). split.
        -- eapply Float_le_trans; eauto.
        -- destruct (Float.le (Fin (ASC_HIGH_THRESHOLD cfg)) (All_Agreement r))
             eqn:E; [|reflexivity].
           rewrite (Float_le_trans _ _ _ E Hmax) in Hh. discriminate.
    + intros (q & Hq1 & (row & Hrow & Hrq & Hnan) & Hall).
      pose proof (question_agreement_map_spec aggregate_std_df q) as H.
      fold qmap in H. destruct (qmap !! q) as [a|] eqn:Ea.
      * exists q, a. split; [exact Hq1|]. split; [exact Ea|].
        destruct H as (Hna & (r & Hr & Hrq' & Hra) & _).
        destruct (Hall r) as [Hl Hh]; [rewrite Hra; auto|].
        rewrite Hra in Hl, Hh. auto.
      * rewrite (H row Hrow Hrq) in Hnan. discriminate.
  - rewrite elem_of_union, HA', HD'.
    intros [(q & a & Hq1 & _)|(q & a & Hq1 & _)];
      destruct (thought_to_question_row _ _ _ Hq1) as (r & Hr & Ht & _);
      eauto.
Qed.

Lemma precompute_consensus_data_sets_witness :
  "t1"%string ∈ strong_agree_thoughts
    (Signals.precompute_consensus_data example_verbatim_map example_aggregate
       get_config).
Proof.
  apply (precompute_consensus_data_sets example_verbatim_map
           example_aggregate get_config "t1").
  exists "q1"%string,
    {| agg_Question_ID := "q1"; agg_Participant_ID := "p4";
       All_Agreement := Fin 0.9; Segment_Agreement := [] |}.
  split; [vm_compute; reflexivity|].
  split; [|vm_compute; reflexivity].
  split; [right; left; reflexivity|]. split; reflexivity.
Defined.

(** ** More on the Anti-Social Consensus score *)

(** The score as a function of the valid consensus votes. *)
Lemma calculate_asc_score_counts (participant_id : string)
    (binary_df : list binary_row) (cd : consensus_data) :
  calculate_asc_score participant_id binary_df cd =
    match spec_consensus_votes participant_id binary_df cd with
    | [] => None
    | votes =>
        Some (Q_of_nat (length (List.filter (spec_against_consensus cd) votes))
              / Q_of_nat (length votes))
    end.
Proof.
  rewrite spec_consensus_votes_filters. unfold calculate_asc_score.
  set (all := strong_agree_thoughts cd ∪ strong_disagree_thoughts cd).
  set (mine := filter (fun r => Participant_ID r = participant_id) binary_df).
  destruct (decide (all = ∅)) as [Hall|Hall].
  - assert (Hnil : filter (fun r => Thought_ID r ∈ all) mine = []).
    { apply filter_none. intros r. rewrite Hall. apply not_elem_of_empty. }
    rewrite Hnil. reflexivity.
  - destruct (filter (fun r => Thought_ID r ∈ all) mine) as [|r cv] eqn:Ecv;
      [reflexivity|].
    rewrite asc_fold. cbn [Nat.add].
    destruct (filter (fun r => is_Some (VoteNumeric r)) (r :: cv))
      as [|v valid]; reflexivity.
Qed.

(** X4.  An Anti-Social Consensus score that is not missing lies between 0
    and 1; it is 0 exactly when none of the participant's valid consensus
    votes goes against the consensus and 1 exactly when all of them do. *)
Theorem asc_score_range (participant_id : string)
    (binary_df : list binary_row) (cd : consensus_data) (score : Q) :
  calculate_asc_score participant_id binary_df cd = Some score ->
  let votes := spec_consensus_votes participant_id binary_df cd in
  0 <= score <= 1 /\
  (score == 0 <->
   forall r, In r votes -> spec_against_consensus cd r = false) /\
  (score == 1 <->
   forall r, In r votes -> spec_against_consensus cd r = true).
Proof.
  rewrite calculate_asc_score_counts. cbv zeta.
  destruct (spec_consensus_votes participant_id binary_df cd) as [|v votes];
    [discriminate|].
  intros [= <-].
  destruct (ratio_spec
              (length (List.filter (spec_against_consensus cd) (v :: votes)))
              (length (v :: votes))) as (Hr & H0 & H1);
    [cbn; lia | apply filter_length_le |].
  split; [exact Hr|]. split.
  - rewrite H0. apply filter_length_zero.
  - rewrite H1. apply filter_length_all.
Qed.

Lemma asc_score_range_witness :
  exists score,
    calculate_asc_score "p1" (load_binary example_votes) example_consensus
      = Some score /\ 0 <= score <= 1.
Proof.
  eexists. split; [vm_compute; reflexivity|].
  apply (asc_score_range "p1" (load_binary example_votes) example_consensus).
  vm_compute; reflexivity.
Defined.

Lemma filter_bool_Permutation {A} (f : A -> bool) (l l' : list A) :
  l ≡ₚ l' -> length (List.filter f l) = length (List.filter f l').
Proof.
  induction 1 as [|x l l' _ IH|x y l|l l' l'' _ IH1 _ IH2]; cbn.
  - reflexivity.
  - destruct (f x); cbn; now rewrite IH.
  - destruct (f x), (f y); reflexivity.
  - now rewrite IH1.
Qed.

(** X5.  The Anti-Social Consensus score does not depend on the order of
    the vote table, nor on rows that are not valid consensus votes of the
    participant (other participants, thoughts outside the consensus sets,
    missing votes); a raw row whose vote is not one of the four spellings
    the loader knows changes nothing either. *)
Theorem asc_score_insensitive (participant_id : string)
    (cd : consensus_data) :
  (forall binary_df binary_df' : list binary_row,
     binary_df ≡ₚ binary_df' ->
     calculate_asc_score participant_id binary_df cd =
     calculate_asc_score participant_id binary_df' cd) /\
  (forall (before after : list binary_row) (r : binary_row),
     ~ spec_valid_consensus_vote participant_id cd r ->
     calculate_asc_score participant_id (before ++ r :: after) cd =
     calculate_asc_score participant_id (before ++ after) cd) /\
  (forall (before after : list raw_binary_row) (r : raw_binary_row),
     map_vote (raw_Vote r) = None ->
     calculate_asc_score participant_id
       (load_binary (before ++ r :: after)) cd =
     calculate_asc_score participant_id (load_binary (before ++ after)) cd).
Proof.
  assert (Hdrop : forall (before after : list binary_row) (r : binary_row),
            ~ spec_valid_consensus_vote participant_id cd r ->
            calculate_asc_score participant_id (before ++ r :: after) cd =
            calculate_asc_score participant_id (before ++ after) cd).
  { intros before after r Hr. rewrite !calculate_asc_score_counts.
    unfold spec_consensus_votes.
    rewrite !filter_app, filter_cons.
    destruct (decide (spec_valid_consensus_vote participant_id cd r));
      [contradiction|reflexivity]. }
  split; [|split].
  - intros df df' Hperm. rewrite !calculate_asc_score_counts.
    assert (Hv : spec_consensus_votes participant_id df cd
                 ≡ₚ spec_consensus_votes participant_id df' cd)
      by (unfold spec_consensus_votes; now rewrite Hperm).
    pose proof (Permutation_length Hv) as Hlen.
    pose proof (filter_bool_Permutation (spec_against_consensus cd) _ _ Hv)
      as Hagainst.
    destruct (spec_consensus_votes participant_id df cd) as [|v votes],
             (spec_consensus_votes participant_id df' cd) as [|v' votes'];
      try discriminate; [reflexivity|].
    cbv zeta. now rewrite Hagainst, Hlen.
  - exact Hdrop.
  - intros before after r Hr. unfold load_binary.
    rewrite !List.map_app. cbn [List.map]. apply Hdrop.
    intros (_ & _ & [v Hv]). cbn in Hv. congruence.
Qed.

Lemma asc_score_insensitive_witness :
  calculate_asc_score "p1"
    (load_binary
       ({| raw_Participant_ID := "p1"; raw_Thought_ID := "t1";
           raw_Vote := CStr "AGREE"; raw_Timestamp := None |}
        :: example_votes)) example_consensus =
  calculate_asc_score "p1" (load_binary example_votes) example_consensus.
Proof.
  refine (proj2 (proj2 (asc_score_insensitive "p1" example_consensus))
            [] example_votes _ _).
  reflexivity.
Defined.

(** ** The range of normalised values *)

Lemma ratio_in_unit (a b : Q) : 0 <= a <= b -> 0 < b -> 0 <= a / b <= 1.
Proof.
  intros [Ha Hab] Hb. split.
  - apply Qle_shift_div_l; [exact Hb|]. lra.
  - apply Qle_shift_div_r; [exact Hb|]. lra.
Qed.

Lemma invert_nan_or_unit (invert : bool) (x : pyfloat) :
  nan_or_unit x ->
  nan_or_unit (if invert then Float.sub (Fin 1) x else x).
Proof.
  intros H. destruct invert; [|exact H].
  destruct H as [->|(q & -> & Hq)]; [now left|].
  right. exists (1 + - q). split; [reflexivity|]. lra.
Qed.

Lemma normalize_cell_nan_or_unit (min_val max_val : Q) (invert : bool)
    (reasonable_max : option Q) (c : option Q) :
  (forall v, c = Some v -> min_val <= v <= max_val) ->
  nan_or_unit (normalize_cell min_val max_val invert reasonable_max c).
Proof.
  intros Hc. destruct c as [v|]; [|now left].
  specialize (Hc v eq_refl). unfold normalize_cell.
  apply invert_nan_or_unit.
  destruct (Qeq_bool min_val max_val) eqn:Erange.
  { right. exists 0.5. split; [reflexivity|]. split; discriminate. }
  apply Qeq_bool_false in Erange.
  assert (Hlin : nan_or_unit
            (Float.div (Fin (v - min_val)) (Fin (max_val - min_val)))).
  { rewrite div_Fin by (intros E; apply Erange; lra).
    right. eexists; split; [reflexivity|]. apply ratio_in_unit; lra. }
  destruct reasonable_max as [rmax|]; [|exact Hlin].
  destruct (Float.Qlt_bool rmax max_val) eqn:Ecap; [|exact Hlin].
  destruct (Float.Qlt_bool rmax v) eqn:Ev.
  { right. exists 1. split; [reflexivity|]. split; discriminate. }
  apply Qlt_bool_false in Ev.
  destruct (Qeq_bool (rmax - min_val) 0) eqn:Ez.
  - left. cbn. rewrite Ez. apply Qeq_bool_iff in Ez.
    assert (E0 : v - min_val == 0) by lra.
    unfold Float.sgn. unfold Qeq in E0. cbn in E0.
    replace (Qnum (v - min_val)) with 0%Z by (cbn; lia). reflexivity.
  - apply Qeq_bool_false in Ez. rewrite div_Fin by exact Ez.
    right. eexists; split; [reflexivity|]. apply ratio_in_unit; lra.
Qed.

Lemma present_in_filled_range (series : Series.t) (v : Q) :
  In (Some v) series ->
  let filled := Series.fillna (Series.median series) series in
  Series.Qmin_list filled <= v <= Series.Qmax_list filled.
Proof.
  intros Hv. cbv zeta.
  assert (Hin : In v (Series.fillna (Series.median series) series))
    by (apply In_dropna_fillna, In_dropna, Hv).
  split; [now apply Qmin_list_le | now apply Qmax_list_ge].
Qed.

Lemma min_max_normalize_length (series : Series.t) (invert : bool)
    (reasonable_max : option Q) :
  length (min_max_normalize series invert reasonable_max) = length series.
Proof.
  destruct (Series.isna_all series) eqn:Hna.
  - unfold min_max_normalize. rewrite Hna. apply List.length_map.
  - rewrite min_max_normalize_cells by exact Hna. apply List.length_map.
Qed.

Lemma normalized_nan_or_unit (series : Series.t) (invert : bool)
    (reasonable_max : option Q) (i : nat) (x : pyfloat) :
  min_max_normalize series invert reasonable_max !! i = Some x ->
  nan_or_unit x.
Proof.
  destruct (Series.isna_all series) eqn:Hna.
  - unfold min_max_normalize. rewrite Hna.
    rewrite map_fmap, list_lookup_fmap.
    destruct (series !! i) as [c|] eqn:Hi; [|discriminate].
    intros [= <-]. left.
    assert (Hc : Series.isna c = true).
    { unfold Series.isna_all in Hna. rewrite forallb_forall in Hna.
      apply Hna, list_elem_of_In. eapply list_elem_of_lookup_2; eauto. }
    destruct c; [discriminate|reflexivity].
  - rewrite min_max_normalize_cells by exact Hna.
    rewrite map_fmap, list_lookup_fmap.
    destruct (series !! i) as [c|] eqn:Hi; [|discriminate].
    intros [= <-]. apply normalize_cell_nan_or_unit.
    intros v ->. apply present_in_filled_range.
    apply list_elem_of_In. eapply list_elem_of_lookup_2; eauto.
Qed.

(** X6.  For every series, inversion flag and cap, [min_max_normalize]
    returns a series of the same length in which every value is missing
    (NaN) or a number between 0 and 1. *)
Theorem min_max_normalize_nan_or_unit (series : Series.t) (invert : bool)
    (reasonable_max : option Q) :
  length (min_max_normalize series invert reasonable_max) = length series /\
  forall (i : nat) (x : pyfloat),
    min_max_normalize series invert reasonable_max !! i = Some x ->
    nan_or_unit x.
Proof.
  split; [apply min_max_normalize_length|].
  intros i x. apply normalized_nan_or_unit.
Qed.

(** ** The range of the fused score *)

Lemma col_scale_below (c : list pyfloat) (w : Q) (i : nat) :
  col_ok nan_or_unit c i -> 0 <= w ->
  col_ok (nan_or_below w) (col_scale c w) i.
Proof.
  intros Hc Hw z. unfold col_scale. rewrite map_fmap, list_lookup_fmap.
  destruct (c !! i) as [x|] eqn:Hx; [|discriminate]. intros [= <-].
  destruct (Hc x Hx) as [->|(q & -> & Hq)]; [now left|].
  right. exists (q * w). split; [reflexivity|]. now apply scaled_unit.
Qed.

Lemma col_add_below (a b : list pyfloat) (wa wb : Q) (i : nat) :
  col_ok (nan_or_below wa) a i -> col_ok (nan_or_below wb) b i ->
  col_ok (nan_or_below (wa + wb)) (col_add a b) i.
Proof.
  intros Ha Hb z Hz. unfold col_add in Hz.
  apply lookup_zip_with_Some in Hz as (x & y & -> & Hx & Hy).
  destruct (Ha x Hx) as [->|(qa & -> & Hqa)]; [now left|].
  destruct (Hb y Hy) as [->|(qb & -> & Hqb)]; [now left|].
  right. exists (qa + qb). split; [reflexivity|]. lra.
Qed.

Lemma col_below_one (c : list pyfloat) (w : Q) (i : nat) :
  col_ok (nan_or_below w) c i -> w == 1 -> col_ok nan_or_unit c i.
Proof.
  intros Hc Hw x Hx. destruct (Hc x Hx) as [->|(q & -> & Hq)]; [now left|].
  right. exists q. split; [reflexivity|]. lra.
Qed.

Lemma normalized_col_ok (series : Series.t) (invert : bool)
    (reasonable_max : option Q) (i : nat) :
  col_ok nan_or_unit (min_max_normalize series invert reasonable_max) i.
Proof. intros x. apply normalized_nan_or_unit. Qed.

Lemma scale_1_5_range (x : pyfloat) :
  nan_or_unit x ->
  Float.add (Float.mul x (Fin 4)) (Fin 1) = NaN \/
  exists q, Float.add (Float.mul x (Fin 4)) (Fin 1) = Fin q /\ 1 <= q <= 5.
Proof.
  intros [->|(q & -> & Hq)]; [now left|].
  right. exists (q * 4 + 1). split; [reflexivity|]. lra.
Qed.

(** X7.  With non-negative weights that sum to 1 in each weight set, every
    entry of PRI_Score_Heuristic and of PRI_Score that
    [normalize_and_calculate_pri] computes from a raw signal table is
    missing or between 0 and 1, and every entry of PRI_Scale_1_5 is missing
    or between 1 and 5, whatever the raw signals are. *)
Theorem pri_score_nan_or_unit (cfg : config) (df : signals_df) (i : nat) :
  weights_ok cfg ->
  let out := normalize_and_calculate_pri df cfg in
  (forall x, PRI_Score_Heuristic out !! i = Some x -> nan_or_unit x) /\
  (forall x, PRI_Score out !! i = Some x -> nan_or_unit x) /\
  (forall y, PRI_Scale_1_5 out !! i = Some y ->
     y = NaN \/ exists q, y = Fin q /\ 1 <= q <= 5).
Proof.
  intros (Hd & Hl & Hu & Ha & Hsum & Hd' & Hl' & Hu' & Ha' & Hj' & Hsum').
  cbv zeta.
  assert (Hscores :
    col_ok nan_or_unit
      (PRI_Score_Heuristic (normalize_and_calculate_pri df cfg)) i /\
    col_ok nan_or_unit (PRI_Score (normalize_and_calculate_pri df cfg)) i).
  { unfold normalize_and_calculate_pri.
    cbn [PRI_Score PRI_Score_Heuristic].
    pose proof (Qdiv_3 (ASC_WEIGHT cfg)) as E3.
    pose proof (Qdiv_4 (ASC_WEIGHT_LLM cfg)) as E4.
    assert (Hcol : forall c : option (list pyfloat),
              (forall l, c = Some l -> col_ok nan_or_unit l i) ->
              col_ok nan_or_unit (column c) i).
    { intros [l|] H; [now apply H|]. intros x. cbn. discriminate. }
    assert (HJ : col_ok nan_or_unit
              (column match LLM_Judge_Score df with
                      | Some s =>
                          if llm_judge_available df
                          then Some (min_max_normalize s false None)
                          else None
                      | None => None
                      end) i).
    { apply Hcol. intros l. destruct (LLM_Judge_Score df) as [s|];
        [|discriminate].
      destruct (llm_judge_available df); [|discriminate].
      intros [= <-]. apply normalized_col_ok. }
    destruct (asc_available df) eqn:Easc;
      destruct (llm_judge_available df) eqn:Ellm;
      cbn [weight heuristic_weights enhanced_weights String.eqb
           Ascii.eqb Bool.eqb column];
      split;
      (eapply col_below_one;
       [ repeat apply col_add_below; apply col_scale_below;
         try apply normalized_col_ok; try exact HJ; lra
       | lra ]). }
  destruct Hscores as [Hheur Hscore].
  split; [exact Hheur|]. split; [exact Hscore|].
  intros y.
  assert (Hscale : PRI_Scale_1_5 (normalize_and_calculate_pri df cfg) =
            List.map (fun x => Float.add (Float.mul x (Fin 4)) (Fin 1))
              (PRI_Score (normalize_and_calculate_pri df cfg)))
    by reflexivity.
  rewrite Hscale, map_fmap, list_lookup_fmap.
  destruct (PRI_Score (normalize_and_calculate_pri df cfg) !! i) as [x|] eqn:Ex;
    [|discriminate].
  intros [= <-]. apply scale_1_5_range. now apply Hscore.
Qed.

Lemma pri_score_nan_or_unit_witness :
  exists x,
    PRI_Score (normalize_and_calculate_pri example_signals get_config) !! 0%nat
      = Some x /\ nan_or_unit x.
Proof.
  eexists. split; [vm_compute; reflexivity|].
  refine (proj1 (proj2 (pri_score_nan_or_unit get_config example_signals 0
                          weights_ok_get_config)) _ _).
  vm_compute; reflexivity.
Defined.

(** ** Missing signals *)

Lemma add_nan_l (y : pyfloat) : Float.add NaN y = NaN.
Proof. reflexivity. Qed.

Lemma add_nan_r (x : pyfloat) : Float.add x NaN = NaN.
Proof. destruct x; reflexivity. Qed.

Lemma mul_nan_l (y : pyfloat) : Float.mul NaN y = NaN.
Proof. reflexivity. Qed.

Lemma col_term_sum (acc c : list pyfloat) (w : Q) (i : nat)
    (x y : pyfloat) :
  acc !! i = Some x -> c !! i = Some y ->
  col_add acc (col_scale c w) !! i
    = Some (Float.add x (Float.mul y (Fin w))).
Proof.
  intros Hx Hy. apply col_add_lookup; [exact Hx|].
  now apply col_scale_lookup.
Qed.

Lemma normalized_lookup_some (series : Series.t) (invert : bool)
    (reasonable_max : option Q) (i : nat) :
  (i < length series)%nat ->
  exists x, min_max_normalize series invert reasonable_max !! i = Some x /\
            (series !! i = Some None -> x = NaN).
Proof.
  intros Hi.
  destruct (lookup_lt_is_Some_2
              (min_max_normalize series invert reasonable_max) i) as [x Hx].
  { now rewrite min_max_normalize_length. }
  exists x. split; [exact Hx|]. intros Hnone.
  rewrite (min_max_normalize_missing _ invert reasonable_max _ Hnone) in Hx.
  congruence.
Qed.

(** X8.  A participant with a missing raw signal among those that enter
    the fusion (duration, tag percentage, universal disagreement, ASC when
    it is available, the judge score when it is available) gets a missing
    PRI_Score and a missing PRI_Scale_1_5: the weighted sum does not skip
    missing terms. *)
Theorem missing_signal_gives_missing_score (cfg : config) (df : signals_df)
    (n i : nat) :
  table_rows df n -> (i < n)%nat ->
  contributing_signal_missing df i ->
  let out := normalize_and_calculate_pri df cfg in
  PRI_Score out !! i = Some NaN /\ PRI_Scale_1_5 out !! i = Some NaN.
Proof.
  intros (LD & LL & LU & LA & LJ) Hi Hmiss. cbv zeta.
  assert (Hscore : PRI_Score (normalize_and_calculate_pri df cfg) !! i
                   = Some NaN).
  { unfold normalize_and_calculate_pri. cbn [PRI_Score].
    destruct (normalized_lookup_some (Duration_seconds df) false
                (Some (DURATION_REASONABLE_MAX cfg)) i) as (d & Hd & Nd);
      [lia|].
    destruct (normalized_lookup_some (LowQualityTag_Perc df) true None i)
      as (l & Hl & Nl); [lia|].
    destruct (normalized_lookup_some (UniversalDisagreement_Perc df) true
                None i) as (u & Hu & Nu); [lia|].
    destruct (normalized_lookup_some (ASC_Score_Raw df) true None i)
      as (a & Ha & Na); [lia|].
    unfold contributing_signal_missing in Hmiss.
    destruct (asc_available df) eqn:Easc;
      destruct (llm_judge_available df) eqn:Ellm; cbn [column];
      epose proof (col_scale_lookup _ _ i d Hd) as S1;
      epose proof (col_term_sum _ _ _ i _ l S1 Hl) as S2;
      epose proof (col_term_sum _ _ _ i _ u S2 Hu) as S3.
    - unfold llm_judge_available in Ellm.
      destruct (LLM_Judge_Score df) as [s|] eqn:Es; [|discriminate].
      destruct (normalized_lookup_some s false None i) as (j & Hj & Nj);
        [lia|].
      cbn [column].
      epose proof (col_term_sum _ _ _ i _ a S3 Ha) as S4.
      epose proof (col_term_sum _ _ _ i _ j S4 Hj) as S5.
      rewrite S5. f_equal.
      destruct Hmiss as [M|[M|[M|[[_ M]|[_ (s' & [= <-] & M)]]]]];
        [rewrite (Nd M)|rewrite (Nl M)|rewrite (Nu M)|rewrite (Na M)
        |rewrite (Nj M)];
        rewrite ?mul_nan_l, ?add_nan_l, ?add_nan_r; reflexivity.
    - epose proof (col_term_sum _ _ _ i _ a S3 Ha) as S4.
      rewrite S4. f_equal.
      destruct Hmiss as [M|[M|[M|[[_ M]|[M _]]]]]; [| | | |discriminate];
        [rewrite (Nd M)|rewrite (Nl M)|rewrite (Nu M)|rewrite (Na M)];
        rewrite ?mul_nan_l, ?add_nan_l, ?add_nan_r; reflexivity.
    - unfold llm_judge_available in Ellm.
      destruct (LLM_Judge_Score df) as [s|] eqn:Es; [|discriminate].
      destruct (normalized_lookup_some s false None i) as (j & Hj & Nj);
        [lia|].
      cbn [column].
      epose proof (col_term_sum _ _ _ i _ j S3 Hj) as S4.
      rewrite S4. f_equal.
      destruct Hmiss as [M|[M|[M|[[M _]|[_ (s' & [= <-] & M)]]]]];
        [| | |discriminate|];
        [rewrite (Nd M)|rewrite (Nl M)|rewrite (Nu M)|rewrite (Nj M)];
        rewrite ?mul_nan_l, ?add_nan_l, ?add_nan_r; reflexivity.
    - rewrite S3. f_equal.
      destruct Hmiss as [M|[M|[M|[[M _]|[M _]]]]];
        [| | |discriminate|discriminate];
        [rewrite (Nd M)|rewrite (Nl M)|rewrite (Nu M)];
        rewrite ?mul_nan_l, ?add_nan_l, ?add_nan_r; reflexivity. }
  split; [exact Hscore|].
  assert (Hscale : PRI_Scale_1_5 (normalize_and_calculate_pri df cfg) =
            List.map (fun x => Float.add (Float.mul x (Fin 4)) (Fin 1))
              (PRI_Score (normalize_and_calculate_pri df cfg)))
    by reflexivity.
  rewrite Hscale, map_fmap, list_lookup_fmap, Hscore. reflexivity.
Qed.

Lemma missing_signal_gives_missing_score_witness :
  PRI_Score (normalize_and_calculate_pri example_signals_missing get_config)
    !! 1%nat = Some NaN /\
  PRI_Scale_1_5 (normalize_and_calculate_pri example_signals_missing
                   get_config) !! 1%nat = Some NaN.
Proof.
  apply (missing_signal_gives_missing_score get_config
           example_signals_missing 3 1).
  - repeat split.
  - lia.
  - right. left. reflexivity.
Defined.

(** ** More on the unreliable participants *)

Lemma select_filter (f : pyfloat -> bool) (ids : list string)
    (scale : list pyfloat) :
  Scores.select (List.map f scale) ids =
    List.map fst
      (List.filter (fun row : string * pyfloat => f (snd row))
         (zip ids scale)).
Proof.
  revert ids. induction scale as [|x scale IH]; intros [|p ids]; cbn;
    try reflexivity.
  destruct (f x); cbn; now rewrite IH.
Qed.

Lemma select_sublist (f g : pyfloat -> bool) (ids : list string)
    (scale : list pyfloat) :
  (forall x, f x = true -> g x = true) ->
  Scores.select (List.map f scale) ids
    `sublist_of` Scores.select (List.map g scale) ids.
Proof.
  intros Hfg. revert ids.
  induction scale as [|x scale IH]; intros [|p ids]; cbn; try constructor.
  destruct (f x) eqn:Ef.
  - rewrite (Hfg x Ef). constructor. apply IH.
  - destruct (g x); [constructor|]; apply IH.
Qed.

Lemma lt_not_nan (x b : pyfloat) : Float.lt x b = true -> negb (Float.isnan x) = true.
Proof. destruct x, b; cbn; try discriminate; reflexivity. Qed.

Lemma le_not_nan (x b : pyfloat) : Float.le x b = true -> negb (Float.isnan x) = true.
Proof. destruct x, b; cbn; try discriminate; reflexivity. Qed.

(** Whatever the method, the outcome is a selection of the table by a mask
    that is false on missing scores, or an exception; the table is
    returned as it was. *)
Lemma identify_outcome (method : string) (threshold : option Q) (df : pri_df) :
  fst (identify_unreliable_participants method threshold df) = df /\
  (snd (identify_unreliable_participants method threshold df)
     = Raise ValueError \/
   exists f : pyfloat -> bool,
     (forall x, f x = true -> negb (Float.isnan x) = true) /\
     snd (identify_unreliable_participants method threshold df) =
       Ok (Scores.select (List.map f (PRI_Scale_1_5 df))
             (col_Participant_ID (signals df)))).
Proof.
  unfold identify_unreliable_participants, frame_bind, frame_read, frame_ret.
  destruct (Nat.eqb (length (Scores.dropna (PRI_Scale_1_5 df))) 0) eqn:Elen.
  { cbn [fst snd]. split; [reflexivity|]. right. exists (fun _ => false).
    split; [discriminate|]. now rewrite select_none. }
  destruct (String.eqb method "outliers").
  { destruct (quantile_quartiles (Scores.dropna (PRI_Scale_1_5 df)))
      as [[q1 E1] [q3 E3]].
    rewrite E1, E3. cbn [fst snd]. split; [reflexivity|]. right.
    eexists. split; [|reflexivity]. intros x. apply lt_not_nan. }
  destruct (String.eqb method "percentile").
  { destruct (Scores.quantile _ _) as [pt|e] eqn:Eq; cbn [fst snd].
    - split; [reflexivity|]. right.
      eexists. split; [|reflexivity]. intros x. apply le_not_nan.
    - split; [reflexivity|]. left. f_equal.
      unfold Scores.quantile in Eq. destruct (_ && _); congruence. }
  destruct (String.eqb method "threshold"); cbn [fst snd].
  - split; [reflexivity|]. right.
    eexists. split; [|reflexivity]. intros x. apply le_not_nan.
  - split; [reflexivity|]. now left.
Qed.

(** X9.  Whatever the method and the threshold,
    [identify_unreliable_participants] leaves the table as it was, fails
    only with a ValueError, and a list it returns is a selection, in table
    order, of the participants whose 1-5 score is not missing: a participant
    without a score is never reported. *)
Theorem identify_flags_only_scored_participants (method : string)
    (threshold : option Q) (df : pri_df) :
  fst (identify_unreliable_participants method threshold df) = df /\
  (forall e, snd (identify_unreliable_participants method threshold df)
               = Raise e -> e = ValueError) /\
  (forall ids, snd (identify_unreliable_participants method threshold df)
                 = Ok ids -> ids `sublist_of` spec_scored df).
Proof.
  destruct (identify_outcome method threshold df) as [Hfst Hsnd].
  split; [exact Hfst|]. split.
  - intros e He. destruct Hsnd as [H|(f & _ & H)]; congruence.
  - intros ids Hids. destruct Hsnd as [H|(f & Hf & H)]; [congruence|].
    rewrite H in Hids. injection Hids as <-.
    unfold spec_scored.
    rewrite <- (select_filter (fun x => negb (Float.isnan x))).
    now apply select_sublist.
Qed.

Lemma identify_flags_only_scored_participants_witness :
  ["a"%string] `sublist_of` spec_scored example_scored_low.
Proof.
  apply (identify_flags_only_scored_participants "outliers" None
           example_scored_low).
  vm_compute. reflexivity.
Defined.

(** X10.  The errors of [identify_unreliable_participants]: when no
    participant has a score the result is the empty list, whatever the
    method name; when some participant has one, a method other than
    "outliers", "percentile" and "threshold" is a ValueError, and so is a
    percentile threshold below 0 or above 100. *)
Theorem identify_error_behaviour (method : string) (threshold : option Q)
    (df : pri_df) :
  (Scores.dropna (PRI_Scale_1_5 df) = [] ->
   snd (identify_unreliable_participants method threshold df) = Ok []) /\
  (Scores.dropna (PRI_Scale_1_5 df) <> [] ->
   known_method method = false ->
   snd (identify_unreliable_participants method threshold df)
     = Raise ValueError) /\
  (Scores.dropna (PRI_Scale_1_5 df) <> [] ->
   forall t, threshold = Some t -> t < 0 \/ 100 < t ->
   snd (identify_unreliable_participants "percentile" threshold df)
     = Raise ValueError).
Proof.
  unfold identify_unreliable_participants, frame_bind, frame_read, frame_ret.
  split; [|split].
  - intros ->. reflexivity.
  - intros Hne Hm. unfold known_method in Hm.
    apply orb_false_iff in Hm as [Hm Ht].
    apply orb_false_iff in Hm as [Ho Hp].
    destruct (Scores.dropna (PRI_Scale_1_5 df)) as [|x l]; [congruence|].
    cbn [length Nat.eqb]. rewrite Ho, Hp, Ht. reflexivity.
  - intros Hne t -> Ht.
    destruct (Scores.dropna (PRI_Scale_1_5 df)) as [|x l] eqn:E; [congruence|].
    cbn [length Nat.eqb String.eqb Ascii.eqb Bool.eqb].
    unfold Scores.quantile.
    assert (Hrange : Qle_bool 0 (t / 100) && Qle_bool (t / 100) 1 = false).
    { apply andb_false_iff. destruct Ht as [Ht|Ht].
      - left. destruct (Qle_bool 0 (t / 100)) eqn:Eb; [|reflexivity].
        apply Qle_bool_iff in Eb.
        assert (Hd : t == t / 100 * 100) by field. lra.
      - right. destruct (Qle_bool (t / 100) 1) eqn:Eb; [|reflexivity].
        apply Qle_bool_iff in Eb.
        assert (Hd : t == t / 100 * 100) by field. lra. }
    rewrite Hrange. reflexivity.
Qed.

Lemma identify_error_behaviour_witness :
  snd (identify_unreliable_participants "zscore" None example_scored)
    = Raise ValueError /\
  snd (identify_unreliable_participants "percentile" (Some 150)
         example_scored) = Raise ValueError.
Proof.
  split.
  - apply (identify_error_behaviour "zscore" None example_scored).
    + discriminate.
    + reflexivity.
  - apply (identify_error_behaviour "percentile" (Some 150) example_scored)
      with (t := 150).
    + discriminate.
    + reflexivity.
    + right. reflexivity.
Defined.

Lemma dropna_nil_le (b : pyfloat) (scale : list pyfloat) :
  Scores.dropna scale = [] ->
  List.map (fun x => Float.le x b) scale = List.map (fun _ => false) scale.
Proof.
  induction scale as [|x scale IH]; cbn; [reflexivity|].
  destruct x; cbn; try discriminate. intros H. now rewrite IH.
Qed.

Lemma Float_le_fin_mono (x : pyfloat) (t1 t2 : Q) :
  t1 <= t2 -> Float.le x (Fin t1) = true -> Float.le x (Fin t2) = true.
Proof.
  intros Ht. destruct x; cbn; try (intros; assumption).
  rewrite !Qle_bool_iff. lra.
Qed.

(** X11.  With the method "threshold" the participants reported are
    exactly those whose 1-5 score is at most the threshold, in table order;
    the threshold defaults to 2.5; and raising the threshold only adds
    participants. *)
Theorem identify_threshold_cutoff (df : pri_df) :
  (forall t,
     snd (identify_unreliable_participants "threshold" (Some t) df)
       = Ok (spec_at_most t df)) /\
  snd (identify_unreliable_participants "threshold" None df)
    = Ok (spec_at_most 2.5 df) /\
  (forall t1 t2, t1 <= t2 ->
     spec_at_most t1 df `sublist_of` spec_at_most t2 df).
Proof.
  assert (Hcut : forall t,
    snd (identify_unreliable_participants "threshold" (Some t) df)
      = Ok (spec_at_most t df)).
  { intros t.
    unfold identify_unreliable_participants, frame_bind, frame_read, frame_ret.
    unfold spec_at_most.
    rewrite <- (select_filter (fun x => Float.le x (Fin t))).
    destruct (Nat.eqb (length (Scores.dropna (PRI_Scale_1_5 df))) 0) eqn:Elen.
    - cbn [fst snd]. apply Nat.eqb_eq, length_zero_iff_nil in Elen.
      now rewrite (dropna_nil_le _ _ Elen), select_none.
    - reflexivity. }
  split; [exact Hcut|]. split; [exact (Hcut 2.5)|].
  intros t1 t2 Ht. unfold spec_at_most.
  rewrite <- !(select_filter (fun x => Float.le x (Fin _))).
  apply select_sublist. intros x. now apply Float_le_fin_mono.
Qed.

Lemma identify_threshold_cutoff_witness :
  spec_at_most 2.5 example_scored `sublist_of` spec_at_most 3 example_scored.
Proof.
  apply (identify_threshold_cutoff example_scored). discriminate.
Defined.

(** ** Universal disagreement *)

Lemma count_ratio_spec {A} (f : A -> bool) (l : list A) :
  l <> [] ->
  0 <= Q_of_nat (length (List.filter f l)) / Q_of_nat (length l) <= 1 /\
  (Q_of_nat (length (List.filter f l)) / Q_of_nat (length l) == 0 <->
   forall x, In x l -> f x = false) /\
  (Q_of_nat (length (List.filter f l)) / Q_of_nat (length l) == 1 <->
   forall x, In x l -> f x = true).
Proof.
  intros Hl.
  destruct (ratio_spec (length (List.filter f l)) (length l))
    as (Hr & H0 & H1).
  - destruct l; [congruence|cbn; lia].
  - apply filter_length_le.
  - split; [exact Hr|]. split.
    + now rewrite H0, filter_length_zero.
    + now rewrite H1, filter_length_all.
Qed.

Lemma In_unique (seen : gset string) (l : list string) (x : string) :
  In x (unique seen l) <-> In x l /\ x ∉ seen.
Proof.
  revert seen. induction l as [|y l IH]; intros seen; cbn; [tauto|].
  destruct (decide (y ∈ seen)) as [Hy|Hy].
  - rewrite IH. split; [tauto|]. intros [[<-|H] Hx]; [contradiction|tauto].
  - cbn. rewrite IH, not_elem_of_union, not_elem_of_singleton.
    destruct (decide (y = x)) as [->|Hne]; [tauto|]. split.
    + intros [H|(H & _ & Hx)]; [contradiction|tauto].
    + intros [[H|H] Hx]; [contradiction|]. right. auto.
Qed.

Lemma In_authored_thought_ids (participant_id : string)
    (verbatim_map_df : list verbatim_row) (t : string) :
  In t (Disagreement.authored_thought_ids participant_id verbatim_map_df) <->
  exists r, In r verbatim_map_df /\ vm_Participant_ID r = participant_id /\
            vm_Thought_ID r = t.
Proof.
  unfold Disagreement.authored_thought_ids.
  rewrite In_unique, in_map_iff. split.
  - intros [(r & Ht & Hr) _].
    apply list_elem_of_In, list_elem_of_filter in Hr as [Hp Hr].
    exists r. rewrite <- list_elem_of_In. auto.
  - intros (r & Hr & Hp & Ht). split; [|apply not_elem_of_empty].
    exists r. split; [exact Ht|].
    apply list_elem_of_In, list_elem_of_filter. rewrite list_elem_of_In. auto.
Qed.

Lemma In_authored_thoughts_data (participant_id : string)
    (verbatim_map_df : list verbatim_row)
    (aggregate_std_df : list aggregate_row) (major_segments : list string)
    (d : Disagreement.thought_data) :
  In d (Disagreement.authored_thoughts_data participant_id verbatim_map_df
          aggregate_std_df major_segments) <->
  exists r, In r verbatim_map_df /\ vm_Participant_ID r = participant_id /\
    Disagreement.authored_thought participant_id verbatim_map_df
      aggregate_std_df major_segments (vm_Thought_ID r) = Some d.
Proof.
  unfold Disagreement.authored_thoughts_data.
  rewrite <- list_elem_of_In, list_elem_of_omap. split.
  - intros (t & Ht & Hd).
    apply list_elem_of_In, In_authored_thought_ids in Ht
      as (r & Hr & Hp & <-).
    exists r. auto.
  - intros (r & Hr & Hp & Hd). exists (vm_Thought_ID r). split; [|exact Hd].
    apply list_elem_of_In, In_authored_thought_ids. exists r. auto.
Qed.

(** The dictionary of a thought is determined by the thought's question. *)
Lemma authored_thought_by_question (participant_id : string)
    (verbatim_map_df : list verbatim_row)
    (aggregate_std_df : list aggregate_row) (major_segments : list string)
    (t1 t2 : string) (d1 d2 : Disagreement.thought_data) :
  Disagreement.authored_thought participant_id verbatim_map_df
    aggregate_std_df major_segments t1 = Some d1 ->
  Disagreement.authored_thought participant_id verbatim_map_df
    aggregate_std_df major_segments t2 = Some d2 ->
  Disagreement.td_Question_ID d1 = Disagreement.td_Question_ID d2 ->
  Disagreement.td_All_Agreement d1 = Disagreement.td_All_Agreement d2 /\
  Disagreement.td_Max_Segment_Agreement d1
    = Disagreement.td_Max_Segment_Agreement d2.
Proof.
  unfold Disagreement.authored_thought.
  destruct (filter (fun r => vm_Thought_ID r = t1) verbatim_map_df)
    as [|q1 ?]; [discriminate|].
  destruct (filter (fun r => vm_Thought_ID r = t2) verbatim_map_df)
    as [|q2 ?]; [discriminate|].
  cbv zeta.
  destruct (filter _ aggregate_std_df) as [|a1 ?] eqn:E1; [discriminate|].
  destruct (Float.isnan (All_Agreement a1)); [discriminate|].
  intros [= <-].
  destruct (filter (fun r => agg_Question_ID r = vm_Question_ID q2 /\ _)
              aggregate_std_df) as [|a2 ?] eqn:E2; [discriminate|].
  destruct (Float.isnan (All_Agreement a2)); [discriminate|].
  intros [= <-]. cbn. intros Hq. rewrite Hq in E1. rewrite E1 in E2.
  injection E2 as -> _. split; reflexivity.
Qed.

Lemma universal_disagreement_in_unit (participant_id : string)
    (verbatim_map_df : list verbatim_row)
    (aggregate_std_df : list aggregate_row) (major_segments : list string)
    (cfg : config) :
  0 <= Disagreement.calculate_universal_disagreement_percentage
         participant_id verbatim_map_df aggregate_std_df major_segments cfg
    <= 1.
Proof.
  unfold Disagreement.calculate_universal_disagreement_percentage.
  destruct (Disagreement.authored_thought_ids _ _) as [|t ts]; [lra|].
  destruct (Disagreement.authored_thoughts_data _ _ _ _) as [|d l] eqn:E;
    [lra|].
  cbn [length Nat.ltb Nat.leb].
  change (S (length l)) with (length (d :: l)).
  apply (count_ratio_spec (Disagreement.is_universally_disagreed cfg)
           (d :: l)). discriminate.
Qed.

(** X12.  The universal-disagreement percentage of a participant is a
    fraction between 0 and 1 of the participant's evaluated thoughts (those
    whose question has an aggregate row of the participant with an agreement
    rate): 0 exactly when none of them is universally disagreed, so also
    when there is none, and 1 exactly when there is one and all of them
    are.  The verdict on a thought is read from the first aggregate row of
    its question and the participant, so that two evaluated thoughts on the
    same question always get the same verdict. *)
Theorem universal_disagreement_range (participant_id : string)
    (verbatim_map_df : list verbatim_row)
    (aggregate_std_df : list aggregate_row) (major_segments : list string)
    (cfg : config) :
  let r := Disagreement.calculate_universal_disagreement_percentage
             participant_id verbatim_map_df aggregate_std_df major_segments
             cfg in
  let evaluated d :=
    exists row, In row verbatim_map_df /\
      vm_Participant_ID row = participant_id /\
      Disagreement.authored_thought participant_id verbatim_map_df
        aggregate_std_df major_segments (vm_Thought_ID row) = Some d in
  let disagreed := Disagreement.is_universally_disagreed cfg in
  0 <= r <= 1 /\
  (r == 0 <-> forall d, evaluated d -> disagreed d = false) /\
  (r == 1 <-> (exists d, evaluated d) /\
              forall d, evaluated d -> disagreed d = true) /\
  (forall d1 d2, evaluated d1 -> evaluated d2 ->
     Disagreement.td_Question_ID d1 = Disagreement.td_Question_ID d2 ->
     disagreed d1 = disagreed d2).
Proof.
  cbv zeta. split; [apply universal_disagreement_in_unit|].
  assert (Hdata := In_authored_thoughts_data participant_id verbatim_map_df
                     aggregate_std_df major_segments).
  assert (Hne1 : ~ (0:Q) == 1) by discriminate.
  split; [|split].
  - unfold Disagreement.calculate_universal_disagreement_percentage.
    destruct (Disagreement.authored_thought_ids _ _) as [|t ts] eqn:Ei.
    { split; [|reflexivity]. intros _ d Hd. apply Hdata in Hd.
      unfold Disagreement.authored_thoughts_data in Hd. rewrite Ei in Hd.
      destruct Hd. }
    destruct (Disagreement.authored_thoughts_data _ _ _ _) as [|d l] eqn:E.
    { split; [|reflexivity]. intros _ d Hd. apply Hdata in Hd. destruct Hd. }
    cbn [length Nat.ltb Nat.leb].
    change (S (length l)) with (length (d :: l)).
    destruct (count_ratio_spec (Disagreement.is_universally_disagreed cfg)
                (d :: l)) as (_ & H0 & _); [discriminate|].
    rewrite H0. split; intros H x Hx; apply H, Hdata, Hx.
  - unfold Disagreement.calculate_universal_disagreement_percentage.
    destruct (Disagreement.authored_thought_ids _ _) as [|t ts] eqn:Ei.
    { split; [intros E; destruct (Hne1 E)|].
      intros [[d Hd] _]. apply Hdata in Hd.
      unfold Disagreement.authored_thoughts_data in Hd. rewrite Ei in Hd.
      destruct Hd. }
    destruct (Disagreement.authored_thoughts_data _ _ _ _) as [|d l] eqn:E.
    { split; [intros E'; destruct (Hne1 E')|].
      intros [[d Hd] _]. apply Hdata in Hd. destruct Hd. }
    cbn [length Nat.ltb Nat.leb].
    change (S (length l)) with (length (d :: l)).
    destruct (count_ratio_spec (Disagreement.is_universally_disagreed cfg)
                (d :: l)) as (_ & _ & H1); [discriminate|].
    rewrite H1. split.
    + intros H. split.
      * exists d. apply Hdata. now left.
      * intros x Hx. apply H, Hdata, Hx.
    + intros [_ H] x Hx. apply H, Hdata, Hx.
  - intros d1 d2 (r1 & _ & _ & H1) (r2 & _ & _ & H2) Hq.
    destruct (authored_thought_by_question _ _ _ _ _ _ _ _ H1 H2 Hq)
      as [Ha Hm].
    unfold Disagreement.is_universally_disagreed. now rewrite Ha, Hm.
Qed.

(** ** The judge's score *)

Lemma Q_of_nat_S (n : nat) : Q_of_nat (S n) == Q_of_nat n + 1.
Proof.
  unfold Q_of_nat. rewrite Nat2Z.inj_succ. unfold Z.succ.
  rewrite inject_Z_plus. change (inject_Z 1) with 1. lra.
Qed.

Lemma monotone_proper (fl : Q -> Q) (a b : Q) :
  (forall a b, a <= b -> fl a <= fl b) -> a == b -> fl a == fl b.
Proof.
  intros Hmono E. apply Qle_antisym; apply Hmono; lra.
Qed.

(** The rounded sum of [k] scores between 0 and 1, started at an
    accumulator between 0 and [j], lies between 0 and [j + k]. *)
Lemma float_sum_bounds (fl : Q -> Q) (bound : nat) (l : list Q) :
  (forall a b, a <= b -> fl a <= fl b) ->
  (forall n, (n <= bound)%nat -> fl (Q_of_nat n) == Q_of_nat n) ->
  (forall s, In s l -> 0 <= s <= 1) ->
  forall (j : nat) (acc : Q),
    (j + length l <= bound)%nat -> 0 <= acc <= Q_of_nat j ->
    0 <= fold_left (fun acc x => fl (acc + x)) l acc
      <= Q_of_nat (j + length l).
Proof.
  intros Hmono Hnat. induction l as [|x l IH]; intros Hl j acc Hj Hacc.
  - cbn [fold_left length]. now rewrite Nat.add_0_r.
  - cbn [fold_left length] in *.
    destruct (Hl x (or_introl eq_refl)) as [Hx0 Hx1].
    replace (j + S (length l))%nat with (S j + length l)%nat by lia.
    apply IH.
    + intros s Hs. apply Hl. now right.
    + lia.
    + split.
      * pose proof (Hmono 0 (acc + x) ltac:(lra)) as H.
        pose proof (Hnat 0%nat ltac:(lia)) as H0.
        change (Q_of_nat 0) with 0 in H0. lra.
      * pose proof (Hmono (acc + x) (Q_of_nat (S j))) as H.
        pose proof (Q_of_nat_S j) as HS.
        pose proof (Hnat (S j) ltac:(lia)) as HSj.
        specialize (H ltac:(lra)). lra.
Qed.

Lemma rounded_mean_in_unit (fl : Q -> Q) (total : Q) (n : nat) :
  (forall a b, a <= b -> fl a <= fl b) ->
  fl 0 == 0 -> fl 1 == 1 -> (0 < n)%nat ->
  0 <= total <= Q_of_nat n ->
  0 <= fl (total / Q_of_nat n) <= 1.
Proof.
  intros Hmono E0 E1 Hn Ht.
  assert (Hpos : 0 < Q_of_nat n).
  { unfold Q_of_nat, Qlt. cbn. lia. }
  set (mean := total / Q_of_nat n).
  assert (Hmean : 0 <= mean <= 1).
  { unfold mean. split.
    - apply Qle_shift_div_l; [exact Hpos|]. lra.
    - apply Qle_shift_div_r; [exact Hpos|]. lra. }
  pose proof (Hmono 0 mean (proj1 Hmean)) as Hlo.
  pose proof (Hmono mean 1 (proj2 Hmean)) as Hhi. lra.
Qed.

Lemma float_sum_in_range (fl : Q -> Q) (bound : nat) (l : list Q) :
  (forall a b, a <= b -> fl a <= fl b) ->
  (forall n, (n <= bound)%nat -> fl (Q_of_nat n) == Q_of_nat n) ->
  (length l <= bound)%nat ->
  (forall s, In s l -> 0 <= s <= 1) ->
  0 <= LLMJudge.float_sum fl l <= Q_of_nat (length l).
Proof.
  intros Hmono Hnat Hlen Hl. unfold LLMJudge.float_sum.
  apply (float_sum_bounds fl bound l Hmono Hnat Hl 0 0).
  - cbn. lia.
  - change (Q_of_nat 0) with 0. lra.
Qed.

Lemma valid_scores_of_responding (results : list LLMJudge.judge_result) :
  omap LLMJudge.valid_score
    (List.filter (fun r => bool_decide (is_Some (LLMJudge.valid_score r)))
       results)
  = omap LLMJudge.valid_score results.
Proof.
  induction results as [|r results IH]; [reflexivity|].
  cbn [List.filter].
  destruct (LLMJudge.valid_score r) as [s|] eqn:E.
  - rewrite bool_decide_eq_true_2 by eauto. cbn. rewrite E. now rewrite IH.
  - rewrite bool_decide_eq_false_2 by (intros [? ?]; discriminate).
    cbn. rewrite E. exact IH.
Qed.

Lemma length_valid_scores (results : list LLMJudge.judge_result) :
  (length (omap LLMJudge.valid_score results) <= length results)%nat.
Proof.
  induction results as [|r results IH]; [cbn; lia|].
  cbn. destruct (LLMJudge.valid_score r); cbn; lia.
Qed.

(** X13.  The judge's score of a participant is the neutral 0.5 when the
    participant has no evaluatable response or no model returned a score;
    otherwise it is the mean of the scores returned, computed in floats:
    the built-in sum of the scores divided by their number, the division
    rounded.  For a rounding that is monotone and exact on the integers up
    to the number of models, the score lies between 0 and 1 whenever the
    sum of the k scores returned lies between 0 and k, which is so, when
    the scores lie between 0 and 1, for the sum whose additions are taken
    from left to right and rounded; and calls that raised or returned no
    score do not change the score. *)
Theorem llm_judge_score_average {R} (builtin_sum : list Q -> Q)
    (fl : Q -> Q) (responses : list R)
    (results : list LLMJudge.judge_result) :
  (forall a b, a <= b -> fl a <= fl b) ->
  (forall n, (n <= length results)%nat -> fl (Q_of_nat n) == Q_of_nat n) ->
  let score sum :=
    fst (LLMJudge.calculate_llm_judge_score sum fl responses results) in
  let valid_scores := omap LLMJudge.valid_score results in
  (responses = [] \/ valid_scores = [] -> score builtin_sum = 0.5) /\
  (responses <> [] -> valid_scores <> [] ->
   score builtin_sum =
     fl (builtin_sum valid_scores / Q_of_nat (length valid_scores))) /\
  (0 <= builtin_sum valid_scores <= Q_of_nat (length valid_scores) ->
   0 <= score builtin_sum <= 1) /\
  ((forall s, In s valid_scores -> 0 <= s <= 1) ->
   0 <= LLMJudge.float_sum fl valid_scores
     <= Q_of_nat (length valid_scores) /\
   0 <= score (LLMJudge.float_sum fl) <= 1) /\
  score builtin_sum =
    fst (LLMJudge.calculate_llm_judge_score builtin_sum fl responses
           (List.filter
              (fun r => bool_decide (is_Some (LLMJudge.valid_score r)))
              results)).
Proof.
  intros Hmono Hnat. cbv zeta. unfold LLMJudge.calculate_llm_judge_score.
  rewrite valid_scores_of_responding.
  assert (Hhalf : 0 <= 0.5 <= 1) by lra.
  pose proof (length_valid_scores results) as Hlen.
  assert (Hsum : (forall s, In s (omap LLMJudge.valid_score results) ->
                            0 <= s <= 1) ->
                 0 <= LLMJudge.float_sum fl
                        (omap LLMJudge.valid_score results)
                   <= Q_of_nat (length (omap LLMJudge.valid_score results))).
  { intros Hl.
    apply (float_sum_in_range fl (length results) _ Hmono Hnat Hlen Hl). }
  destruct responses as [|r0 responses].
  { cbn [fst]. split; [reflexivity|]. split; [congruence|].
    split; [intros _; exact Hhalf|]. split; [|reflexivity].
    intros Hl. split; [exact (Hsum Hl)|exact Hhalf]. }
  destruct (omap LLMJudge.valid_score results) as [|s l] eqn:E.
  { cbn [fst]. split; [reflexivity|]. split; [congruence|].
    split; [intros _; exact Hhalf|]. split; [|reflexivity].
    intros Hl. split; [exact (Hsum Hl)|exact Hhalf]. }
  cbn [fst]. split; [intros [H|H]; discriminate H|].
  split; [reflexivity|].
  assert (Hbound : (1 <= length results)%nat) by (cbn in Hlen; lia).
  pose proof (Hnat 0%nat ltac:(lia)) as E0.
  pose proof (Hnat 1%nat Hbound) as E1.
  change (Q_of_nat 0) with 0 in E0. change (Q_of_nat 1) with 1 in E1.
  split; [|split; [|reflexivity]].
  - intros Ht.
    apply (rounded_mean_in_unit fl _ (length (s :: l)) Hmono E0 E1);
      [cbn; lia|exact Ht].
  - intros Hl. split; [exact (Hsum Hl)|].
    apply (rounded_mean_in_unit fl _ (length (s :: l)) Hmono E0 E1);
      [cbn; lia|exact (Hsum Hl)].
Qed.

Lemma example_rounding_monotone (a b : Q) :
  a <= b -> example_rounding a <= example_rounding b.
Proof.
  intros Hab. unfold example_rounding.
  assert (Hz : (Qfloor (a * 4503599627370496 + (1 # 2))
                <= Qfloor (b * 4503599627370496 + (1 # 2)))%Z)
    by (apply Qfloor_resp_le; lra).
  apply Qle_shift_div_l; [reflexivity|].
  assert (E : inject_Z (Qfloor (a * 4503599627370496 + (1 # 2)))
              / 4503599627370496 * 4503599627370496
              == inject_Z (Qfloor (a * 4503599627370496 + (1 # 2))))
    by (field; discriminate).
  rewrite E. rewrite <- Zle_Qle. exact Hz.
Qed.

Lemma example_rounding_nat (n : nat) :
  example_rounding (Q_of_nat n) == Q_of_nat n.
Proof.
  unfold example_rounding, Q_of_nat.
  assert (E : Qfloor (inject_Z (Z.of_nat n) * 4503599627370496 + (1 # 2))
              = (Z.of_nat n * 4503599627370496)%Z).
  { set (x := inject_Z (Z.of_nat n) * 4503599627370496 + (1 # 2)).
    set (M := (Z.of_nat n * 4503599627370496)%Z).
    assert (Ex : x == inject_Z M + (1 # 2)).
    { unfold x, M. rewrite inject_Z_mult.
      change (inject_Z 4503599627370496) with 4503599627370496. lra. }
    pose proof (Qfloor_le x) as H1. pose proof (Qlt_floor x) as H2.
    rewrite inject_Z_plus in H2. change (inject_Z 1) with 1 in H2.
    assert (Ha : inject_Z (Qfloor x) < inject_Z (M + 1)).
    { rewrite inject_Z_plus. change (inject_Z 1) with 1. lra. }
    assert (Hb : inject_Z M < inject_Z (Qfloor x + 1)).
    { rewrite inject_Z_plus. change (inject_Z 1) with 1. lra. }
    rewrite <- Zlt_Qlt in Ha, Hb. lia. }
  rewrite E, inject_Z_mult.
  change (inject_Z 4503599627370496) with 4503599627370496.
  field.
Qed.

Lemma llm_judge_score_average_witness :
  0 <= fst (LLMJudge.calculate_llm_judge_score
              (LLMJudge.float_sum example_rounding) example_rounding
              ["a response"%string]
              [LLMJudge.JReturn "m1" (Some 0.8) "earnest and specific";
               LLMJudge.JException (OtherError "timeout");
               LLMJudge.JReturn "m3" None "Parse error";
               LLMJudge.JReturn "m2" (Some 0.8) "short answers";
               LLMJudge.JReturn "m4" (Some 0.8) "consistent"]) <= 1.
Proof.
  refine (proj2 (proj1 (proj2 (proj2 (proj2
    (llm_judge_score_average (LLMJudge.float_sum example_rounding)
       example_rounding _ _ _ _)))) _)).
  - exact example_rounding_monotone.
  - intros n _. apply example_rounding_nat.
  - intros s [<-|[<-|[<-|[]]]]; lra.
Defined.

(** ** The batches of the judge run *)

Lemma total_batches_spec (B n : nat) :
  (0 < B)%nat ->
  (n <= (n + B - 1) / B * B)%nat /\ ((n + B - 1) / B * B < n + B)%nat.
Proof.
  intros HB.
  pose proof (Nat.div_mod_eq (n + B - 1) B) as E.
  pose proof (Nat.mod_upper_bound (n + B - 1) B ltac:(lia)) as Hm.
  nia.
Qed.

Lemma batches_concat (B : nat) (ids : list string) (k : nat) :
  concat (List.map (LLMJudge.batch_participants B ids) (seq 0 k))
    = take (k * B) ids.
Proof.
  induction k as [|k IH]; [reflexivity|].
  rewrite seq_S, List.map_app, concat_app, IH. cbn [List.map concat].
  rewrite app_nil_r. unfold LLMJudge.batch_participants. cbn [Nat.add].
  assert (E : take (Nat.min (k * B + B) (length ids)) ids
              = take (k * B + B) ids).
  { destruct (Nat.le_ge_cases (k * B + B) (length ids)) as [H|H].
    - now rewrite Nat.min_l.
    - rewrite Nat.min_r by exact H. now rewrite !firstn_all2 by lia. }
  rewrite E.
  replace (S k * B)%nat with (k * B + B)%nat by lia.
  rewrite <- (take_drop (k * B) (take (k * B + B) ids)) at 2.
  f_equal. rewrite take_take. f_equal. lia.
Qed.

Lemma batch_participants_length (B : nat) (ids : list string) (i : nat) :
  length (LLMJudge.batch_participants B ids i)
    = (Nat.min (i * B + B) (length ids) - i * B)%nat.
Proof.
  unfold LLMJudge.batch_participants.
  rewrite length_drop, length_take. lia.
Qed.

Lemma store_batch_app (judge : string -> pyresult Q)
    (results : gmap string Q) (l1 l2 : list string) :
  LLMJudge.store_batch judge results (l1 ++ l2)
    = LLMJudge.store_batch judge (LLMJudge.store_batch judge results l1) l2.
Proof. unfold LLMJudge.store_batch. apply fold_left_app. Qed.

Lemma store_batches_concat (judge : string -> pyresult Q)
    (batches : list (list string)) (results : gmap string Q) :
  fold_left (fun results batch => LLMJudge.store_batch judge results batch)
    batches results
  = LLMJudge.store_batch judge results (concat batches).
Proof.
  revert results. induction batches as [|b batches IH]; intros results;
    [reflexivity|].
  cbn [fold_left concat]. now rewrite IH, store_batch_app.
Qed.

Lemma store_batch_lookup (judge : string -> pyresult Q) (ids : list string)
    (results : gmap string Q) (participant_id : string) :
  LLMJudge.store_batch judge results ids !! participant_id =
    if decide (participant_id ∈ ids)
    then Some (LLMJudge.process_participant_with_semaphore judge
                 participant_id)
    else results !! participant_id.
Proof.
  revert results. induction ids as [|p ids IH]; intros results.
  - cbn. destruct (decide _) as [H|H]; [|reflexivity].
    now apply elem_of_nil in H.
  - change (LLMJudge.store_batch judge results (p :: ids)) with
      (LLMJudge.store_batch judge
         (<[ p := LLMJudge.process_participant_with_semaphore judge p ]>
            results) ids).
    rewrite IH.
    destruct (decide (participant_id ∈ ids)) as [H|H].
    + rewrite decide_True by (now right). reflexivity.
    + destruct (decide (participant_id = p)) as [->|Hne].
      * rewrite decide_True by left. now rewrite lookup_insert_eq.
      * rewrite decide_False
          by (intros [?|?]%elem_of_cons; contradiction).
        now rewrite lookup_insert_ne by congruence.
Qed.

Lemma fold_left_over_map {A B C} (f : A -> B -> A) (g : C -> B)
    (l : list C) (a : A) :
  fold_left f (List.map g l) a = fold_left (fun a x => f a (g x)) l a.
Proof. revert a. induction l as [|x l IH]; intros a; cbn; auto. Qed.

Lemma batch_process_unbatched (B : nat) (judge : string -> pyresult Q)
    (ids : list string) :
  (0 < B)%nat ->
  LLMJudge.batch_process_llm_judge B judge ids
    = LLMJudge.store_batch judge ∅ ids.
Proof.
  intros HB. unfold LLMJudge.batch_process_llm_judge.
  rewrite <- (fold_left_over_map
                (fun results batch => LLMJudge.store_batch judge results batch)
                (LLMJudge.batch_participants B ids)).
  rewrite store_batches_concat, batches_concat.
  unfold LLMJudge.total_batches.
  destruct (total_batches_spec B (length ids) HB) as [H _].
  now rewrite firstn_all2 by exact H.
Qed.

(** X14.  The batches of [batch_process_llm_judge] partition the
    participants: concatenated in order they give the list back, no batch is
    empty or larger than the batch size, every batch but the last is full,
    and there is no batch exactly when there is no participant. *)
Theorem batches_partition_participants (BATCH_SIZE : nat)
    (participant_ids : list string) :
  (0 < BATCH_SIZE)%nat ->
  let total_batches := LLMJudge.total_batches BATCH_SIZE participant_ids in
  let batch := LLMJudge.batch_participants BATCH_SIZE participant_ids in
  concat (List.map batch (seq 0 total_batches)) = participant_ids /\
  (forall i, (i < total_batches)%nat ->
     (0 < length (batch i) <= BATCH_SIZE)%nat) /\
  (forall i, (S i < total_batches)%nat -> length (batch i) = BATCH_SIZE) /\
  (total_batches = 0%nat <-> participant_ids = []).
Proof.
  intros HB. cbv zeta. unfold LLMJudge.total_batches.
  destruct (total_batches_spec BATCH_SIZE (length participant_ids) HB)
    as [H1 H2].
  split; [|split; [|split]].
  - rewrite batches_concat. now rewrite firstn_all2 by exact H1.
  - intros i Hi. rewrite batch_participants_length. nia.
  - intros i Hi. rewrite batch_participants_length. nia.
  - rewrite <- length_zero_iff_nil. split; intros H; [nia|].
    rewrite H. cbn [Nat.add]. apply Nat.div_small. lia.
Qed.

Lemma batches_partition_participants_witness :
  concat (List.map (LLMJudge.batch_participants 2 ["a"; "b"; "c"; "d"; "e"]%string)
            (seq 0 (LLMJudge.total_batches 2 ["a"; "b"; "c"; "d"; "e"]%string)))
    = ["a"; "b"; "c"; "d"; "e"]%string.
Proof.
  apply (batches_partition_participants 2 ["a"; "b"; "c"; "d"; "e"]%string).
  lia.
Defined.

(** X15.  [batch_process_llm_judge] stores a score for every participant
    it is given and for nobody else: the score the judge returned, or the
    neutral 0.5 when judging the participant raised.  Hence, with the judge
    enabled, every row of [calculate_all_pri_signals] carries that score,
    and the fallback for a participant missing from the batch results is
    never taken. *)
Theorem batch_results_complete (BATCH_SIZE : nat)
    (judge : string -> pyresult Q) (participant_ids : list string) :
  (0 < BATCH_SIZE)%nat ->
  let neutral_on_error participant_id :=
    match judge participant_id with Ok score => score | Raise _ => 0.5 end in
  (forall participant_id,
     LLMJudge.batch_process_llm_judge BATCH_SIZE judge participant_ids
       !! participant_id =
     if decide (participant_id ∈ participant_ids)
     then Some (neutral_on_error participant_id) else None) /\
  (forall (calc : signal_calculators) (all_participant_ids : list string)
          (participant_limit : option Z) (r : result_dict),
     In r (calculate_all_pri_signals calc all_participant_ids
             participant_limit true true
             (LLMJudge.batch_process_llm_judge BATCH_SIZE judge)) ->
     r_LLM_Judge_Score r = Some (Some (neutral_on_error (r_Participant_ID r)))).
Proof.
  intros HB. cbv zeta.
  assert (Hlookup : forall ids participant_id,
    LLMJudge.batch_process_llm_judge BATCH_SIZE judge ids !! participant_id =
    if decide (participant_id ∈ ids)
    then Some (match judge participant_id with
               | Ok score => score | Raise _ => 0.5 end)
    else None).
  { intros ids participant_id.
    rewrite (batch_process_unbatched _ _ _ HB), store_batch_lookup.
    destruct (decide _); [|apply lookup_empty].
    unfold LLMJudge.process_participant_with_semaphore, try_except_Exception.
    reflexivity. }
  split; [apply Hlookup|].
  intros calc all_ids limit r Hr.
  unfold calculate_all_pri_signals in Hr. cbn [andb] in Hr. cbv zeta in Hr.
  apply in_map_iff in Hr as (r0 & <- & Hr0).
  cbn [update_llm_score r_LLM_Judge_Score r_Participant_ID].
  rewrite Hlookup.
  rewrite decide_True; [reflexivity|].
  apply list_elem_of_In, in_map. exact Hr0.
Qed.

Lemma batch_results_complete_witness :
  LLMJudge.batch_process_llm_judge 100
    (fun participant_id =>
       if String.eqb participant_id "p2" then Raise (OtherError "timeout")
       else Ok 0.8)
    ["p1"; "p2"; "p3"]%string !! "p2"%string = Some 0.5.
Proof.
  refine (proj1 (batch_results_complete 100 _ ["p1"; "p2"; "p3"]%string _)
            "p2"%string).
  lia.
Defined.

(** ** The order of normalised values *)

Lemma div_le_div (a b d : Q) : 0 < d -> a <= b -> a / d <= b / d.
Proof.
  intros Hd Hab. apply Qle_shift_div_l; [exact Hd|].
  assert (E : a / d * d == a) by (field; lra). lra.
Qed.

Lemma div_le_1 (a d : Q) : 0 < d -> a <= d -> a / d <= 1.
Proof. intros Hd Ha. apply Qle_shift_div_r; [exact Hd|]. lra. Qed.

Lemma div_Fin_inv (a b p : Q) :
  Float.div (Fin a) (Fin b) = Fin p -> ~ b == 0 /\ p = a / b.
Proof.
  cbn. destruct (Qeq_bool b 0) eqn:E.
  - destruct (Float.sgn a); cbn; discriminate.
  - intros [= <-]. split; [now apply Qeq_bool_false|reflexivity].
Qed.

Lemma normalize_cell_monotone (min_val max_val : Q) (invert : bool)
    (reasonable_max : option Q) (a b p q : Q) :
  min_val <= a -> a <= b -> b <= max_val ->
  normalize_cell min_val max_val invert reasonable_max (Some a) = Fin p ->
  normalize_cell min_val max_val invert reasonable_max (Some b) = Fin q ->
  if invert then q <= p else p <= q.
Proof.
  intros Hmin Hab Hmax. unfold normalize_cell.
  assert (Hinv : forall x y p q : pyfloat, forall p' q' : Q,
            (forall x' y', x = Fin x' -> y = Fin y' -> x' <= y') ->
            (if invert then Float.sub (Fin 1) x else x) = Fin p' ->
            (if invert then Float.sub (Fin 1) y else y) = Fin q' ->
            if invert then q' <= p' else p' <= q').
  { intros x y _ _ p' q' Hxy. destruct invert.
    - destruct x as [x'| | |], y as [y'| | |]; cbn; try discriminate.
      intros [= <-] [= <-]. specialize (Hxy x' y' eq_refl eq_refl). lra.
    - intros -> ->. now apply Hxy. }
  apply (Hinv _ _ NaN NaN). clear Hinv p q.
  intros p q.
  destruct (Qeq_bool min_val max_val) eqn:Erange.
  { intros [= <-] [= <-]. apply Qle_refl. }
  apply Qeq_bool_false in Erange.
  assert (Hlin : Float.div (Fin (a - min_val)) (Fin (max_val - min_val))
                   = Fin p ->
                 Float.div (Fin (b - min_val)) (Fin (max_val - min_val))
                   = Fin q -> p <= q).
  { intros [_ ->]%div_Fin_inv [_ ->]%div_Fin_inv.
    apply div_le_div; lra. }
  destruct reasonable_max as [rmax|]; [|exact Hlin].
  destruct (Float.Qlt_bool rmax max_val) eqn:Ecap; [|exact Hlin].
  destruct (Float.Qlt_bool rmax a) eqn:Ea.
  - apply Qlt_bool_true in Ea.
    assert (Eb : Float.Qlt_bool rmax b = true) by (apply Qlt_bool_true; lra).
    rewrite Eb. intros [= <-] [= <-]. apply Qle_refl.
  - apply Qlt_bool_false in Ea.
    intros [Hnz ->]%div_Fin_inv.
    destruct (Float.Qlt_bool rmax b) eqn:Eb.
    + intros [= <-]. apply div_le_1; lra.
    + apply Qlt_bool_false in Eb.
      intros [_ ->]%div_Fin_inv. apply div_le_div; lra.
Qed.

(** X16.  [min_max_normalize] keeps the order of the raw values: of two
    participants with present raw values and normalised values that are
    numbers, the one with the larger raw value has the larger or equal
    normalised value, and the smaller or equal one when the signal is
    inverted; with or without the cap. *)
Theorem min_max_normalize_monotone (series : Series.t) (invert : bool)
    (reasonable_max : option Q) (i j : nat) (a b p q : Q) :
  series !! i = Some (Some a) -> series !! j = Some (Some b) ->
  a <= b ->
  min_max_normalize series invert reasonable_max !! i = Some (Fin p) ->
  min_max_normalize series invert reasonable_max !! j = Some (Fin q) ->
  if invert then q <= p else p <= q.
Proof.
  intros Hi Hj Hab.
  assert (Hna : Series.isna_all series = false).
  { unfold Series.isna_all. apply not_true_is_false. intros Hall.
    rewrite forallb_forall in Hall.
    specialize (Hall (Some a)
      (proj1 (list_elem_of_In _ _) (list_elem_of_lookup_2 _ _ _ Hi))).
    discriminate. }
  rewrite (min_max_normalize_lookup _ _ _ _ _ Hna Hi).
  rewrite (min_max_normalize_lookup _ _ _ _ _ Hna Hj).
  intros [= Hp] [= Hq].
  destruct (present_in_filled_range series a
              (proj1 (list_elem_of_In _ _) (list_elem_of_lookup_2 _ _ _ Hi)))
    as [Ha _].
  destruct (present_in_filled_range series b
              (proj1 (list_elem_of_In _ _) (list_elem_of_lookup_2 _ _ _ Hj)))
    as [_ Hb].
  exact (normalize_cell_monotone _ _ _ _ _ _ _ _ Ha Hab Hb Hp Hq).
Qed.

Lemma min_max_normalize_monotone_witness :
  exists p q,
    min_max_normalize [Some 60; Some 600; Some 6000] false (Some 5400)
      !! 0%nat = Some (Fin p) /\
    min_max_normalize [Some 60; Some 600; Some 6000] false (Some 5400)
      !! 1%nat = Some (Fin q) /\ p <= q.
Proof.
  eexists _, _. split; [vm_compute; reflexivity|].
  split; [vm_compute; reflexivity|].
  refine (min_max_normalize_monotone [Some 60; Some 600; Some 6000] false
            (Some 5400) 0 1 60 600 _ _ _ _ _ _ _);
    try reflexivity.
  discriminate.
Defined.

(** ** More on the signal table *)

Lemma calculate_all_pri_signals_ids (calc : signal_calculators)
    (all_participant_ids : list string) (participant_limit : option Z)
    (enable_llm_judge evaluatable_questions : bool)
    (batch_process_llm_judge : list string -> gmap string Q) :
  List.map r_Participant_ID
    (calculate_all_pri_signals calc all_participant_ids participant_limit
       enable_llm_judge evaluatable_questions batch_process_llm_judge)
  = processed_ids all_participant_ids participant_limit.
Proof.
  unfold calculate_all_pri_signals. cbv zeta. rewrite signal_loop_map.
  assert (H : forall en ids,
            List.map r_Participant_ID
              (List.map (process_participant calc en) ids) = ids).
  { intros en ids. rewrite List.map_map.
    rewrite <- (List.map_id ids) at 2. apply List.map_ext.
    intros p. apply process_participant_id. }
  destruct (enable_llm_judge && evaluatable_questions).
  - rewrite List.map_map.
    rewrite (List.map_ext _ r_Participant_ID) by (intros r; reflexivity).
    apply H.
  - apply H.
Qed.

(** X17.  The rows under a participant limit: a limit of at least 0 keeps
    the first [limit] participants (all of them when the limit exceeds their
    number, none for 0); a negative limit, which Python's slice reads from
    the end, drops the last [-limit] participants. *)
Theorem participant_limit_slice (calc : signal_calculators)
    (all_participant_ids : list string) (limit : Z)
    (enable_llm_judge evaluatable_questions : bool)
    (batch_process_llm_judge : list string -> gmap string Q) :
  let results :=
    calculate_all_pri_signals calc all_participant_ids (Some limit)
      enable_llm_judge evaluatable_questions batch_process_llm_judge in
  let ids := List.map r_Participant_ID results in
  let n := length all_participant_ids in
  ((0 <= limit)%Z ->
   ids = take (Z.to_nat limit) all_participant_ids /\
   length results = Nat.min (Z.to_nat limit) n) /\
  ((limit < 0)%Z ->
   ids = take (n - Z.to_nat (- limit)) all_participant_ids /\
   length results = (n - Z.to_nat (- limit))%nat) /\
  ((Z.of_nat n <= limit)%Z -> ids = all_participant_ids) /\
  ((limit = 0 \/ limit <= - Z.of_nat n)%Z -> results = []).
Proof.
  cbv zeta.
  set (results := calculate_all_pri_signals _ _ _ _ _ _).
  assert (Hids : List.map r_Participant_ID results
                 = processed_ids all_participant_ids (Some limit))
    by apply calculate_all_pri_signals_ids.
  assert (Hlen : length results
                 = length (processed_ids all_participant_ids (Some limit)))
    by (rewrite <- Hids; now rewrite length_map).
  rewrite Hids, Hlen. clear Hids.
  unfold processed_ids, slice_to.
  set (n := length all_participant_ids).
  assert (Htake : forall k, (n <= k)%nat ->
            take k all_participant_ids = all_participant_ids)
    by (intros k Hk; apply firstn_all2; exact Hk).
  split; [|split; [|split]].
  - intros Hl. rewrite (proj2 (Z.leb_le _ _)) by lia.
    rewrite length_take. fold n.
    split; [|lia].
    destruct (Z.min_spec limit (Z.of_nat n)) as [[H ->]|[H ->]];
      [reflexivity|].
    rewrite Nat2Z.id. rewrite !Htake by lia. reflexivity.
  - intros Hl. rewrite Z.min_l by lia.
    rewrite (proj2 (Z.leb_gt _ _)) by lia.
    rewrite length_take. fold n.
    replace (Z.to_nat (Z.of_nat n + limit)) with (n - Z.to_nat (- limit))%nat
      by lia.
    split; [reflexivity|lia].
  - intros Hl. rewrite Z.min_r by lia.
    rewrite (proj2 (Z.leb_le _ _)) by lia.
    rewrite Nat2Z.id. now apply Htake.
  - intros Hl. apply length_zero_iff_nil. rewrite Hlen.
    unfold processed_ids, slice_to. fold n.
    destruct (0 <=? Z.min limit (Z.of_nat n))%Z eqn:E;
      rewrite length_take; fold n.
    + apply Z.leb_le in E. lia.
    + apply Z.leb_gt in E. lia.
Qed.

Lemma participant_limit_slice_witness :
  List.map r_Participant_ID
    (calculate_all_pri_signals example_calculators
       ["p1"; "p2"; "p3"]%string (Some (-1)%Z) false false (fun _ => ∅))
  = ["p1"; "p2"]%string.
Proof.
  refine (proj1 (proj1 (proj2 (participant_limit_slice example_calculators
            ["p1"; "p2"; "p3"]%string (-1) false false (fun _ => ∅))) _)).
  reflexivity.
Defined.

(** *** The signals of the source calculators *)

Lemma calculate_duration_nonneg (participant_id : string)
    (binary_df : list binary_row) (preference_df : list preference_row)
    (d : Z) :
  Signals.calculate_duration participant_id binary_df preference_df = Ok d ->
  (0 <= d)%Z.
Proof.
  unfold Signals.calculate_duration. cbv zeta.
  destruct (_ ++ _) as [|a [|b l]]; cbn [length Nat.ltb Nat.leb];
    try (intros [= <-]; lia).
  cbn [Signals.Zmax_list Signals.Zmin_list]. unfold Signals.timestamp_sub.
  destruct (fold_Zmin_spec (b :: l) a) as [Hmin _].
  destruct (fold_Zmax_spec (b :: l) a) as [Hmax _].
  specialize (Hmin a (or_introl eq_refl)).
  specialize (Hmax a (or_introl eq_refl)).
  destruct (_ <? _)%Z; [discriminate|]. intros [= <-].
  cbn [fold_left] in Hmin, Hmax. lia.
Qed.

Lemma low_quality_in_unit (participant_id : string)
    (thought_labels_df : labels_df) :
  0 <= Signals.calculate_low_quality_tag_percentage participant_id
         thought_labels_df <= 1.
Proof.
  unfold Signals.calculate_low_quality_tag_percentage.
  destruct (Signals.labels_empty _); [lra|]. cbv zeta.
  destruct (filter _ (label_rows thought_labels_df)) as [|p0 pl]; [lra|].
  destruct (List.filter Signals.is_tag_column _) as [|t0 ts]; [lra|].
  rewrite count_true_map. cbn [length Nat.ltb Nat.leb].
  change (S (length pl)) with (length (p0 :: pl)).
  apply (count_ratio_spec _ (p0 :: pl)). discriminate.
Qed.

Lemma asc_score_in_unit (participant_id : string)
    (binary_df : list binary_row) (cd : consensus_data) (score : Q) :
  calculate_asc_score participant_id binary_df cd = Some score ->
  0 <= score <= 1.
Proof.
  rewrite calculate_asc_score_counts.
  destruct (spec_consensus_votes participant_id binary_df cd) as [|v votes];
    [discriminate|].
  intros [= <-]. apply (count_ratio_spec _ (v :: votes)). discriminate.
Qed.

(** X18.  With the calculators of the source, every row of the signal
    table belongs to a participant of the binary vote table.  When the
    participant's timestamps lie too far apart for [calculate_duration],
    which then raises, the row is the error row: its four signals are
    missing.  Otherwise it holds a duration of at least 0 seconds, a
    low-quality tag percentage and a universal-disagreement percentage
    between 0 and 1, and the participant's ASC score, which is missing or
    between 0 and 1. *)
Theorem source_signals_in_range (binary_df : list binary_row)
    (preference_df : list preference_row) (thought_labels_df : labels_df)
    (verbatim_map_df : list verbatim_row)
    (aggregate_std_df : list aggregate_row) (major_segments : list string)
    (cfg : config) (participant_limit : option Z)
    (enable_llm_judge evaluatable_questions : bool)
    (batch_process_llm_judge : list string -> gmap string Q)
    (r : result_dict) :
  let calc :=
    source_calculators binary_df preference_df thought_labels_df
      verbatim_map_df aggregate_std_df major_segments cfg in
  In r (calculate_all_pri_signals calc (all_participant_ids binary_df)
          participant_limit enable_llm_judge evaluatable_questions
          batch_process_llm_judge) ->
  (exists row, In row binary_df /\ Participant_ID row = r_Participant_ID r) /\
  match Signals.calculate_duration (r_Participant_ID r) binary_df
          preference_df with
  | Raise _ =>
      r_Duration_seconds r = None /\ r_LowQualityTag_Perc r = None /\
      r_UniversalDisagreement_Perc r = None /\ r_ASC_Score_Raw r = None
  | Ok d =>
      r_Duration_seconds r = Some (inject_Z d) /\ (0 <= d)%Z /\
      (exists x, r_LowQualityTag_Perc r = Some x /\ 0 <= x <= 1) /\
      (exists u, r_UniversalDisagreement_Perc r = Some u /\ 0 <= u <= 1) /\
      r_ASC_Score_Raw r =
        calculate_asc_score (r_Participant_ID r) binary_df
          (Signals.precompute_consensus_data verbatim_map_df
             aggregate_std_df cfg) /\
      (forall a, r_ASC_Score_Raw r = Some a -> 0 <= a <= 1)
  end.
Proof.
  cbv zeta. intros Hr.
  set (calc := source_calculators _ _ _ _ _ _ _) in *.
  assert (Hid : In (r_Participant_ID r) (all_participant_ids binary_df)).
  { assert (H : In (r_Participant_ID r)
                  (processed_ids (all_participant_ids binary_df)
                     participant_limit)).
    { rewrite <- (calculate_all_pri_signals_ids calc _ _ enable_llm_judge
                    evaluatable_questions batch_process_llm_judge).
      now apply in_map. }
    destruct (processed_ids_prefix (all_participant_ids binary_df)
                participant_limit) as [k Hk].
    rewrite Hk. apply in_or_app. now left. }
  assert (Hrow : exists p en,
            r_Participant_ID r = p /\
            r_Duration_seconds r
              = r_Duration_seconds (process_participant calc en p) /\
            r_LowQualityTag_Perc r
              = r_LowQualityTag_Perc (process_participant calc en p) /\
            r_UniversalDisagreement_Perc r
              = r_UniversalDisagreement_Perc (process_participant calc en p) /\
            r_ASC_Score_Raw r
              = r_ASC_Score_Raw (process_participant calc en p)).
  { unfold calculate_all_pri_signals in Hr. cbv zeta in Hr.
    rewrite signal_loop_map in Hr.
    destruct (enable_llm_judge && evaluatable_questions).
    - apply in_map_iff in Hr as (r0 & <- & Hr0).
      apply in_map_iff in Hr0 as (p & <- & _).
      exists p, true. cbn [update_llm_score r_Participant_ID
        r_Duration_seconds r_LowQualityTag_Perc r_UniversalDisagreement_Perc
        r_ASC_Score_Raw].
      rewrite process_participant_id. repeat split; reflexivity.
    - apply in_map_iff in Hr as (p & <- & _).
      exists p, false. rewrite process_participant_id.
      repeat split; reflexivity. }
  destruct Hrow as (p & en & Ep & Ed & El & Eu & Ea).
  rewrite Ed, El, Eu, Ea, Ep. rewrite Ep in Hid. clear Ed El Eu Ea Ep Hr.
  split.
  { unfold all_participant_ids in Hid.
    apply In_unique in Hid as [Hid _].
    apply in_map_iff in Hid as (row & Hp & Hrow). exists row. auto. }
  unfold process_participant, calc, source_calculators.
  cbn [calculate_duration calculate_low_quality_tag_percentage
       calculate_universal_disagreement_percentage calculate_asc].
  destruct (Signals.calculate_duration p binary_df preference_df)
    as [d|e] eqn:Ed.
  - cbn [mbind pyresult_bind pybind try_except_Exception
         r_Participant_ID r_Duration_seconds r_LowQualityTag_Perc
         r_UniversalDisagreement_Perc r_ASC_Score_Raw].
    split; [reflexivity|]. split; [|split; [|split; [|split]]].
    + eapply calculate_duration_nonneg. exact Ed.
    + eexists; split; [reflexivity|]. apply low_quality_in_unit.
    + eexists; split; [reflexivity|]. apply universal_disagreement_in_unit.
    + reflexivity.
    + intros a. apply asc_score_in_unit.
  - cbn [mbind pyresult_bind pybind try_except_Exception error_dict
         r_Participant_ID r_Duration_seconds r_LowQualityTag_Perc
         r_UniversalDisagreement_Perc r_ASC_Score_Raw].
    repeat split; reflexivity.
Qed.

Lemma source_signals_in_range_witness :
  r_Duration_seconds
    (process_participant
       (source_calculators (load_binary example_votes) example_preferences
          {| label_columns := []; label_rows := [] |}
          example_verbatim_map example_aggregate [] get_config)
       false "p1") = Some (inject_Z 240) /\
  r_LowQualityTag_Perc
    (process_participant
       (source_calculators (load_binary example_votes)
          [ {| pref_Participant_ID := "p1";
               pref_Timestamp := Some 9300000000%Z |} ]
          {| label_columns := []; label_rows := [] |}
          example_verbatim_map example_aggregate [] get_config)
       false "p1") = None.
Proof.
  split.
  - pose proof (proj2 (source_signals_in_range (load_binary example_votes)
       example_preferences {| label_columns := []; label_rows := [] |}
       example_verbatim_map example_aggregate [] get_config None false false
       (fun _ => ∅) _ (or_introl eq_refl))) as H.
    exact (proj1 H).
  - pose proof (proj2 (source_signals_in_range (load_binary example_votes)
       [ {| pref_Participant_ID := "p1";
            pref_Timestamp := Some 9300000000%Z |} ]
       {| label_columns := []; label_rows := [] |}
       example_verbatim_map example_aggregate [] get_config None false false
       (fun _ => ∅) _ (or_introl eq_refl))) as H.
    exact (proj1 (proj2 H)).
Defined.

(** ** The size of a batch *)

Section JudgeBatchSize.

Import BatchLLM.

Lemma batch_size_step (p : params) (st st' : state) (ev : event) :
(length (batch st) <= BATCH_SIZE p)%nat -> step p st ev = Some st' ->
(length (batch st') <= BATCH_SIZE p)%nat.
Proof.
intros Hlen Hstep.
destruct ev as [|i|i|i|i]; cbn in Hstep.
- destruct (forallb is_done (batch st)); [|discriminate].
  destruct (later st) as [|h hs]; [discriminate|].
  injection Hstep as <-. cbn [batch].
  rewrite length_map, length_take. lia.
- destruct (batch st !! i) as [[calls|u f|]|]; try discriminate.
  destruct (permits st); [discriminate|].
  injection Hstep as <-. cbn [batch]. now rewrite length_insert.
- destruct (batch st !! i) as [[calls|[|u] f|]|]; try discriminate.
  injection Hstep as <-. cbn [batch]. now rewrite length_insert.
- destruct (batch st !! i) as [[calls|u [|f]|]|]; try discriminate.
  injection Hstep as <-. cbn [batch]. now rewrite length_insert.
- destruct (batch st !! i) as [[calls|[|u] [|f]|]|]; try discriminate.
  injection Hstep as <-. cbn [batch]. now rewrite length_insert.
Qed.

Lemma batch_size_run (p : params) (evs : list event) (st st' : state) :
(length (batch st) <= BATCH_SIZE p)%nat -> run p st evs = Some st' ->
(length (batch st') <= BATCH_SIZE p)%nat.
Proof.
revert st. induction evs as [|ev evs IH]; intros st Hlen Hrun; cbn in Hrun.
- now injection Hrun as <-.
- destruct (step p st ev) as [st1|] eqn:Hstep; [|discriminate].
  eapply IH; [|exact Hrun]. eapply batch_size_step; eauto.
Qed.

Lemma holding_weight_le_length (l : list task) :
(list_sum (List.map holding_weight l) <= length l)%nat.
Proof.
induction l as [|t l IH]; [cbn; lia|].
change (list_sum (List.map holding_weight (t :: l)))
  with (holding_weight t + list_sum (List.map holding_weight l))%nat.
cbn [length]. unfold holding_weight at 1. destruct (is_holding t); lia.
Qed.

Lemma waiting_not_holding (l : list task) (i calls : nat) :
l !! i = Some (Waiting calls) ->
(list_sum (List.map holding_weight l) < length l)%nat.
Proof.
revert i. induction l as [|t l IH]; intros [|i] Hi; try discriminate.
- cbn in Hi. injection Hi as ->.
  pose proof (holding_weight_le_length l) as H.
  change (list_sum (List.map holding_weight (Waiting calls :: l)))
    with (0 + list_sum (List.map holding_weight l))%nat.
  cbn [length]. lia.
- cbn in Hi. specialize (IH i Hi).
  change (list_sum (List.map holding_weight (t :: l)))
    with (holding_weight t + list_sum (List.map holding_weight l))%nat.
  cbn [length]. unfold holding_weight at 1. destruct (is_holding t); lia.
Qed.

Lemma all_done_no_holder (l : list task) :
forallb is_done l = true -> list_sum (List.map holding_weight l) = 0%nat.
Proof.
induction l as [|t l IH]; [reflexivity|]. cbn [forallb].
intros [Ht Hl]%andb_true_iff. destruct t; try discriminate.
cbn. now apply IH.
Qed.

(** X19.  When the batch size is at most the value of the semaphore, as
  with the constants of the source (100 and 200), every reachable state of
  the judge run has at most [BATCH_SIZE] tasks and at most
  [BATCH_SIZE * models] requests in flight, a waiting task can always enter
  the semaphore, and the semaphore is back at its initial value whenever all
  tasks of the batch are done. *)
Theorem semaphore_never_blocks (p : params) (participants : list bool)
  (st : state) :
(BATCH_SIZE p <= MAX_CONCURRENT_REQUESTS p)%nat ->
reachable p participants st ->
(length (batch st) <= BATCH_SIZE p)%nat /\
(in_flight st <= BATCH_SIZE p * models p)%nat /\
(forall i calls, batch st !! i = Some (Waiting calls) ->
   is_Some (step p st (Acquire i))) /\
(forallb is_done (batch st) = true ->
 permits st = MAX_CONCURRENT_REQUESTS p).
Proof.
intros Hcap [evs Hrun].
destruct (invariant_run p evs _ _ (invariant_init p participants) Hrun)
  as [Hperm Hok].
assert (Hlen : (length (batch st) <= BATCH_SIZE p)%nat).
{ eapply batch_size_run; [|exact Hrun]. cbn. lia. }
pose proof (in_flight_le_holders p _ Hok) as Hf.
pose proof (holding_weight_le_length (batch st)) as Hh.
unfold in_flight, holders in *. rewrite holders_sum in Hperm.
split; [exact Hlen|]. split; [nia|]. split.
- intros i calls Hi. pose proof (waiting_not_holding _ _ _ Hi) as Hw.
  cbn. rewrite Hi. destruct (permits st) as [|n] eqn:Ep; [lia|]. eauto.
- intros Hdone. rewrite (all_done_no_holder _ Hdone) in Hperm. lia.
Qed.

Lemma semaphore_never_blocks_witness :
(in_flight example_mid_run
 <= BATCH_SIZE source_params * models source_params)%nat /\
is_Some (step source_params example_mid_run (Acquire 2)) /\
in_flight example_mid_run = 2%nat /\ holders example_mid_run = 2%nat.
Proof.
destruct (semaphore_never_blocks source_params (repeat true 150)
            example_mid_run) as (_ & Hflight & Hacquire & _).
- cbn. lia.
- exists example_schedule. vm_compute. reflexivity.
- split; [exact Hflight|]. split; [|split; vm_compute; reflexivity].
  apply (Hacquire 2%nat 3%nat). vm_compute. reflexivity.
Defined.

End JudgeBatchSize.

(** ** A run with one participant *)

Lemma min_max_normalize_single (v : Q) (invert : bool)
    (reasonable_max : option Q) :
  exists x, min_max_normalize [Some v] invert reasonable_max = [Fin x] /\
            x == 0.5.
Proof.
  unfold min_max_normalize. cbn.
  assert (E : Qeq_bool v v = true) by (apply Qeq_bool_iff; reflexivity).
  rewrite E. destruct invert; cbn; eexists; split; try reflexivity.
Qed.

(** X20.  A run with a single participant whose duration, tag percentage
    and universal disagreement are present gives that participant the
    PRI_Score 0.5 and the 1-5 score 3, whatever the raw values, with or
    without an ASC score and a judge score, for weights that sum to 1 in
    each weight set: every normalised signal of a one-row table is 0.5. *)
Theorem single_participant_neutral_score (cfg : config)
    (participant_id : string) (duration low_quality disagreement : Q)
    (asc : option Q) (llm_judge : option (option Q)) :
  weights_ok cfg ->
  let df :=
    {| col_Participant_ID := [participant_id];
       Duration_seconds := [Some duration];
       LowQualityTag_Perc := [Some low_quality];
       UniversalDisagreement_Perc := [Some disagreement];
       ASC_Score_Raw := [asc];
       LLM_Judge_Score := option_map (fun j => [j]) llm_judge |} in
  let out := normalize_and_calculate_pri df cfg in
  exists score scale,
    PRI_Score out = [Fin score] /\ score == 0.5 /\
    PRI_Scale_1_5 out = [Fin scale] /\ scale == 3.
Proof.
  intros (Hd & Hl & Hu & Ha & Hsum & Hd' & Hl' & Hu' & Ha' & Hj' & Hsum').
  cbv zeta.
  assert (E3 : ASC_WEIGHT cfg / 3 == ASC_WEIGHT cfg * (1 # 3)) by field.
  assert (E4 : ASC_WEIGHT_LLM cfg / 4 == ASC_WEIGHT_LLM cfg * (1 # 4))
    by field.
  destruct (min_max_normalize_single duration false
              (Some (DURATION_REASONABLE_MAX cfg))) as (nd & End & Hnd).
  destruct (min_max_normalize_single low_quality true None)
    as (nl & Enl & Hnl).
  destruct (min_max_normalize_single disagreement true None)
    as (nu & Enu & Hnu).
  unfold normalize_and_calculate_pri, asc_available, llm_judge_available.
  cbn [Duration_seconds LowQualityTag_Perc UniversalDisagreement_Perc
       ASC_Score_Raw LLM_Judge_Score PRI_Score PRI_Scale_1_5].
  rewrite End, Enl, Enu.
  destruct asc as [a|]; destruct llm_judge as [[j|]|];
    cbn [option_map Series.isna_all forallb Series.isna negb andb column];
    try (destruct (min_max_normalize_single a true None)
           as (na & Ena & Hna); rewrite Ena);
    try (destruct (min_max_normalize_single j false None)
           as (nj & Enj & Hnj); rewrite Enj);
    cbn; eexists _, _;
    (split; [reflexivity|]); (split; [|split; [reflexivity|]]);
    rewrite Hnd, Hnl, Hnu; try rewrite Hna; try rewrite Hnj;
    try rewrite E3; try rewrite E4; lra.
Qed.

Lemma single_participant_neutral_score_witness :
  exists score scale,
    PRI_Score
      (normalize_and_calculate_pri
         {| col_Participant_ID := ["p1"%string];
            Duration_seconds := [Some 4200];
            LowQualityTag_Perc := [Some 0];
            UniversalDisagreement_Perc := [Some 0];
            ASC_Score_Raw := [Some 0];
            LLM_Judge_Score := None |} get_config) = [Fin score] /\
    score == 0.5 /\
    PRI_Scale_1_5
      (normalize_and_calculate_pri
         {| col_Participant_ID := ["p1"%string];
            Duration_seconds := [Some 4200];
            LowQualityTag_Perc := [Some 0];
            UniversalDisagreement_Perc := [Some 0];
            ASC_Score_Raw := [Some 0];
            LLM_Judge_Score := None |} get_config) = [Fin scale] /\
    scale == 3.
Proof.
  apply (single_participant_neutral_score get_config "p1" 4200 0 0 (Some 0)
           None).
  exact weights_ok_get_config.
Defined.

(** ** The percentile method *)

Lemma In_scores_insert_sorted (x y : pyfloat) (l : list pyfloat) :
  In x (Scores.insert_sorted y l) -> x = y \/ In x l.
Proof.
  induction l as [|z l IH]; cbn.
  - intros [<-|[]]. now left.
  - destruct (Float.le y z); cbn.
    + intros [<-|H]; [now left|now right].
    + intros [<-|H]; [right; now left|].
      destruct (IH H) as [->|H']; [now left|right; now right].
Qed.

Lemma In_scores_sort (x : pyfloat) (l : list pyfloat) :
  In x (Scores.sort l) -> In x l.
Proof.
  induction l as [|y l IH]; cbn; [tauto|].
  intros H. apply In_scores_insert_sorted in H as [->|H]; [now left|].
  right. now apply IH.
Qed.

Lemma length_scores_insert_sorted (y : pyfloat) (l : list pyfloat) :
  length (Scores.insert_sorted y l) = S (length l).
Proof.
  induction l as [|z l IH]; cbn; [reflexivity|].
  destruct (Float.le y z); cbn; [reflexivity|now rewrite IH].
Qed.

Lemma length_scores_sort (l : list pyfloat) :
  length (Scores.sort l) = length l.
Proof.
  unfold Scores.sort.
  induction l as [|y l IH]; cbn [fold_right]; [reflexivity|].
  rewrite length_scores_insert_sorted, IH. reflexivity.
Qed.

Lemma In_scores_dropna (x : pyfloat) (c : list pyfloat) :
  In x (Scores.dropna c) <-> In x c /\ Float.isnan x = false.
Proof.
  unfold Scores.dropna. rewrite filter_In.
  destruct (Float.isnan x); cbn; intuition congruence.
Qed.

Lemma lerp_at_least (x qa qb gamma : Q) :
  x <= qa -> x <= qb -> 0 <= gamma <= 1 ->
  exists pt, Scores.lerp (Fin qa) (Fin qb) gamma = Fin pt /\ x <= pt.
Proof.
  intros Ha Hb [Hg0 Hg1]. unfold Scores.lerp. cbn.
  assert (H1 : 0 <= (qb - x) * gamma) by (apply Qmult_le_0_compat; lra).
  assert (H2 : 0 <= (qa - x) * (1 - gamma))
    by (apply Qmult_le_0_compat; lra).
  destruct (Qle_bool 0.5 gamma); eexists; (split; [reflexivity|]).
  - assert (E : qb + - ((qb + - qa) * (1 - gamma)) - x
                == (qb - x) * gamma + (qa - x) * (1 - gamma)) by ring.
    lra.
  - assert (E : qa + (qb + - qa) * gamma - x
                == (qb - x) * gamma + (qa - x) * (1 - gamma)) by ring.
    lra.
Qed.

Lemma quantile_at_least (valid_scores : list pyfloat) (x q : Q) :
  valid_scores <> [] ->
  (forall y, In y valid_scores -> exists v, y = Fin v /\ x <= v) ->
  0 <= q <= 1 ->
  exists pt, Scores.quantile valid_scores q = Ok (Fin pt) /\ x <= pt.
Proof.
  intros Hne Hall [Hq0 Hq1]. unfold Scores.quantile.
  rewrite (proj2 (Qle_bool_iff 0 q) Hq0), (proj2 (Qle_bool_iff q 1) Hq1).
  cbn [andb]. cbv zeta.
  set (sorted := Scores.sort valid_scores).
  assert (Hlen : (0 < length sorted)%nat).
  { unfold sorted. rewrite length_scores_sort.
    destruct valid_scores; [congruence|cbn; lia]. }
  set (n := Z.of_nat (length sorted)).
  assert (Hn : (1 <= n)%Z) by (unfold n; lia).
  set (vi := inject_Z (n - 1) * q).
  assert (Hn1 : 0 <= inject_Z (n - 1)) by (unfold Qle; cbn; lia).
  assert (Hvi0 : 0 <= vi) by (unfold vi; apply Qmult_le_0_compat; lra).
  assert (Hvi1 : vi <= inject_Z (n - 1)).
  { unfold vi.
    assert (H : 0 <= inject_Z (n - 1) * (1 - q))
      by (apply Qmult_le_0_compat; lra).
    assert (E : inject_Z (n - 1) - inject_Z (n - 1) * q
                == inject_Z (n - 1) * (1 - q)) by ring.
    lra. }
  assert (Hf0 : (0 <= Qfloor vi)%Z).
  { change 0%Z with (Qfloor 0). now apply Qfloor_resp_le. }
  assert (Hf1 : (Qfloor vi <= n - 1)%Z).
  { rewrite <- (Qfloor_Z (n - 1)). now apply Qfloor_resp_le. }
  assert (Hnth : forall k : Z, (0 <= k <= n - 1)%Z ->
            exists v, nth (Z.to_nat k) sorted NaN = Fin v /\ x <= v).
  { intros k Hk. apply Hall, In_scores_sort. apply nth_In.
    unfold n, sorted in *. lia. }
  destruct (Hnth (Qfloor vi) ltac:(lia)) as (qa & -> & Ha).
  destruct (Hnth (Z.min (Qfloor vi + 1) (n - 1)) ltac:(lia))
    as (qb & -> & Hb).
  destruct (lerp_at_least x qa qb (vi - inject_Z (Qfloor vi)) Ha Hb)
    as (pt & -> & Hpt).
  - pose proof (Qfloor_le vi) as H1. pose proof (Qlt_floor vi) as H2.
    rewrite inject_Z_plus in H2. change (inject_Z 1) with 1 in H2.
    split; lra.
  - exists pt. auto.
Qed.

Lemma select_lookup (f : pyfloat -> bool) (ids : list string)
    (scale : list pyfloat) (i : nat) (p : string) (v : pyfloat) :
  ids !! i = Some p -> scale !! i = Some v -> f v = true ->
  In p (Scores.select (List.map f scale) ids).
Proof.
  revert ids i. induction scale as [|y scale IH]; intros [|p0 ids] [|i];
    try discriminate.
  - cbn. intros [= ->] [= ->] ->. now left.
  - cbn [lookup list_lookup List.map Scores.select]. intros Hp Hv Hf.
    destruct (f y); [right|]; eapply IH; eauto.
Qed.

(** X21.  With the percentile method and a threshold between 0 and 100
    (10 when none is given), a participant whose 1-5 score is the lowest of
    the finite scores is always reported: the cutoff is never below the
    lowest score. *)
Theorem percentile_flags_lowest (df : pri_df) (threshold : option Q)
    (i : nat) (participant_id : string) (x : Q) :
  (forall t, threshold = Some t -> 0 <= t <= 100) ->
  col_Participant_ID (signals df) !! i = Some participant_id ->
  PRI_Scale_1_5 df !! i = Some (Fin x) ->
  (forall y, In y (PRI_Scale_1_5 df) ->
     y = NaN \/ exists v, y = Fin v /\ x <= v) ->
  exists flagged,
    snd (identify_unreliable_participants "percentile" threshold df)
      = Ok flagged /\
    In participant_id flagged.
Proof.
  intros Ht Hp Hx Hmin.
  set (t := match threshold with Some t => t | None => 10 end).
  assert (Hq : 0 <= t / 100 <= 1).
  { assert (Hr : 0 <= t <= 100).
    { unfold t. destruct threshold as [t'|]; [now apply Ht|].
      split; discriminate. }
    assert (E : t == t / 100 * 100) by field. split; lra. }
  assert (Hin : In (Fin x) (Scores.dropna (PRI_Scale_1_5 df))).
  { apply In_scores_dropna. split; [|reflexivity].
    apply list_elem_of_In. eapply list_elem_of_lookup_2. exact Hx. }
  destruct (quantile_at_least (Scores.dropna (PRI_Scale_1_5 df)) x
              (t / 100)) as (pt & Hquant & Hpt).
  - intros E. rewrite E in Hin. destruct Hin.
  - intros y Hy. apply In_scores_dropna in Hy as [Hy Hnan].
    destruct (Hmin y Hy) as [->|H]; [discriminate|exact H].
  - exact Hq.
  - unfold identify_unreliable_participants, frame_bind, frame_read,
      frame_ret.
    destruct (Scores.dropna (PRI_Scale_1_5 df)) as [|s0 valid] eqn:Ev;
      [destruct Hin|].
    cbn [length Nat.eqb String.eqb Ascii.eqb Bool.eqb].
    fold t. rewrite Hquant. cbn [fst snd].
    eexists. split; [reflexivity|].
    apply (select_lookup (fun x0 => Float.le x0 (Fin pt)) _ _ i _ (Fin x));
      [exact Hp|exact Hx|].
    cbn. now apply Qle_bool_iff.
Qed.

Lemma percentile_flags_lowest_witness :
  exists flagged,
    snd (identify_unreliable_participants "percentile" (Some 10)
           example_scored_low) = Ok flagged /\
    In "a"%string flagged.
Proof.
  apply (percentile_flags_lowest example_scored_low (Some 10) 0 "a" 1).
  - intros t [= <-]. split; discriminate.
  - reflexivity.
  - reflexivity.
  - intros y [<-|[<-|[<-|[<-|[<-|[<-|[]]]]]]];
      first [now left | right; eexists; split; [reflexivity|discriminate]].
Defined.

(** ** Rates out of [parse_percentage] *)

Lemma parse_percentage_float (q : Q) :
  parse_percentage (CFloat (Fin q)) =
    Ok (Fin (if Float.Qlt_bool 1 q then q / 100 else q)).
Proof.
  unfold parse_percentage. cbn. destruct (Float.Qlt_bool 1 q); reflexivity.
Qed.

(** X22.  Rates out of [parse_percentage]: a number between 0 and 100
    gives a rate between 0 and 1, and parsing that rate again returns it
    unchanged; a numeric string without percent sign is parsed like the
    number it denotes; a string "q%" with q between 0 and 100 gives
    q / 100, a rate between 0 and 1. *)
Theorem parse_percentage_rates :
  (forall q, 0 <= q <= 100 ->
     exists r, parse_percentage (CFloat (Fin q)) = Ok (Fin r) /\
               0 <= r <= 1 /\
               parse_percentage (CFloat (Fin r)) = Ok (Fin r)) /\
  (forall s val,
     PyStr.endswith_percent (PyStr.strip (PyStr.chars s)) = false ->
     is_dash (PyStr.strip (PyStr.chars s)) = false ->
     PyStr.float_of_chars (PyStr.strip (PyStr.chars s)) = Ok val ->
     parse_percentage (CStr s) = parse_percentage (CFloat val)) /\
  (forall s q,
     PyStr.endswith_percent (PyStr.strip (PyStr.chars s)) = true ->
     PyStr.float_of_chars
       (PyStr.rstrip_percent (PyStr.strip (PyStr.chars s))) = Ok (Fin q) ->
     0 <= q <= 100 ->
     exists r, parse_percentage (CStr s) = Ok (Fin r) /\ r == q / 100 /\
               0 <= r <= 1).
Proof.
  split; [|split].
  - intros q [Hq0 Hq1]. rewrite parse_percentage_float.
    destruct (Float.Qlt_bool 1 q) eqn:E.
    + exists (q / 100).
      assert (H : 0 <= q / 100 <= 1).
      { assert (Eq : q == q / 100 * 100) by field. split; lra. }
      split; [reflexivity|]. split; [exact H|].
      rewrite parse_percentage_float.
      rewrite (proj2 (Qlt_bool_false 1 (q / 100))) by apply H.
      reflexivity.
    + exists q. apply Qlt_bool_false in E.
      split; [reflexivity|]. split; [split; assumption|].
      rewrite parse_percentage_float.
      rewrite (proj2 (Qlt_bool_false 1 q)) by exact E. reflexivity.
  - intros s val Hend Hdash Hval. rewrite parse_percentage_string.
    cbv zeta. rewrite Hend, Hdash, Hval.
    destruct val as [q| | |]; try reflexivity.
    rewrite parse_percentage_float. unfold Float.gt, Float.lt.
    destruct (Float.Qlt_bool 1 q); reflexivity.
  - intros s q Hend Hval [Hq0 Hq1]. rewrite parse_percentage_string.
    cbv zeta. rewrite Hend, Hval. exists (q / 100).
    split; [reflexivity|]. split; [reflexivity|].
    assert (Eq : q == q / 100 * 100) by field. split; lra.
Qed.

Lemma parse_percentage_rates_witness :
  parse_percentage (CStr " 45 ") = parse_percentage (CFloat (Fin 45)) /\
  exists r, parse_percentage (CStr "45%") = Ok (Fin r) /\ r == 45 / 100 /\
            0 <= r <= 1.
Proof.
  destruct parse_percentage_rates as (_ & Hbare & Hpct). split.
  - apply Hbare; reflexivity.
  - apply Hpct.
    + reflexivity.
    + vm_compute. reflexivity.
    + split; discriminate.
Defined.

(** ** The order of quantiles *)

Lemma insert_sorted_ascending (x : Q) (l : list Q) :
  ascending l -> ascending (Series.insert_sorted x l).
Proof.
  induction l as [|y l IH]; cbn [Series.insert_sorted ascending].
  - intros _. split; [intros y []|exact I].
  - intros [Hy Hl]. destruct (Qle_bool x y) eqn:E.
    + apply Qle_bool_iff in E. cbn [ascending]. split; [|split; assumption].
      intros z [<-|Hz]; [exact E|]. specialize (Hy z Hz). lra.
    + assert (Hyx : y <= x).
      { destruct (Qlt_le_dec y x) as [H|H]; [lra|].
        apply Qle_bool_iff in H. congruence. }
      cbn [ascending]. split; [|now apply IH].
      intros z Hz. apply In_insert_sorted in Hz as [->|Hz]; [exact Hyx|].
      now apply Hy.
Qed.

Lemma sort_ascending (l : list Q) : ascending (Series.sort l).
Proof.
  unfold Series.sort. induction l as [|x l IH]; cbn [fold_right];
    [exact I|]. now apply insert_sorted_ascending.
Qed.

Lemma ascending_nth (l : list Q) (i j : nat) :
  ascending l -> (i <= j)%nat -> (j < length l)%nat ->
  nth i l 0 <= nth j l 0.
Proof.
  revert i j. induction l as [|x l IH]; intros i j Hl Hij Hj;
    [cbn in Hj; lia|].
  destruct Hl as [Hx Hl]. destruct i as [|i], j as [|j]; cbn [nth].
  - apply Qle_refl.
  - apply Hx, nth_In. cbn in Hj. lia.
  - lia.
  - apply IH; [exact Hl|lia|cbn in Hj; lia].
Qed.

Lemma scores_insert_sorted_fin (x : Q) (l : list Q) :
  Scores.insert_sorted (Fin x) (List.map Fin l)
    = List.map Fin (Series.insert_sorted x l).
Proof.
  induction l as [|y l IH]; [reflexivity|].
  cbn [List.map Scores.insert_sorted Series.insert_sorted Float.le].
  destruct (Qle_bool x y); [reflexivity|].
  cbn [List.map]. now rewrite IH.
Qed.

Lemma scores_sort_fin (l : list Q) :
  Scores.sort (List.map Fin l) = List.map Fin (Series.sort l).
Proof.
  unfold Scores.sort, Series.sort.
  induction l as [|x l IH]; [reflexivity|].
  cbn [List.map fold_right]. now rewrite IH, scores_insert_sorted_fin.
Qed.

Lemma dropna_fin_values (c : list pyfloat) :
  scores_finite c -> Scores.dropna c = List.map Fin (fin_values c).
Proof.
  unfold scores_finite, Scores.dropna, fin_values.
  induction c as [|y c IH]; intros Hc; [reflexivity|].
  destruct (Hc y (or_introl eq_refl)) as [->|[v ->]]; cbn.
  - apply IH. intros z Hz. apply Hc. now right.
  - f_equal. apply IH. intros z Hz. apply Hc. now right.
Qed.

Lemma nth_map_Fin (l : list Q) (k : nat) :
  (k < length l)%nat -> nth k (List.map Fin l) NaN = Fin (nth k l 0).
Proof.
  revert k. induction l as [|x l IH]; intros [|k] Hk; cbn in *;
    try lia; [reflexivity|]. apply IH. lia.
Qed.

Lemma quantile_n_pos (values : list Q) :
  values <> [] -> (1 <= Z.of_nat (length (Series.sort values)))%Z.
Proof.
  intros Hne. rewrite length_sort. destruct values; [congruence|cbn; lia].
Qed.

Lemma quantile_index_range (values : list Q) (q : Q) :
  values <> [] -> 0 <= q <= 1 ->
  let n := Z.of_nat (length (Series.sort values)) in
  let vi := inject_Z (n - 1) * q in
  0 <= vi <= inject_Z (n - 1) /\ (0 <= Qfloor vi <= n - 1)%Z /\
  0 <= vi - inject_Z (Qfloor vi) <= 1.
Proof.
  intros Hne q_range n vi.
  pose proof (quantile_n_pos values Hne) as Hn. fold n in Hn.
  assert (Hn1 : 0 <= inject_Z (n - 1)) by (unfold Qle; cbn; lia).
  assert (Hvi0 : 0 <= vi) by (unfold vi; apply Qmult_le_0_compat; lra).
  assert (Hvi1 : vi <= inject_Z (n - 1)).
  { unfold vi.
    assert (H : 0 <= inject_Z (n - 1) * (1 - q))
      by (apply Qmult_le_0_compat; lra).
    assert (E : inject_Z (n - 1) - inject_Z (n - 1) * q
                == inject_Z (n - 1) * (1 - q)) by ring.
    lra. }
  split; [split; assumption|]. split.
  - split.
    + change 0%Z with (Qfloor 0). now apply Qfloor_resp_le.
    + rewrite <- (Qfloor_Z (n - 1)). now apply Qfloor_resp_le.
  - pose proof (Qfloor_le vi) as H1. pose proof (Qlt_floor vi) as H2.
    rewrite inject_Z_plus in H2. change (inject_Z 1) with 1 in H2.
    split; lra.
Qed.

Lemma quantile_fin (values : list Q) (q : Q) :
  values <> [] -> 0 <= q <= 1 ->
  exists pt, Scores.quantile (List.map Fin values) q = Ok (Fin pt) /\
             pt == spec_quantile values q.
Proof.
  intros Hne q_range.
  destruct (quantile_index_range values q Hne q_range) as (_ & Hp & Hg).
  pose proof (quantile_n_pos values Hne) as Hn.
  unfold Scores.quantile, spec_quantile.
  rewrite (proj2 (Qle_bool_iff 0 q) (proj1 q_range)),
          (proj2 (Qle_bool_iff q 1) (proj2 q_range)).
  cbn [andb]. cbv zeta.
  rewrite scores_sort_fin, length_map.
  set (sorted := Series.sort values) in *.
  set (n := Z.of_nat (length sorted)) in *.
  set (vi := inject_Z (n - 1) * q) in *.
  rewrite !nth_map_Fin by (unfold n in *; lia).
  set (a := nth (Z.to_nat (Qfloor vi)) sorted 0).
  set (b := nth (Z.to_nat (Z.min (Qfloor vi + 1) (n - 1))) sorted 0).
  set (g := vi - inject_Z (Qfloor vi)).
  unfold Scores.lerp. cbn.
  destruct (Qle_bool 0.5 g); eexists; (split; [reflexivity|]); ring.
Qed.

Lemma spec_quantile_monotone (values : list Q) (q q' : Q) :
  values <> [] -> 0 <= q -> q <= q' -> q' <= 1 ->
  spec_quantile values q <= spec_quantile values q'.
Proof.
  intros Hne Hq0 Hqq Hq1.
  destruct (quantile_index_range values q Hne ltac:(split; lra))
    as (Hv & Hp & Hg).
  destruct (quantile_index_range values q' Hne ltac:(split; lra))
    as (Hv' & Hp' & Hg').
  cbv zeta in Hv, Hp, Hg, Hv', Hp', Hg'.
  pose proof (quantile_n_pos values Hne) as Hn.
  unfold spec_quantile. cbv zeta.
  set (sorted := Series.sort values) in *.
  set (n := Z.of_nat (length sorted)) in *.
  set (vi := inject_Z (n - 1) * q) in *.
  set (vi' := inject_Z (n - 1) * q') in *.
  assert (Hasc : ascending sorted) by apply sort_ascending.
  assert (Hvv : vi <= vi').
  { unfold vi, vi'.
    assert (H : 0 <= inject_Z (n - 1) * (q' - q)).
    { apply Qmult_le_0_compat; [unfold Qle; cbn; lia|lra]. }
    assert (E : inject_Z (n - 1) * q' - inject_Z (n - 1) * q
                == inject_Z (n - 1) * (q' - q)) by ring.
    lra. }
  assert (Hpp : (Qfloor vi <= Qfloor vi')%Z) by now apply Qfloor_resp_le.
  assert (Hnth : forall i j : Z, (0 <= i <= j)%Z -> (j <= n - 1)%Z ->
            nth (Z.to_nat i) sorted 0 <= nth (Z.to_nat j) sorted 0).
  { intros i j Hij Hj. apply ascending_nth; [exact Hasc| |]; unfold n in *;
      lia. }
  set (p := Qfloor vi) in *. set (p' := Qfloor vi') in *.
  set (a := nth (Z.to_nat p) sorted 0).
  set (b := nth (Z.to_nat (Z.min (p + 1) (n - 1))) sorted 0).
  set (a' := nth (Z.to_nat p') sorted 0).
  set (b' := nth (Z.to_nat (Z.min (p' + 1) (n - 1))) sorted 0).
  assert (Hab : a <= b) by (apply Hnth; lia).
  assert (Hab' : a' <= b') by (apply Hnth; lia).
  destruct (Z.eq_dec p p') as [Epp|Npp].
  - assert (Ea : a' = a) by (unfold a, a'; now rewrite Epp).
    assert (Eb : b' = b) by (unfold b, b'; now rewrite Epp).
    rewrite Ea, Eb, <- Epp.
    assert (H : 0 <= (b - a) * (vi' - vi))
      by (apply Qmult_le_0_compat; lra).
    assert (E : (a + (b - a) * (vi' - inject_Z p))
                - (a + (b - a) * (vi - inject_Z p))
                == (b - a) * (vi' - vi)) by ring.
    lra.
  - assert (Hba' : b <= a') by (apply Hnth; lia).
    assert (H1 : 0 <= (b - a) * (1 - (vi - inject_Z p)))
      by (apply Qmult_le_0_compat; lra).
    assert (H2 : 0 <= (b' - a') * (vi' - inject_Z p'))
      by (apply Qmult_le_0_compat; lra).
    assert (E1 : b - (a + (b - a) * (vi - inject_Z p))
                 == (b - a) * (1 - (vi - inject_Z p))) by ring.
    lra.
Qed.

Lemma quantile_monotone (c : list pyfloat) (q q' : Q) :
  scores_finite c -> Scores.dropna c <> [] ->
  0 <= q -> q <= q' -> q' <= 1 ->
  exists pt pt',
    Scores.quantile (Scores.dropna c) q = Ok (Fin pt) /\
    Scores.quantile (Scores.dropna c) q' = Ok (Fin pt') /\ pt <= pt'.
Proof.
  intros Hfin Hne Hq0 Hqq Hq1.
  rewrite (dropna_fin_values c Hfin) in *.
  assert (Hv : fin_values c <> []).
  { intros E. rewrite E in Hne. apply Hne. reflexivity. }
  destruct (quantile_fin (fin_values c) q Hv ltac:(split; lra))
    as (pt & Ept & Hpt).
  destruct (quantile_fin (fin_values c) q' Hv ltac:(split; lra))
    as (pt' & Ept' & Hpt').
  exists pt, pt'. split; [exact Ept|]. split; [exact Ept'|].
  rewrite Hpt, Hpt'. now apply spec_quantile_monotone.
Qed.

Lemma Float_le_fin_trans (x : pyfloat) (a b : Q) :
  a <= b -> Float.le x (Fin a) = true -> Float.le x (Fin b) = true.
Proof.
  intros Hab. destruct x; cbn; try (intros; assumption).
  rewrite !Qle_bool_iff. lra.
Qed.

(** X23.  With the percentile method, raising the threshold only adds
    participants: for thresholds 0 <= t1 <= t2 <= 100 and a table whose
    scores are missing or finite, both calls return, and the participants
    reported for t1 are among those reported for t2, in the same order. *)
Theorem percentile_threshold_monotone (df : pri_df) (t1 t2 : Q) :
  scores_finite (PRI_Scale_1_5 df) ->
  0 <= t1 -> t1 <= t2 -> t2 <= 100 ->
  exists flagged1 flagged2,
    snd (identify_unreliable_participants "percentile" (Some t1) df)
      = Ok flagged1 /\
    snd (identify_unreliable_participants "percentile" (Some t2) df)
      = Ok flagged2 /\
    flagged1 `sublist_of` flagged2.
Proof.
  intros Hfin H0 H12 H2.
  unfold identify_unreliable_participants, frame_bind, frame_read, frame_ret.
  destruct (Scores.dropna (PRI_Scale_1_5 df)) as [|s0 valid] eqn:Ev.
  { cbn. exists [], []. split; [reflexivity|]. split; [reflexivity|].
    constructor. }
  cbn [length Nat.eqb String.eqb Ascii.eqb Bool.eqb].
  destruct (quantile_monotone (PRI_Scale_1_5 df) (t1 / 100) (t2 / 100))
    as (pt1 & pt2 & E1 & E2 & Hpt); try assumption.
  - rewrite Ev. discriminate.
  - assert (E : t1 == t1 / 100 * 100) by field. lra.
  - assert (E : t1 == t1 / 100 * 100) by field.
    assert (E' : t2 == t2 / 100 * 100) by field. lra.
  - assert (E' : t2 == t2 / 100 * 100) by field. lra.
  - rewrite Ev in E1, E2. rewrite E1, E2. cbn [fst snd].
    eexists _, _. split; [reflexivity|]. split; [reflexivity|].
    apply select_sublist. intros x. now apply Float_le_fin_trans.
Qed.

Lemma percentile_threshold_monotone_witness :
  exists flagged1 flagged2,
    snd (identify_unreliable_participants "percentile" (Some 10)
           example_scored) = Ok flagged1 /\
    snd (identify_unreliable_participants "percentile" (Some 50)
           example_scored) = Ok flagged2 /\
    flagged1 `sublist_of` flagged2.
Proof.
  apply (percentile_threshold_monotone example_scored 10 50);
    try discriminate.
  intros y Hy. right. cbn in Hy.
  repeat (destruct Hy as [<-|Hy]; [eexists; reflexivity|]). destruct Hy.
Defined.

(** X24.  The outliers of the IQR method are among the participants at or
    below the first quartile: on a table whose scores are missing or
    finite, whoever the method "outliers" reports is also reported by the
    method "percentile" with threshold 25, the lower fence Q1 - 1.5 * IQR
    being at most Q1. *)
Theorem outliers_within_lowest_quarter (df : pri_df)
    (threshold : option Q) :
  scores_finite (PRI_Scale_1_5 df) ->
  exists outliers lowest_quarter,
    snd (identify_unreliable_participants "outliers" threshold df)
      = Ok outliers /\
    snd (identify_unreliable_participants "percentile" (Some 25) df)
      = Ok lowest_quarter /\
    outliers `sublist_of` lowest_quarter.
Proof.
  intros Hfin.
  unfold identify_unreliable_participants, frame_bind, frame_read, frame_ret.
  destruct (Scores.dropna (PRI_Scale_1_5 df)) as [|s0 valid] eqn:Ev.
  { cbn. exists [], []. split; [reflexivity|]. split; [reflexivity|].
    constructor. }
  cbn [length Nat.eqb String.eqb Ascii.eqb Bool.eqb].
  assert (Hne : Scores.dropna (PRI_Scale_1_5 df) <> [])
    by (rewrite Ev; discriminate).
  destruct (quantile_monotone (PRI_Scale_1_5 df) 0.25 0.75 Hfin Hne)
    as (q1 & q3 & E1 & E3 & H13); try discriminate.
  destruct (quantile_monotone (PRI_Scale_1_5 df) 0.25 (25 / 100) Hfin Hne)
    as (q1' & p25 & E1' & E25 & H25); try discriminate.
  rewrite E1 in E1'. injection E1' as <-.
  rewrite Ev in E1, E3, E25. rewrite E1, E3, E25. cbn [fst snd].
  eexists _, _. split; [reflexivity|]. split; [reflexivity|].
  apply select_sublist. intros x. cbn.
  destruct x as [v| | |]; cbn; try (intros; assumption); try reflexivity.
  unfold Float.Qlt_bool. rewrite negb_true_iff.
  intros Hlt. apply Qle_bool_iff.
  destruct (Qlt_le_dec v (q1 + - (1.5 * (q3 + - q1)))) as [H|H].
  - lra.
  - apply Qle_bool_iff in H. congruence.
Qed.

Lemma outliers_within_lowest_quarter_witness :
  exists outliers lowest_quarter,
    snd (identify_unreliable_participants "outliers" None example_scored)
      = Ok outliers /\
    snd (identify_unreliable_participants "percentile" (Some 25)
           example_scored) = Ok lowest_quarter /\
    outliers `sublist_of` lowest_quarter.
Proof.
  apply (outliers_within_lowest_quarter example_scored None).
  intros y Hy. right. cbn in Hy.
  repeat (destruct Hy as [<-|Hy]; [eexists; reflexivity|]). destruct Hy.
Defined.

(** ** The judge run comes to an end *)

Section JudgeRunCompletes.

Import BatchLLM.

Lemma new_batch_work (p : params) (l : list bool) :
(list_sum (List.map task_work
   (List.map (fun h => Waiting (calls_of p h)) l))
 <= length l * (2 + 2 * models p))%nat.
Proof.
induction l as [|h l IH]; [cbn; lia|].
change (list_sum (List.map task_work
          (List.map (fun h => Waiting (calls_of p h)) (h :: l))))
  with (task_work (Waiting (calls_of p h))
        + list_sum (List.map task_work
            (List.map (fun h => Waiting (calls_of p h)) l)))%nat.
cbn [length task_work]. unfold calls_of at 1. destruct h; lia.
Qed.

Lemma remaining_work_step (p : params) (st st' : state) (ev : event) :
(0 < BATCH_SIZE p)%nat -> step p st ev = Some st' ->
(S (remaining_work p st') <= remaining_work p st)%nat.
Proof.
intros HB Hstep. unfold remaining_work.
destruct ev as [|i|i|i|i]; cbn in Hstep.
- destruct (forallb is_done (batch st)); [|discriminate].
  destruct (later st) as [|h hs] eqn:Hl; [discriminate|].
  injection Hstep as <-. cbn [batch later].
  pose proof (new_batch_work p (take (BATCH_SIZE p) (h :: hs))) as Hw.
  rewrite length_take in Hw. rewrite length_drop.
  set (k := Nat.min (BATCH_SIZE p) (length (h :: hs))) in *.
  assert (Hk : (1 <= k <= length (h :: hs))%nat) by (unfold k; cbn; lia).
  replace (length (h :: hs) - BATCH_SIZE p)%nat
    with (length (h :: hs) - k)%nat by (unfold k; lia).
  nia.
- destruct (batch st !! i) as [[calls|u f|]|] eqn:Hi; try discriminate.
  destruct (permits st); [discriminate|].
  injection Hstep as <-. cbn [batch later].
  pose proof (list_sum_insert task_work _ _ _ (Holding calls 0) Hi) as Hs.
  cbn [task_work] in Hs. lia.
- destruct (batch st !! i) as [[calls|[|u] f|]|] eqn:Hi; try discriminate.
  injection Hstep as <-. cbn [batch later].
  pose proof (list_sum_insert task_work _ _ _ (Holding u (S f)) Hi) as Hs.
  cbn [task_work] in Hs. lia.
- destruct (batch st !! i) as [[calls|u [|f]|]|] eqn:Hi; try discriminate.
  injection Hstep as <-. cbn [batch later].
  pose proof (list_sum_insert task_work _ _ _ (Holding u f) Hi) as Hs.
  cbn [task_work] in Hs. lia.
- destruct (batch st !! i) as [[calls|[|u] [|f]|]|] eqn:Hi; try discriminate.
  injection Hstep as <-. cbn [batch later].
  pose proof (list_sum_insert task_work _ _ _ Done Hi) as Hs.
  cbn [task_work] in Hs. lia.
Qed.

Lemma remaining_work_run (p : params) (evs : list event) (st st' : state) :
(0 < BATCH_SIZE p)%nat -> run p st evs = Some st' ->
(length evs + remaining_work p st' <= remaining_work p st)%nat.
Proof.
intros HB. revert st. induction evs as [|ev evs IH]; intros st Hrun;
  cbn in Hrun.
- injection Hrun as <-. cbn. lia.
- destruct (step p st ev) as [st1|] eqn:Hstep; [|discriminate].
  specialize (IH st1 Hrun).
  pose proof (remaining_work_step p st st1 ev HB Hstep). cbn [length]. lia.
Qed.

Lemma not_all_done (l : list task) :
forallb is_done l = false ->
exists i t, l !! i = Some t /\ is_done t = false.
Proof.
induction l as [|t l IH]; [discriminate|]. cbn [forallb].
destruct (is_done t) eqn:Et.
- cbn. intros H. destruct (IH H) as (i & t' & Hi & Ht').
  exists (S i), t'. auto.
- intros _. exists 0%nat, t. auto.
Qed.

Lemma some_holder (l : list task) :
(0 < list_sum (List.map holding_weight l))%nat ->
exists i unsent in_flight, l !! i = Some (Holding unsent in_flight).
Proof.
induction l as [|t l IH]; [cbn; lia|].
change (list_sum (List.map holding_weight (t :: l)))
  with (holding_weight t + list_sum (List.map holding_weight l))%nat.
destruct t as [c|u f|].
- cbn [holding_weight is_holding]. intros H.
  destruct (IH ltac:(lia)) as (i & u & f & Hi). exists (S i), u, f. auto.
- intros _. exists 0%nat, u, f. reflexivity.
- cbn [holding_weight is_holding]. intros H.
  destruct (IH ltac:(lia)) as (i & u & f & Hi). exists (S i), u, f. auto.
Qed.

Lemma holder_can_move (p : params) (st : state) (i unsent in_flight : nat) :
batch st !! i = Some (Holding unsent in_flight) ->
exists ev st', step p st ev = Some st'.
Proof.
intros Hi. destruct unsent as [|u].
- destruct in_flight as [|f].
  + exists (Release i). cbn. rewrite Hi. eauto.
  + exists (Resolve i). cbn. rewrite Hi. eauto.
- exists (Send i). cbn. rewrite Hi. eauto.
Qed.

(** X25.  The judge run comes to an end: with a positive batch size and a
  positive semaphore, a run from the initial state has at most
  [3 + 2 * models] events per participant, and it is never stuck before the
  end: as long as a participant is left for a later batch or a task of the
  batch is not done, some event can take place. *)
Theorem judge_run_completes (p : params) (participants : list bool)
  (evs : list event) (st : state) :
(0 < BATCH_SIZE p)%nat -> (0 < MAX_CONCURRENT_REQUESTS p)%nat ->
run p (init p participants) evs = Some st ->
(length evs <= length participants * (3 + 2 * models p))%nat /\
(later st <> [] \/ forallb is_done (batch st) = false ->
 exists ev st', step p st ev = Some st').
Proof.
intros HB HM Hrun. split.
- pose proof (remaining_work_run p evs _ _ HB Hrun) as H.
  unfold remaining_work at 2 in H. cbn [init batch later List.map] in H.
  change (list_sum []) with 0%nat in H. lia.
- intros Hleft.
  destruct (invariant_run p evs _ _ (invariant_init p participants) Hrun)
    as [Hperm _].
  unfold holders in Hperm. rewrite holders_sum in Hperm.
  destruct (forallb is_done (batch st)) eqn:Hdone.
  + destruct Hleft as [Hl|Hl]; [|discriminate].
    exists StartBatch. cbn. rewrite Hdone.
    destruct (later st); [congruence|eauto].
  + destruct (not_all_done _ Hdone) as (i & t & Hi & Ht).
    destruct t as [calls|u f|]; [| |discriminate].
    * destruct (permits st) as [|n] eqn:Ep.
      -- destruct (some_holder (batch st) ltac:(lia)) as (j & u & f & Hj).
         eapply holder_can_move; eauto.
      -- exists (Acquire i). cbn. rewrite Hi, Ep. eauto.
    * eapply holder_can_move; eauto.
Qed.

Lemma judge_run_completes_witness :
(length (fan_out_schedule 100 3)
 <= length (repeat true 100) * (3 + 2 * models source_params))%nat.
Proof.
refine (proj1 (judge_run_completes source_params (repeat true 100)
                 (fan_out_schedule 100 3) _ _ _ _)).
- cbn. lia.
- cbn. lia.
- vm_compute. reflexivity.
Defined.

End JudgeRunCompletes.

(** ** The redistribution of the ASC weight *)



(** ** The quartiles as order statistics *)




Lemma sort_In (x : Q) (l : list Q) : In x l -> In x (Series.sort l).
Proof.
  induction l as [|y l IH]; [tauto|].
  change (Series.sort (y :: l)) with (Series.insert_sorted y (Series.sort l)).
  intros [<-|Hx].
  - generalize (Series.sort l). intros s.
    induction s as [|z s IHs]; cbn; [now left|].
    destruct (Qle_bool y z); cbn; auto.
  - specialize (IH Hx). revert IH. generalize (Series.sort l). intros s.
    induction s as [|z s IHs]; cbn; [tauto|].
    destruct (Qle_bool y z); cbn; intros [<-|H]; auto.
Qed.






Lemma lt_fin_proper (x : pyfloat) (a b : Q) :
  a == b -> Float.lt x (Fin a) = Float.lt x (Fin b).
Proof.
  intros E. destruct x as [v| | |]; cbn; try reflexivity.
  unfold Float.Qlt_bool. f_equal.
  destruct (Qle_bool a v) eqn:Ea, (Qle_bool b v) eqn:Eb; try reflexivity.
  - apply Qle_bool_iff in Ea. rewrite E in Ea. apply Qle_bool_iff in Ea.
    congruence.
  - apply Qle_bool_iff in Eb. rewrite <- E in Eb. apply Qle_bool_iff in Eb.
    congruence.
Qed.

Lemma spec_below_proper (a b : Q) (df : pri_df) :
  a == b -> spec_below (Fin a) df = spec_below (Fin b) df.
Proof.
  intros E. unfold spec_below. f_equal. apply List.filter_ext.
  intros row. now apply lt_fin_proper.
Qed.




